(** * philo: the bounded LIFO stack server (server.js)

    A shallow embedding of the connection-handling engine of [server.js]:
    the shared stack [gLIFO], the client registry [gClients], the
    per-connection closure variables of the [net.createServer] callback,
    the retry timers armed by [checkStackEmpty] and [checkStackFull], and
    the [shutdown] path taken on a signal or an uncaught exception.

    The program is a single-threaded event-loop program: every callback
    runs to completion before the next one starts.  A run is therefore a
    list of events, each one dispatched to the callback the source
    registers for it.  Logging (winston) only reads the state and is left
    out; of the diagnostic server, which only reads the state too, the
    object it reports is modelled.

    What the model takes from the platform rather than from [server.js]:
    - [client.setEncoding(null)] installs the UTF-8 string decoder on the
      socket: the ['data'] handler receives a string, and its [buffer],
      [Buffer.from(data)], is the UTF-8 encoding of that string and not
      the chunk read from the socket.  The events [OnData] carry that
      [buffer]; [delivered] gives it for a chunk, and [serve] runs the
      server on chunks;
    - [client.end(data)] on a socket that was ended before writes nothing
      on the wire: [endCalls] and [sent] record the calls, and what a
      client receives is at most the data of the first call;
    - a socket has no idle timeout unless [setTimeout] is called on it,
      which [server.js] never does: its ['timeout'] handler is registered
      and modelled, but the platform never runs it;
    - [Object.keys] lists the uuid keys in insertion order and
      [Array.prototype.sort] is stable (ECMAScript 2019; before it, V8 may
      reorder equal elements of arrays of more than ten elements);
    - the division in [(now - earliestDate) / 1000] is exact;
    - the callback of [appServer.getConnections] runs on the next tick,
      before any socket event of the new connection;
    - pending [setTimeout] callbacks may run in any order, between any two
      other events. *)

From Stdlib Require Import ZArith QArith Lia.
From stdpp Require Import base gmap strings list.

Local Open Scope Z_scope.

(** ** Buffers

    A [Buffer] is a sequence of bytes; a byte is held as an integer. *)

Definition Buffer := list Z.

(** [buffer[i] & mask]: an index past the end reads [undefined], and
    [undefined & mask] is [0] in JavaScript. *)
Definition Buffer_and (b : Buffer) (i : nat) (mask : Z) : Z :=
  match b !! i with
  | Some v => Z.land v mask
  | None => 0
  end.

(** [buffer.slice(s, e)] for [0 <= s <= e]: the bytes at [s .. e-1] that
    exist. *)
Definition Buffer_slice (s e : Z) (b : Buffer) : Buffer :=
  take (Z.to_nat (e - s)) (drop (Z.to_nat s) b).

(** [Buffer.alloc(n, fill)]. *)
Definition Buffer_alloc (n : Z) (fill : Z) : Buffer :=
  replicate (Z.to_nat n) fill.

(** [buffer[i] = v]: the value is stored modulo 256; an index past the end
    is ignored. *)
Definition Buffer_set (i : nat) (v : Z) (b : Buffer) : Buffer :=
  <[i := v mod 256]> b.

(** [source.copy(target, targetStart)]: as many bytes of [source] as fit
    in [target] from [targetStart] on. *)
Definition Buffer_copy (source target : Buffer) (targetStart : nat) : Buffer :=
  take targetStart target
    ++ take (length target - targetStart) source
    ++ drop (targetStart + length source) target.

(** [Buffer.concat(list)]. *)
Definition Buffer_concat (l : list Buffer) : Buffer := concat l.

(** ** What the socket hands to the ['data'] handler

    [client.setEncoding(null)] installs the string decoder of the platform
    on the socket, and a null encoding stands for ['utf8'].  The handler
    is therefore called with a string, and [Buffer.from(data)] is the
    UTF-8 encoding of that string.  A string is held as the list of its
    code points. *)

(** The code point the decoder makes of one byte of a chunk in which no
    byte announces a multi-byte sequence.  An ASCII byte is itself.  A
    byte of [0x80 .. 0xBF] (it could only continue a sequence, and none
    is open) or of [0xF8 .. 0xFF] (it occurs in no sequence) is replaced
    by U+FFFD.  [None]: the byte is one of [0xC0 .. 0xF7], which announce
    a sequence; what the decoder makes of such a chunk depends on the
    bytes that follow, on those it keeps for the next chunk and on the
    version of the platform, and is left out of the model. *)
Definition decoded_byte (b : Z) : option Z :=
  if (0 <=? b) && (b <? 0x80) then Some b
  else if ((0x80 <=? b) && (b <? 0xC0)) || ((0xF8 <=? b) && (b <=? 0xFF))
  then Some 0xFFFD
  else None.

(** The string [data] the handler receives for a chunk read from the
    socket. *)
Definition StringDecoder_write (chunk : Buffer) : option (list Z) :=
  mapM decoded_byte chunk.

(** The UTF-8 encoding of a code point (the decoder yields no
    surrogate). *)
Definition utf8_encode (c : Z) : Buffer :=
  if c <? 0x80 then [c]
  else if c <? 0x800 then
    [Z.lor 0xC0 (Z.shiftr c 6); Z.lor 0x80 (Z.land c 0x3F)]
  else if c <? 0x10000 then
    [Z.lor 0xE0 (Z.shiftr c 12); Z.lor 0x80 (Z.land (Z.shiftr c 6) 0x3F);
     Z.lor 0x80 (Z.land c 0x3F)]
  else
    [Z.lor 0xF0 (Z.shiftr c 18); Z.lor 0x80 (Z.land (Z.shiftr c 12) 0x3F);
     Z.lor 0x80 (Z.land (Z.shiftr c 6) 0x3F); Z.lor 0x80 (Z.land c 0x3F)].

(** [Buffer.from(data)] for a string [data]. *)
Definition Buffer_from (data : list Z) : Buffer :=
  concat (map utf8_encode data).

(** [delivered chunk]: the [buffer] of the data handler when [chunk] is
    read from the socket. *)
Definition delivered (chunk : Buffer) : option Buffer :=
  match StringDecoder_write chunk with
  | Some data => Some (Buffer_from data)
  | None => None
  end.

(** ** JavaScript objects used as dictionaries

    [gClients] is a plain object keyed by uuid strings (never array
    indices).  [Object.keys] lists such keys in insertion order, so the
    object is an association list with unique keys: assignment to a new key
    appends, assignment to an existing key replaces in place, [delete]
    removes. *)

Module Obj.
Section Obj.
Context {V : Type}.

Definition t := list (string * V).

Fixpoint get (k : string) (o : t) : option V :=
  match o with
  | [] => None
  | (k', v) :: r => if decide (k = k') then Some v else get k r
  end.

Fixpoint set (k : string) (v : V) (o : t) : t :=
  match o with
  | [] => [(k, v)]
  | (k', v') :: r =>
      if decide (k = k') then (k, v) :: r else (k', v') :: set k v r
  end.

Fixpoint delete (k : string) (o : t) : t :=
  match o with
  | [] => []
  | (k', v') :: r =>
      if decide (k = k') then delete k r else (k', v') :: delete k r
  end.

Definition keys (o : t) : list string := map fst o.
End Obj.
Arguments t : clear implicits.
End Obj.

(** [Array.prototype.sort(compare)], as a stable insertion sort: an
    element goes before the first one that does not compare smaller than
    it, and elements that compare equal keep their order.  Stability is
    what ECMAScript 2019 requires; an older V8 may order equal elements
    of an array of more than ten elements otherwise.  The claim on the
    admission boundary takes the oldest record to be the only record with
    the least timestamp, where every sort agrees. *)
Fixpoint sort_insert {A} (compare : A -> A -> Z) (x : A) (l : list A) : list A :=
  match l with
  | [] => [x]
  | y :: r =>
      if compare x y <=? 0 then x :: y :: r else y :: sort_insert compare x r
  end.

Definition Array_sort {A} (compare : A -> A -> Z) (l : list A) : list A :=
  foldr (sort_insert compare) [] l.

(** ** Data model *)

(** [config.json] is not part of the sources: its three limits are
    parameters of the model.  The two counts are integers, the stale
    period is a number of seconds. *)
Record Config := {
  maxConnections : Z;
  maxStackSize : Z;
  staleConnectionPeriodSeconds : Q
}.

(** The records stored in [gClients].  The [client] field is the socket
    of the connection, named by the connection's uuid. *)
Module Client.
Record t := mk {
  timestamp : Z;
  client : string;
  counter : Z;
  disconnect : bool
}.
End Client.

(** The object returned by [disconnectOldClient]. *)
Module Result.
Record t := mk {
  disconnect : bool;
  uuid : string
}.
End Result.

(** The values taken by the closure variable [state]. *)
Inductive State := Start | Pop | Push | Done | Disconnect.

#[global] Instance State_eq_dec : EqDecision State.
Proof. solve_decision. Defined.

(** The closure variables of one connection callback, with the calls made
    on its socket: [endCalls] lists the arguments of the successive
    [client.end(...)] calls, [None] for a call without data. *)
Record Conn := {
  state : State;
  payloadBytesRead : Z;
  payloadLength : Z;
  payloadList : list Buffer;
  exitLoop : bool;
  endCalls : list (option Buffer)
}.

Definition conn_init : Conn :=
  {| state := Start; payloadBytesRead := 0; payloadLength := 0;
     payloadList := []; exitLoop := false; endCalls := [] |}.

#[global] Instance Conn_inhabited : Inhabited Conn := populate conn_init.

Definition set_state (s : State) (c : Conn) : Conn :=
  {| state := s; payloadBytesRead := payloadBytesRead c;
     payloadLength := payloadLength c; payloadList := payloadList c;
     exitLoop := exitLoop c; endCalls := endCalls c |}.

Definition set_payloadBytesRead (n : Z) (c : Conn) : Conn :=
  {| state := state c; payloadBytesRead := n;
     payloadLength := payloadLength c; payloadList := payloadList c;
     exitLoop := exitLoop c; endCalls := endCalls c |}.

Definition set_payloadLength (n : Z) (c : Conn) : Conn :=
  {| state := state c; payloadBytesRead := payloadBytesRead c;
     payloadLength := n; payloadList := payloadList c;
     exitLoop := exitLoop c; endCalls := endCalls c |}.

Definition set_payloadList (l : list Buffer) (c : Conn) : Conn :=
  {| state := state c; payloadBytesRead := payloadBytesRead c;
     payloadLength := payloadLength c; payloadList := l;
     exitLoop := exitLoop c; endCalls := endCalls c |}.

Definition set_exitLoop (b : bool) (c : Conn) : Conn :=
  {| state := state c; payloadBytesRead := payloadBytesRead c;
     payloadLength := payloadLength c; payloadList := payloadList c;
     exitLoop := b; endCalls := endCalls c |}.

Definition set_endCalls (l : list (option Buffer)) (c : Conn) : Conn :=
  {| state := state c; payloadBytesRead := payloadBytesRead c;
     payloadLength := payloadLength c; payloadList := payloadList c;
     exitLoop := exitLoop c; endCalls := l |}.

(** A callback handed to [setTimeout(..., 1)] and not yet run:
    [checkStackEmpty] of a connection, or [checkStackFull] of a connection
    with the [combinedPayload] it closes over. *)
Inductive Timer :=
  | TimerEmpty (u : string)
  | TimerFull (u : string) (combinedPayload : Buffer).

(** What the admission callback decided. *)
Inductive Verdict :=
  | Accepted
  | AcceptedEvicting (old : string)
  | Rejected.

(** Marks left in [history]; they record the order in which the source
    lines ran and influence nothing. *)
Inductive Action :=
  | Registered (u : string)
  | Decided (u : string) (v : Verdict)
  | DataHandled (u : string).

(** The state of the process. *)
Record World := {
  gKillMe : bool;
  gLIFO : list Buffer;
  gClients : Obj.t Client.t;
  gConnectionsMade : Z;
  conns : gmap string Conn;
  timers : list Timer;
  listening : bool;
  history : list Action
}.

Definition world_init : World :=
  {| gKillMe := false; gLIFO := []; gClients := []; gConnectionsMade := 0;
     conns := ∅; timers := []; listening := true; history := [] |}.

Definition set_gKillMe (b : bool) (w : World) : World :=
  {| gKillMe := b; gLIFO := gLIFO w; gClients := gClients w;
     gConnectionsMade := gConnectionsMade w; conns := conns w;
     timers := timers w; listening := listening w; history := history w |}.

Definition set_gLIFO (l : list Buffer) (w : World) : World :=
  {| gKillMe := gKillMe w; gLIFO := l; gClients := gClients w;
     gConnectionsMade := gConnectionsMade w; conns := conns w;
     timers := timers w; listening := listening w; history := history w |}.

Definition set_gClients (g : Obj.t Client.t) (w : World) : World :=
  {| gKillMe := gKillMe w; gLIFO := gLIFO w; gClients := g;
     gConnectionsMade := gConnectionsMade w; conns := conns w;
     timers := timers w; listening := listening w; history := history w |}.

Definition set_gConnectionsMade (n : Z) (w : World) : World :=
  {| gKillMe := gKillMe w; gLIFO := gLIFO w; gClients := gClients w;
     gConnectionsMade := n; conns := conns w;
     timers := timers w; listening := listening w; history := history w |}.

Definition set_conns (m : gmap string Conn) (w : World) : World :=
  {| gKillMe := gKillMe w; gLIFO := gLIFO w; gClients := gClients w;
     gConnectionsMade := gConnectionsMade w; conns := m;
     timers := timers w; listening := listening w; history := history w |}.

Definition set_timers (t : list Timer) (w : World) : World :=
  {| gKillMe := gKillMe w; gLIFO := gLIFO w; gClients := gClients w;
     gConnectionsMade := gConnectionsMade w; conns := conns w;
     timers := t; listening := listening w; history := history w |}.

Definition set_listening (b : bool) (w : World) : World :=
  {| gKillMe := gKillMe w; gLIFO := gLIFO w; gClients := gClients w;
     gConnectionsMade := gConnectionsMade w; conns := conns w;
     timers := timers w; listening := b; history := history w |}.

Definition set_history (h : list Action) (w : World) : World :=
  {| gKillMe := gKillMe w; gLIFO := gLIFO w; gClients := gClients w;
     gConnectionsMade := gConnectionsMade w; conns := conns w;
     timers := timers w; listening := listening w; history := h |}.

(** The closure variables of connection [u]. *)
Definition conn (u : string) (w : World) : Conn := conns w !!! u.

Definition update_conn (u : string) (f : Conn -> Conn) (w : World) : World :=
  set_conns (<[u := f (conn u w)]> (conns w)) w.

Definition mark (a : Action) (w : World) : World :=
  set_history (history w ++ [a]) w.

(** [client.end(data)] on the socket of connection [u]. *)
Definition client_end (u : string) (data : option Buffer) (w : World) : World :=
  update_conn u (fun c => set_endCalls (endCalls c ++ [data]) c) w.

(** [setTimeout(callback, 1)]. *)
Definition setTimeout (t : Timer) (w : World) : World :=
  set_timers (timers w ++ [t]) w.

(** The buffers handed to the socket of a connection: the data of its
    [end] calls, in order.  The platform writes on the wire the data of
    the first call only; a call on a socket that was ended before (by the
    [end()] of an eviction, or by an earlier response) is a write after
    end, which transmits nothing. *)
Definition sent (u : string) (w : World) : list Buffer :=
  omap id (endCalls (conn u w)).

(** The result of running a callback: it returns, or it throws (here
    always a [TypeError] from reading a property of [undefined]) in the
    world reached so far. *)
Inductive Completion :=
  | Normal (w : World)
  | Throw (w : World).

Definition Qgt_bool (a b : Q) : bool := negb (Qle_bool a b).

(** ** The callbacks of server.js *)

Section Server.

Variable config : Config.

(** [gClients[a].timestamp], read by the comparison function of the sort
    for keys of [gClients] only. *)
Definition timestampOf (w : World) (a : string) : Z :=
  match Obj.get a (gClients w) with
  | Some r => Client.timestamp r
  | None => 0
  end.

(** The local variables [sorted] and [earliestUUID] of
    [disconnectOldClient]. *)
Definition sorted (w : World) : list string :=
  Array_sort (fun a b => timestampOf w a - timestampOf w b)
             (Obj.keys (gClients w)).

Definition earliestUUID (w : World) : option string := sorted w !! 0%nat.

(** [disconnectOldClient()], with the value [Date.now()] returns in it.
    [None] stands for the [TypeError] thrown when [gClients] is empty
    ([sorted[0]] is [undefined]).  The elapsed time is the exact quotient
    by 1000. *)
Definition disconnectOldClient (dateNow : Z) (w : World) : option Result.t :=
  match earliestUUID w with
  | None => None
  | Some earliestUUID =>
      match Obj.get earliestUUID (gClients w) with
      | None => None
      | Some r =>
          let earliestDate := Client.timestamp r in
          let now := dateNow in
          let elapsedTimeSeconds := (inject_Z (now - earliestDate) / 1000)%Q in
          if Qgt_bool elapsedTimeSeconds (staleConnectionPeriodSeconds config)
          then Some (Result.mk true earliestUUID)
          else Some (Result.mk false "")
      end
  end.

(** The function [checkStackEmpty] declared in the data handler of
    connection [myUUID]. *)
Definition checkStackEmpty (myUUID : string) (w : World) : World :=
  if gKillMe w || exitLoop (conn myUUID w) then w
  else if negb (Z.of_nat (length (gLIFO w)) =? 0) then
    let payload := last (gLIFO w) in
    match payload with
    | None => w
    | Some payload =>
        let w := set_gLIFO (removelast (gLIFO w)) w in
        let length := Z.of_nat (length payload) in
        let sendBuffer := Buffer_alloc (length + 1) 0 in
        let sendBuffer := Buffer_set 0 (Z.land length 0x7F) sendBuffer in
        let sendBuffer := Buffer_copy payload sendBuffer 1 in
        client_end myUUID (Some sendBuffer) w
    end
  else setTimeout (TimerEmpty myUUID) w.

(** The function [checkStackFull] declared in the data handler of
    connection [myUUID], closing over [combinedPayload]. *)
Definition checkStackFull (myUUID : string) (combinedPayload : Buffer)
    (w : World) : World :=
  if gKillMe w || exitLoop (conn myUUID w) then w
  else if Z.of_nat (length (gLIFO w)) <? maxStackSize config then
    let w := set_gLIFO (gLIFO w ++ [combinedPayload]) w in
    client_end myUUID (Some (Buffer_alloc 1 0)) w
  else setTimeout (TimerFull myUUID combinedPayload) w.

(** The synchronous body of the [net.createServer] callback.  The call
    [appServer.getConnections(...)] in it only schedules its callback, and
    [client.setEncoding(null)] only installs the decoder, which shows in
    what the ['data'] events of the socket carry ([delivered]). *)
Definition connectionListener (myUUID : string) (now : Z) (w : World) : World :=
  let w := set_gConnectionsMade (gConnectionsMade w + 1) w in
  let w := set_conns (<[myUUID := conn_init]> (conns w)) w in
  let w :=
    set_gClients
      (Obj.set myUUID
         (Client.mk now myUUID (gConnectionsMade w) false) (gClients w)) w in
  mark (Registered myUUID) w.

(** The callback given to [appServer.getConnections] on accept, with the
    count it receives and the value [Date.now()] returns in
    [disconnectOldClient]. *)
Definition getConnectionsCallback (myUUID : string) (connections dateNow : Z)
    (w : World) : Completion :=
  if connections >? maxConnections config then
    match disconnectOldClient dateNow w with
    | None => Throw w
    | Some result =>
        if Result.disconnect result then
          match Obj.get (Result.uuid result) (gClients w) with
          | None => Throw w
          | Some r =>
              let w := client_end (Client.client r) None w in
              let w :=
                set_gClients
                  (Obj.set (Result.uuid result)
                     (Client.mk (Client.timestamp r) (Client.client r)
                        (Client.counter r) true) (gClients w)) w in
              Normal (mark (Decided myUUID (AcceptedEvicting (Result.uuid result))) w)
          end
        else
          let w := client_end myUUID (Some (Buffer_alloc 1 0xFF)) w in
          let w := update_conn myUUID (set_state Disconnect) w in
          Normal (mark (Decided myUUID Rejected) w)
    end
  else Normal (mark (Decided myUUID Accepted) w).

(** The data handler, in the order of the source.  First the three
    pieces of its body that only move closure variables. *)

(** The branch [state == 'push']: one more chunk of the payload. *)
Definition pushContinue (buffer : Buffer) (c : Conn) : Conn :=
  let c := set_payloadList (payloadList c ++ [buffer]) c in
  let c := set_payloadBytesRead
             (payloadBytesRead c + Z.of_nat (length buffer)) c in
  if payloadBytesRead c >=? payloadLength c then set_state Done c else c.

(** The second branch [state == 'start']: the first chunk of a push. *)
Definition pushStart (buffer : Buffer) (c : Conn) : Conn :=
  let c := set_state Push c in
  let c := set_payloadLength (Buffer_and buffer 0 0x7F) c in
  let c := set_payloadList
             (payloadList c
                ++ [Buffer_slice 1 (payloadLength c + 1) buffer]) c in
  let c := set_payloadBytesRead (Z.of_nat (length buffer) - 1) c in
  if payloadBytesRead c >=? payloadLength c then set_state Done c else c.

(** The chain of tests on [state]. *)
Definition onDataState (myUUID : string) (buffer : Buffer) (w : World) : World :=
  if bool_decide (state (conn myUUID w) = Start)
     && negb (Buffer_and buffer 0 0x80 =? 0) then
    let w := update_conn myUUID (set_state Pop) w in
    checkStackEmpty myUUID w
  else if bool_decide (state (conn myUUID w) = Push) then
    update_conn myUUID (pushContinue buffer) w
  else if bool_decide (state (conn myUUID w) = Start) then
    update_conn myUUID (pushStart buffer) w
  else if bool_decide (state (conn myUUID w) = Disconnect) then w
  else w.

(** The final test [state == 'done']. *)
Definition onDataDone (myUUID : string) (w : World) : World :=
  if bool_decide (state (conn myUUID w) = Done) then
    let combinedPayload := Buffer_concat (payloadList (conn myUUID w)) in
    checkStackFull myUUID combinedPayload w
  else w.

(** The ['data'] handler of connection [myUUID]; [buffer] is
    [Buffer.from(data)].  Reading [gClients[myUUID].disconnect] throws
    when the record is gone. *)
Definition onData (myUUID : string) (buffer : Buffer) (w : World) : Completion :=
  let w := mark (DataHandled myUUID) w in
  match Obj.get myUUID (gClients w) with
  | None => Throw w
  | Some r =>
      let w :=
        if Client.disconnect r
        then update_conn myUUID (set_state Disconnect) w else w in
      let w := onDataState myUUID buffer w in
      Normal (onDataDone myUUID w)
  end.

(** The ['end'], ['timeout'] and ['error'] handlers of connection
    [myUUID] do the same two things (the ['end'] handler also asks for the
    count of connections, to log it). *)
Definition onEnd (myUUID : string) (w : World) : World :=
  let w := update_conn myUUID (set_exitLoop true) w in
  set_gClients (Obj.delete myUUID (gClients w)) w.

Definition onTimeout (myUUID : string) (w : World) : World :=
  let w := update_conn myUUID (set_exitLoop true) w in
  set_gClients (Obj.delete myUUID (gClients w)) w.

Definition onError (myUUID : string) (w : World) : World :=
  let w := update_conn myUUID (set_exitLoop true) w in
  set_gClients (Obj.delete myUUID (gClients w)) w.

(** [shutdown()]: raise the halt flag and close the server. *)
Definition shutdown (w : World) : World :=
  let w := set_gKillMe true w in
  set_listening false w.

(** ** The event loop *)

(** What the environment can make happen.  [OnConnection] carries the
    uuid [uuidv4()] returns, the two readings of [Date.now()] and the
    count [getConnections] reports; [OnData] carries the [buffer] of the
    handler, that is [Buffer.from(data)]; [OnTimer i] runs the [i]-th
    pending [setTimeout] callback (any of them may be the next to run).
    [OnTimeout] runs the handler registered for ['timeout'], an event the
    platform only emits for a socket with an idle timeout; [OnError]
    runs the handler of ['error'], which the platform emits among others
    for a write after end. *)
Inductive Event :=
  | OnConnection (myUUID : string) (now connections dateNow : Z)
  | OnData (myUUID : string) (buffer : Buffer)
  | OnEnd (myUUID : string)
  | OnTimeout (myUUID : string)
  | OnError (myUUID : string)
  | OnTimer (i : nat)
  | OnSignal.

(** The handler registered for ['uncaughtException'] calls [shutdown]. *)
Definition settle (c : Completion) : World :=
  match c with
  | Normal w => w
  | Throw w => shutdown w
  end.

Definition runTimer (i : nat) (w : World) : World :=
  match timers w !! i with
  | None => w
  | Some t =>
      let w := set_timers (delete i (timers w)) w in
      match t with
      | TimerEmpty u => checkStackEmpty u w
      | TimerFull u combinedPayload => checkStackFull u combinedPayload w
      end
  end.

(** One turn of the event loop.  A connection is accepted only while the
    server listens, and [uuidv4()] returns an identifier not in use; the
    callback of [getConnections] runs on the next tick, that is after
    the body of the connection callback and before any other event.
    Socket events exist only for accepted connections. *)
Definition step (e : Event) (w : World) : World :=
  match e with
  | OnConnection u now connections dateNow =>
      if listening w && bool_decide (conns w !! u = None)
      then settle (getConnectionsCallback u connections dateNow
                     (connectionListener u now w))
      else w
  | OnData u buffer =>
      if bool_decide (conns w !! u = None) then w else settle (onData u buffer w)
  | OnEnd u =>
      if bool_decide (conns w !! u = None) then w else onEnd u w
  | OnTimeout u =>
      if bool_decide (conns w !! u = None) then w else onTimeout u w
  | OnError u =>
      if bool_decide (conns w !! u = None) then w else onError u w
  | OnTimer i => runTimer i w
  | OnSignal => shutdown w
  end.

Fixpoint run (evs : list Event) (w : World) : World :=
  match evs with
  | [] => w
  | e :: evs => run evs (step e w)
  end.

(** ** The server on the wire *)

(** What reaches the process: a chunk read from the socket of a
    connection, or any other event of the loop. *)
Inductive Arrival :=
  | Chunk (myUUID : string) (chunk : Buffer)
  | Loop (e : Event).

(** A chunk goes through the decoder of the socket, and the ['data']
    handler runs on what comes out of it.  [None]: the chunk is one the
    model of the decoder leaves out. *)
Definition arrive (a : Arrival) (w : World) : option World :=
  match a with
  | Chunk myUUID chunk =>
      match delivered chunk with
      | Some buffer => Some (step (OnData myUUID buffer) w)
      | None => None
      end
  | Loop e => Some (step e w)
  end.

Fixpoint serve (arrivals : list Arrival) (w : World) : option World :=
  match arrivals with
  | [] => Some w
  | a :: arrivals =>
      match arrive a w with
      | Some w => serve arrivals w
      | None => None
      end
  end.

End Server.

(** ** The diagnostic server *)

(** The object the diagnostic server writes (as JSON) to a client. *)
Module Diagnostic.
Record t := mk {
  appServerConnections : Z;
  LIFOStackSize : Z;
  gConnectionsMade : Z
}.
End Diagnostic.

(** The local variable [diagnosticInformation] of the callback of the
    diagnostic server; [connections] is the value of
    [appServer.connections]. *)
Definition diagnosticInformation (connections : Z) (w : World) : Diagnostic.t :=
  Diagnostic.mk connections (Z.of_nat (length (gLIFO w))) (gConnectionsMade w).

(** * Vocabulary of the properties *)

(** The response [checkStackEmpty] builds for a payload: the header byte
    followed by the payload. *)
Definition popResponse (payload : Buffer) : Buffer :=
  Z.land (Z.of_nat (length payload)) 0x7F :: payload.

(** [silent w w']: going from [w] to [w'] touched neither the halt flag,
    the server, the stack nor what any client was sent, and dropped no
    connection. *)
Definition silent (w w' : World) : Prop :=
  gKillMe w' = gKillMe w /\ listening w' = listening w /\
  gLIFO w' = gLIFO w /\ (forall v, sent v w' = sent v w) /\
  (forall v, conns w' !! v = None -> conns w !! v = None).

(** The four things a turn of the event loop can do: nothing visible, the
  refusal of a new connection with the busy byte, one completed push,
  one completed pop. *)
Inductive Effect (config : Config) (w w' : World) : Prop :=
| Quiet :
    gLIFO w' = gLIFO w ->
    (forall v, sent v w' = sent v w) ->
    Effect config w w'
| Refused (u : string) :
    gLIFO w' = gLIFO w ->
    conns w !! u = None ->
    listening w = true ->
    sent u w' = sent u w ++ [[0xFF]] ->
    (forall v, v <> u -> sent v w' = sent v w) ->
    Effect config w w'
| Pushed (u : string) (p : Buffer) :
    gKillMe w = false ->
    Z.of_nat (length (gLIFO w)) < maxStackSize config ->
    gLIFO w' = gLIFO w ++ [p] ->
    sent u w' = sent u w ++ [[0]] ->
    (forall v, v <> u -> sent v w' = sent v w) ->
    Effect config w w'
| Popped (u : string) (p : Buffer) :
    gKillMe w = false ->
    gLIFO w = gLIFO w' ++ [p] ->
    sent u w' = sent u w ++ [popResponse p] ->
    (forall v, v <> u -> sent v w' = sent v w) ->
    Effect config w w'.

(** [inert w w']: [w'] differs from [w] at most in [history] and in
    closure variables other than [exitLoop]; no socket call was made. *)
Definition inert (w w' : World) : Prop :=
  gKillMe w' = gKillMe w /\ listening w' = listening w /\
  gLIFO w' = gLIFO w /\ gClients w' = gClients w /\
  timers w' = timers w /\
  (forall v, endCalls (conn v w') = endCalls (conn v w)) /\
  (forall v, exitLoop (conn v w') = exitLoop (conn v w)) /\
  (forall v, conns w' !! v = None -> conns w !! v = None).

(** [flags_kept w w']: same halt flag, same server state, and every
    connection of [w] is still one of [w']. *)
Definition flags_kept (w w' : World) : Prop :=
  gKillMe w' = gKillMe w /\ listening w' = listening w /\
  (forall v, conns w' !! v = None -> conns w !! v = None).

(** [flags_mono w w']: a raised halt flag stays raised, a closed server
    stays closed, and every connection of [w] is still one of [w']. *)
Definition flags_mono (w w' : World) : Prop :=
  (gKillMe w = true -> gKillMe w' = true) /\
  (listening w = false -> listening w' = false) /\
  (forall v, conns w' !! v = None -> conns w !! v = None).

(** Connection [u] has its record in the registry and is not scheduled
    for termination. *)
Definition registered (u : string) (w : World) : Prop :=
  exists r, Obj.get u (gClients w) = Some r /\ Client.disconnect r = false.

(** The closure variables of a connection in the middle of a push of
    declared length [L], after the chunks [acc]. *)
Definition pushing_conn (L : Z) (acc : list Buffer) : Conn :=
  {| state := Push; payloadBytesRead := Z.of_nat (length (concat acc));
     payloadLength := L; payloadList := acc; exitLoop := false; endCalls := [] |}.

(** The same once the declared length is reached. *)
Definition done_conn (L : Z) (acc : list Buffer) (e : list (option Buffer)) : Conn :=
  {| state := Done; payloadBytesRead := Z.of_nat (length (concat acc));
     payloadLength := L; payloadList := acc; exitLoop := false; endCalls := e |}.

(** Connection [u] was accepted, is registered, and nothing was received
    from it or sent to it yet. *)
Definition ready (u : string) (w : World) : Prop :=
  conns w !! u = Some conn_init /\ registered u w.

(** [frame_but u w w']: outside the stack, the history and the closure of
    [u], nothing differs between [w] and [w']. *)
Definition frame_but (u : string) (w w' : World) : Prop :=
  gKillMe w' = gKillMe w /\ listening w' = listening w /\
  gClients w' = gClients w /\ timers w' = timers w /\
  forall v, v <> u -> conns w' !! v = conns w !! v.

(** The same for a list of connections. *)
Definition frame_out (us : list string) (w w' : World) : Prop :=
  gKillMe w' = gKillMe w /\ listening w' = listening w /\
  gClients w' = gClients w /\ timers w' = timers w /\
  forall v, v ∉ us -> conns w' !! v = conns w !! v.

(** The bytes of a push request for payload [p] (at most 127 bytes), and
    of a pop request. *)
Definition pushRequest (p : Buffer) : Buffer := Z.of_nat (length p) :: p.

Definition popRequest : Buffer := [0x80].

(** The closure variables after a first delivery [h :: rest] that holds
    the whole payload. *)
Definition whole_conn (h : Z) (rest : Buffer) (e : list (option Buffer)) : Conn :=
  {| state := Done; payloadBytesRead := Z.of_nat (length rest);
     payloadLength := Z.land h 0x7F;
     payloadList := [take (Z.to_nat (Z.land h 0x7F)) rest];
     exitLoop := false; endCalls := e |}.

(** The closure variables after a pop answered with payload [p]. *)
Definition popped_conn (p : Buffer) : Conn :=
  {| state := Pop; payloadBytesRead := 0; payloadLength := 0;
     payloadList := []; exitLoop := false;
     endCalls := [Some (popResponse p)] |}.

(** The first element of [l] with the least value of [f]. *)
Fixpoint earliest {A} (f : A -> Z) (l : list A) : option A :=
  match l with
  | [] => None
  | x :: r =>
      match earliest f r with
      | None => Some x
      | Some y => if f x <=? f y then Some x else Some y
      end
  end.

(** The age, in seconds, [disconnectOldClient] computes for a record. *)
Definition elapsedTimeSeconds (dateNow : Z) (r : Client.t) : Q :=
  (inject_Z (dateNow - Client.timestamp r) / 1000)%Q.

(** The record [r] after [gClients[uuid].disconnect = true]. *)
Definition marked (r : Client.t) : Client.t :=
  Client.mk (Client.timestamp r) (Client.client r) (Client.counter r) true.

(** The connection a pending retry belongs to. *)
Definition timer_uuid (t : Timer) : string :=
  match t with
  | TimerEmpty u => u
  | TimerFull u _ => u
  end.

(** [benign w w']: what a handler of an accepted connection may do. *)
Record benign (w w' : World) : Prop := {
  benign_history :
    exists m, history w' = history w ++ m /\
      Forall (fun a => exists u, a = DataHandled u /\ conns w !! u <> None) m;
  benign_conns :
    forall v, conns w' !! v = None <-> conns w !! v = None;
  benign_registry :
    forall k r, Obj.get k (gClients w') = Some r ->
      exists r0, Obj.get k (gClients w) = Some r0
                 /\ Client.client r0 = Client.client r;
  benign_timers :
    forall t, t ∈ timers w' -> t ∈ timers w \/ conns w !! timer_uuid t <> None
}.

(** No turn of the event loop run by [evs] from [w] takes a payload off the
    stack. *)
Fixpoint no_pop (config : Config) (evs : list Event) (w : World) : Prop :=
  match evs with
  | [] => True
  | e :: evs =>
      (length (gLIFO w) <= length (gLIFO (step config e w)))%nat
      /\ no_pop config evs (step config e w)
  end.

(** ** Concrete configurations and worlds for the examples *)

(** A stack of capacity two behind a server that accepts eight clients. *)
Definition config_small : Config :=
  {| maxConnections := 8; maxStackSize := 2;
     staleConnectionPeriodSeconds := 10%Q |}.

(** Four clients ["a"], ["b"], ["c"], ["d"] accepted, nothing received. *)
Definition world_four : World :=
  run config_small [OnConnection "a" 1000 1 1000; OnConnection "b" 1001 2 1001;
            OnConnection "c" 1002 3 1002; OnConnection "d" 1003 4 1003]
    world_init.

(** A server that accepts two clients and calls a connection stale after
    ten seconds. *)
Definition config_two : Config :=
  {| maxConnections := 2; maxStackSize := 4;
     staleConnectionPeriodSeconds := 10%Q |}.

(** Two clients accepted, ["a"] at time 1000 ms and ["b"] at 5000 ms. *)
Definition world_two : World :=
  run config_two [OnConnection "a" 1000 1 1000; OnConnection "b" 5000 2 5000]
    world_init.

(** A server whose [maxConnections] is zero and whose stale period is zero. *)
Definition config_zero : Config :=
  {| maxConnections := 0; maxStackSize := 4;
     staleConnectionPeriodSeconds := 0%Q |}.

(** ** Vocabulary of the further properties *)

(** [steady w w']: the count of connections made, the registry and every
    [exitLoop] are the same in [w'] as in [w]. *)
Definition steady (w w' : World) : Prop :=
  gConnectionsMade w' = gConnectionsMade w /\ gClients w' = gClients w /\
  (forall v, exitLoop (conn v w') = exitLoop (conn v w)).

(** The closure variables of a connection whose pop request waits for a
    payload. *)
Definition waiting_conn : Conn := set_state Pop conn_init.

(** The three buffers the server ever writes to a client: the busy byte,
    the acknowledgement of a push, the response to a pop. *)
Definition response_form (b : Buffer) : Prop :=
  b = [0xFF] \/ b = [0] \/ exists p, b = popResponse p.

(** The event of a connection that closes, times out or fails. *)
Definition closes (u : string) (e : Event) : Prop :=
  e = OnEnd u \/ e = OnTimeout u \/ e = OnError u.

(** [registry_ok w]: every record of the registry sits under the uuid of
    the connection whose socket it holds, that connection was accepted,
    its counter is one of [1 .. gConnectionsMade] and is the counter of no
    other record; the pending retries belong to accepted connections; and
    [gConnectionsMade] is the number of connections accepted. *)
Record registry_ok (w : World) : Prop := {
  records_named :
    forall k r, Obj.get k (gClients w) = Some r -> Client.client r = k;
  records_known :
    forall k r, Obj.get k (gClients w) = Some r -> conns w !! k <> None;
  records_counted :
    forall k r, Obj.get k (gClients w) = Some r ->
                1 <= Client.counter r <= gConnectionsMade w;
  records_distinct :
    forall k k' r r',
      Obj.get k (gClients w) = Some r -> Obj.get k' (gClients w) = Some r' ->
      Client.counter r = Client.counter r' -> k = k';
  retries_known :
    forall t, t ∈ timers w -> conns w !! timer_uuid t <> None;
  connections_counted :
    gConnectionsMade w = Z.of_nat (size (conns w))
}.

(** [retry_ok w t]: the pending retry [t] belongs to a connection whose
    request it is: a pop for [checkStackEmpty], a completed push for
    [checkStackFull], whose payload is then what the connection
    collected; or to a connection that was scheduled for termination
    since. *)
Definition retry_ok (w : World) (t : Timer) : Prop :=
  match t with
  | TimerEmpty u =>
      state (conn u w) = Pop \/ state (conn u w) = Disconnect
  | TimerFull u combinedPayload =>
      (state (conn u w) = Done \/ state (conn u w) = Disconnect) /\
      combinedPayload = Buffer_concat (payloadList (conn u w))
  end.

(** Every pending retry of [w] is as [retry_ok] says. *)
Definition retries_ok (w : World) : Prop :=
  forall t, t ∈ timers w -> retry_ok w t.

(** [same_requests w w']: no connection changed its [state] or its
    [payloadList]. *)
Definition same_requests (w w' : World) : Prop :=
  forall v, state (conn v w') = state (conn v w) /\
            payloadList (conn v w') = payloadList (conn v w).

(** ** Further worlds for the examples *)

(** A full stack, with ["c"] and ["d"] still to send their request. *)
Definition world_full : World :=
  run config_small [OnData "a" [2; 65; 66]; OnData "b" [2; 67; 68]] world_four.

(** A full stack behind which the push of ["c"] waits. *)
Definition world_waiting : World :=
  run config_small [OnData "a" [2; 65; 66]; OnData "b" [2; 67; 68];
                    OnData "c" [1; 69]] world_four.


(** A world in which connection ["a"] was evicted to make room for
    ["c"]. *)
Definition world_evicted : World :=
  step config_two (OnConnection "c" 20000 3 20000) world_two.

(** * Properties *)

(** ** Buffers and bit masks *)

Lemma land_0x7F_range (a : Z) : 0 <= Z.land a 0x7F < 128.
Proof.
  change 0x7F with (Z.ones 7). rewrite Z.land_ones by lia.
  apply Z.mod_pos_bound. lia.
Qed.

Lemma land_0x7F_small (a : Z) : 0 <= a < 128 -> Z.land a 0x7F = a.
Proof.
  intros Ha. change 0x7F with (Z.ones 7). rewrite Z.land_ones by lia.
  apply Z.mod_small. exact Ha.
Qed.

Lemma land_0x7F_bit7 (a : Z) : Z.testbit (Z.land a 0x7F) 7 = false.
Proof. rewrite Z.land_spec. apply andb_false_r. Qed.

Lemma land_0x80_small (a : Z) : 0 <= a < 128 -> Z.land a 0x80 = 0.
Proof.
  intros Ha. rewrite <- (land_0x7F_small a Ha), <- Z.land_assoc.
  apply Z.land_0_r.
Qed.

Lemma sendBuffer_popResponse (payload : Buffer) :
  let len := Z.of_nat (length payload) in
  Buffer_copy payload
    (Buffer_set 0 (Z.land len 0x7F) (Buffer_alloc (len + 1) 0)) 1
  = popResponse payload.
Proof.
  intros len. unfold Buffer_alloc, Buffer_set, Buffer_copy, popResponse.
  replace (Z.to_nat (len + 1)) with (S (length payload)) by (unfold len; lia).
  cbn [replicate]. cbn [insert list_insert].
  rewrite Z.mod_small by (pose proof (land_0x7F_range len); lia).
  cbn [take length]. rewrite length_replicate.
  replace (S (length payload) - 1)%nat with (length payload) by lia.
  rewrite firstn_all. cbn [Nat.add drop].
  rewrite drop_ge by (rewrite length_replicate; lia).
  fold len. now rewrite app_nil_r.
Qed.

Lemma Buffer_alloc_one (v : Z) : Buffer_alloc 1 v = [v].
Proof. reflexivity. Qed.

(** ** The decoder of the socket *)

Lemma decoded_byte_ascii (b : Z) : 0 <= b < 128 -> decoded_byte b = Some b.
Proof.
  intros H. unfold decoded_byte.
  destruct (Z.leb_spec 0 b); [|lia]. destruct (Z.ltb_spec b 128); [|lia].
  reflexivity.
Qed.

Lemma StringDecoder_write_ascii (chunk : Buffer) :
  Forall (fun b => 0 <= b < 128) chunk ->
  StringDecoder_write chunk = Some chunk.
Proof.
  unfold StringDecoder_write.
  induction 1 as [|b l Hb Hl IH]; [reflexivity|].
  cbn. rewrite (decoded_byte_ascii b Hb). cbn. now rewrite IH.
Qed.

Lemma Buffer_from_ascii (data : list Z) :
  Forall (fun b => 0 <= b < 128) data -> Buffer_from data = data.
Proof.
  unfold Buffer_from.
  induction 1 as [|b l Hb Hl IH]; [reflexivity|].
  cbn [map concat]. rewrite IH. unfold utf8_encode.
  destruct (Z.ltb_spec b 128); [reflexivity | lia].
Qed.

(** A chunk of ASCII bytes reaches the handler as it is. *)
Lemma delivered_ascii (chunk : Buffer) :
  Forall (fun b => 0 <= b < 128) chunk -> delivered chunk = Some chunk.
Proof.
  intros H. unfold delivered.
  now rewrite StringDecoder_write_ascii, Buffer_from_ascii.
Qed.

(** ** Objects *)

Lemma Obj_get_set {V} (k k' : string) (v : V) (o : Obj.t V) :
  Obj.get k' (Obj.set k v o) = if decide (k' = k) then Some v else Obj.get k' o.
Proof.
  induction o as [|[k0 v0] o IH]; cbn [Obj.set Obj.get].
  - reflexivity.
  - destruct (decide (k = k0)) as [->|Hk]; cbn [Obj.get].
    + destruct (decide (k' = k0)); reflexivity.
    + rewrite IH. destruct (decide (k' = k0)) as [->|]; [|reflexivity].
      destruct (decide (k0 = k)); congruence.
Qed.

Lemma Obj_get_delete {V} (k k' : string) (o : Obj.t V) :
  Obj.get k' (Obj.delete k o) = if decide (k' = k) then None else Obj.get k' o.
Proof.
  induction o as [|[k0 v0] o IH]; cbn [Obj.delete Obj.get].
  - destruct (decide (k' = k)); reflexivity.
  - destruct (decide (k = k0)) as [->|Hk]; cbn [Obj.get].
    + rewrite IH. destruct (decide (k' = k0)); reflexivity.
    + rewrite IH. destruct (decide (k' = k0)) as [->|]; [|reflexivity].
      destruct (decide (k0 = k)); congruence.
Qed.

Lemma Obj_get_keys {V} (k : string) (o : Obj.t V) :
  k ∈ Obj.keys o <-> is_Some (Obj.get k o).
Proof.
  unfold Obj.keys. induction o as [|[k0 v0] o IH]; cbn [map fst Obj.get].
  - split; [intros H; inversion H | intros [? H]; discriminate].
  - rewrite elem_of_cons, IH. destruct (decide (k = k0)); split; eauto.
    intros [|]; [contradiction | assumption].
Qed.


(** ** Closure variables and sockets after an update *)

Lemma conn_update_conn (u v : string) (f : Conn -> Conn) (w : World) :
  conn v (update_conn u f w) = if decide (u = v) then f (conn u w) else conn v w.
Proof. unfold conn, update_conn. cbn. apply lookup_total_insert. Qed.

Lemma conn_update_conn_eq (u : string) (f : Conn -> Conn) (w : World) :
  conn u (update_conn u f w) = f (conn u w).
Proof. rewrite conn_update_conn. destruct (decide (u = u)); congruence. Qed.

Lemma conn_update_conn_ne (u v : string) (f : Conn -> Conn) (w : World) :
  u <> v -> conn v (update_conn u f w) = conn v w.
Proof. intros H. rewrite conn_update_conn. destruct (decide (u = v)); congruence. Qed.

Lemma sent_update_conn (u v : string) (f : Conn -> Conn) (w : World) :
  (forall c, endCalls (f c) = endCalls c) ->
  sent v (update_conn u f w) = sent v w.
Proof.
  intros Hf. unfold sent. rewrite conn_update_conn.
  destruct (decide (u = v)) as [->|]; [now rewrite Hf | reflexivity].
Qed.

Lemma sent_client_end_eq (u : string) (b : Buffer) (w : World) :
  sent u (client_end u (Some b) w) = sent u w ++ [b].
Proof.
  unfold sent, client_end. rewrite conn_update_conn_eq. cbn [endCalls set_endCalls].
  now rewrite omap_app.
Qed.

Lemma sent_client_end_ne (u v : string) (d : option Buffer) (w : World) :
  u <> v -> sent v (client_end u d w) = sent v w.
Proof. intros H. unfold sent, client_end. now rewrite conn_update_conn_ne. Qed.

Lemma sent_client_end_None (u v : string) (w : World) :
  sent v (client_end u None w) = sent v w.
Proof.
  destruct (decide (u = v)) as [->|H]; [|now apply sent_client_end_ne].
  unfold sent, client_end. rewrite conn_update_conn_eq. cbn [endCalls set_endCalls].
  rewrite omap_app. cbn. now rewrite app_nil_r.
Qed.

(** ** What one callback can do to the stack and to the sockets *)

Lemma silent_refl (w : World) : silent w w.
Proof. repeat split; auto. Qed.

Lemma silent_trans (w1 w2 w3 : World) :
  silent w1 w2 -> silent w2 w3 -> silent w1 w3.
Proof.
  intros (A1 & A2 & A3 & A4 & A5) (B1 & B2 & B3 & B4 & B5).
  split; [congruence|]. split; [congruence|]. split; [congruence|].
  split; [intros v; rewrite B4; apply A4 | auto].
Qed.

Lemma silent_mark (a : Action) (w : World) : silent w (mark a w).
Proof. repeat split; auto. Qed.

Lemma silent_set_timers (t : list Timer) (w : World) : silent w (set_timers t w).
Proof. repeat split; auto. Qed.

Lemma silent_set_gClients (g : Obj.t Client.t) (w : World) :
  silent w (set_gClients g w).
Proof. repeat split; auto. Qed.

Lemma silent_set_gConnectionsMade (n : Z) (w : World) :
  silent w (set_gConnectionsMade n w).
Proof. repeat split; auto. Qed.

Lemma conns_update_conn_None (u v : string) (f : Conn -> Conn) (w : World) :
  conns (update_conn u f w) !! v = None -> conns w !! v = None.
Proof.
  unfold update_conn. cbn. intros H.
  destruct (decide (u = v)) as [->|Hne].
  - rewrite lookup_insert_eq in H. discriminate.
  - now rewrite lookup_insert_ne in H.
Qed.

Lemma silent_update_conn (u : string) (f : Conn -> Conn) (w : World) :
  (forall c, endCalls (f c) = endCalls c) -> silent w (update_conn u f w).
Proof.
  intros Hf. repeat split; auto.
  - intros v. now apply sent_update_conn.
  - intros v. apply conns_update_conn_None.
Qed.

Lemma silent_client_end_None (u : string) (w : World) :
  silent w (client_end u None w).
Proof.
  repeat split; auto.
  - intros v. apply sent_client_end_None.
  - intros v. apply conns_update_conn_None.
Qed.

Lemma conn_fresh (u : string) (w : World) :
  conns w !! u = None -> conn u w = conn_init.
Proof. intros H. unfold conn. rewrite lookup_total_alt, H. reflexivity. Qed.

Lemma silent_new_conn (u : string) (w : World) :
  conns w !! u = None ->
  silent w (set_conns (<[u := conn_init]> (conns w)) w).
Proof.
  intros Hu. repeat split; auto.
  - intros v. unfold sent, conn. cbn.
    destruct (decide (u = v)) as [->|Hne].
    + rewrite lookup_total_insert_eq, lookup_total_alt, Hu. reflexivity.
    + now rewrite lookup_total_insert_ne.
  - cbn. intros v H. destruct (decide (u = v)) as [->|Hne].
    + rewrite lookup_insert_eq in H. discriminate.
    + now rewrite lookup_insert_ne in H.
Qed.

Section Effects.

Variable config : Config.

Lemma Effect_silent (w w' : World) : silent w w' -> Effect config w w'.
Proof. intros (_ & _ & H3 & H4 & _). now apply Quiet. Qed.

Lemma Effect_pre (w0 w w' : World) :
  silent w0 w -> Effect config w w' -> Effect config w0 w'.
Proof.
  intros (A1 & A2 & A3 & A4 & A5) [H1 H2|u H1 H2 H3 H4 H5|u p H1 H2 H3 H4 H5|u p H1 H2 H3 H4].
  - apply Quiet; [congruence|]. intros v. rewrite H2. apply A4.
  - apply (Refused _ _ _ u).
    + congruence.
    + auto.
    + congruence.
    + rewrite H4, A4. reflexivity.
    + intros v Hv. rewrite H5 by assumption. apply A4.
  - apply (Pushed _ _ _ u p).
    + congruence.
    + congruence.
    + congruence.
    + rewrite H4, A4. reflexivity.
    + intros v Hv. rewrite H5 by assumption. apply A4.
  - apply (Popped _ _ _ u p).
    + congruence.
    + congruence.
    + rewrite H3, A4. reflexivity.
    + intros v Hv. rewrite H4 by assumption. apply A4.
Qed.

Lemma checkStackEmpty_cases (u : string) (w : World) :
  (checkStackEmpty u w = w /\ (gKillMe w || exitLoop (conn u w)) = true)
  \/ (checkStackEmpty u w = setTimeout (TimerEmpty u) w
      /\ gKillMe w = false /\ exitLoop (conn u w) = false /\ gLIFO w = [])
  \/ (exists rest payload,
        gLIFO w = rest ++ [payload] /\
        gKillMe w = false /\ exitLoop (conn u w) = false /\
        checkStackEmpty u w
        = client_end u (Some (popResponse payload)) (set_gLIFO rest w)).
Proof.
  unfold checkStackEmpty.
  destruct (gKillMe w || exitLoop (conn u w)) eqn:Hk; [left; auto|].
  apply orb_false_elim in Hk as [Hk He].
  destruct (gLIFO w) as [|x l] eqn:Hl using rev_ind.
  - right; left. cbn. auto.
  - right; right. exists l, x. clear IHl.
    rewrite last_snoc, removelast_last, length_app. cbn [length].
    replace (Z.of_nat (length l + 1) =? 0) with false
      by (symmetry; apply Z.eqb_neq; lia).
    cbn [negb]. rewrite sendBuffer_popResponse. auto.
Qed.

Lemma checkStackFull_cases (u : string) (p : Buffer) (w : World) :
  (checkStackFull config u p w = w /\ (gKillMe w || exitLoop (conn u w)) = true)
  \/ (checkStackFull config u p w = setTimeout (TimerFull u p) w
      /\ gKillMe w = false /\ exitLoop (conn u w) = false
      /\ maxStackSize config <= Z.of_nat (length (gLIFO w)))
  \/ (gKillMe w = false /\ exitLoop (conn u w) = false /\
      Z.of_nat (length (gLIFO w)) < maxStackSize config /\
      checkStackFull config u p w
      = client_end u (Some [0]) (set_gLIFO (gLIFO w ++ [p]) w)).
Proof.
  unfold checkStackFull.
  destruct (gKillMe w || exitLoop (conn u w)) eqn:Hk; [left; auto|].
  apply orb_false_elim in Hk as [Hk He].
  destruct (Z.ltb_spec (Z.of_nat (length (gLIFO w))) (maxStackSize config)).
  - right; right. auto.
  - right; left. auto.
Qed.

Lemma checkStackEmpty_effect (u : string) (w : World) :
  Effect config w (checkStackEmpty u w).
Proof.
  destruct (checkStackEmpty_cases u w)
    as [[-> _]|[[-> _]|(rest & payload & Hl & Hk & _ & ->)]].
  - apply Effect_silent, silent_refl.
  - apply Effect_silent, silent_set_timers.
  - apply (Popped _ _ _ u payload); auto.
    + rewrite sent_client_end_eq. reflexivity.
    + intros v Hv. rewrite sent_client_end_ne by congruence. reflexivity.
Qed.

Lemma checkStackFull_effect (u : string) (p : Buffer) (w : World) :
  Effect config w (checkStackFull config u p w).
Proof.
  destruct (checkStackFull_cases u p w)
    as [[-> _]|[[-> _]|(Hk & _ & Hlt & ->)]].
  - apply Effect_silent, silent_refl.
  - apply Effect_silent, silent_set_timers.
  - apply (Pushed _ _ _ u p); auto.
    + rewrite sent_client_end_eq. reflexivity.
    + intros v Hv. rewrite sent_client_end_ne by congruence. reflexivity.
Qed.

End Effects.

(** ** Frame properties of the two retry functions *)

Lemma conn_client_end (u v : string) (d : option Buffer) (w : World) :
  conn v (client_end u d w)
  = if decide (u = v) then set_endCalls (endCalls (conn u w) ++ [d]) (conn u w)
    else conn v w.
Proof. unfold client_end. now rewrite conn_update_conn. Qed.

Lemma state_client_end (u v : string) (d : option Buffer) (w : World) :
  state (conn v (client_end u d w)) = state (conn v w).
Proof.
  rewrite conn_client_end. destruct (decide (u = v)) as [->|]; reflexivity.
Qed.

Lemma exitLoop_client_end (u v : string) (d : option Buffer) (w : World) :
  exitLoop (conn v (client_end u d w)) = exitLoop (conn v w).
Proof.
  rewrite conn_client_end. destruct (decide (u = v)) as [->|]; reflexivity.
Qed.

Section Frames.

Variable config : Config.

Lemma state_checkStackEmpty (u v : string) (w : World) :
  state (conn v (checkStackEmpty u w)) = state (conn v w).
Proof.
  destruct (checkStackEmpty_cases u w)
    as [[-> _]|[[-> _]|(rest & payload & _ & _ & _ & ->)]];
    [reflexivity | reflexivity |].
  now rewrite state_client_end.
Qed.

Lemma state_checkStackFull (u v : string) (p : Buffer) (w : World) :
  state (conn v (checkStackFull config u p w)) = state (conn v w).
Proof.
  destruct (checkStackFull_cases config u p w)
    as [[-> _]|[[-> _]|(_ & _ & _ & ->)]];
    [reflexivity | reflexivity |].
  now rewrite state_client_end.
Qed.

End Frames.

(** ** What the handlers leave alone *)

Lemma inert_refl (w : World) : inert w w.
Proof. repeat split; auto. Qed.

Lemma inert_trans (w1 w2 w3 : World) :
  inert w1 w2 -> inert w2 w3 -> inert w1 w3.
Proof.
  intros (A1 & A2 & A3 & A4 & A5 & A6 & A7 & A8)
         (B1 & B2 & B3 & B4 & B5 & B6 & B7 & B8).
  split; [congruence|]. split; [congruence|]. split; [congruence|].
  split; [congruence|]. split; [congruence|].
  split; [intros v; rewrite B6; apply A6|].
  split; [intros v; rewrite B7; apply A7|auto].
Qed.

Lemma inert_mark (a : Action) (w : World) : inert w (mark a w).
Proof. repeat split; auto. Qed.

Lemma inert_update_conn (u : string) (f : Conn -> Conn) (w : World) :
  (forall c, endCalls (f c) = endCalls c) ->
  (forall c, exitLoop (f c) = exitLoop c) ->
  inert w (update_conn u f w).
Proof.
  intros Hf Hg. unfold inert. cbn.
  repeat (split; [reflexivity|]).
  split; [|split].
  - intros v. rewrite conn_update_conn.
    destruct (decide (u = v)) as [->|]; [apply Hf | reflexivity].
  - intros v. rewrite conn_update_conn.
    destruct (decide (u = v)) as [->|]; [apply Hg | reflexivity].
  - intros v. apply conns_update_conn_None.
Qed.

Lemma inert_silent (w w' : World) : inert w w' -> silent w w'.
Proof.
  intros (A1 & A2 & A3 & A4 & A5 & A6 & A7 & A8).
  repeat (split; [assumption|]). split; [|assumption].
  intros v. unfold sent. now rewrite A6.
Qed.

Section Decompose.

Variable config : Config.

(** The data handler, seen from outside: it throws, or returns, or ends
    with the first call of one of the two retry functions; before that
    it only moved its own closure variables. *)
Lemma onData_decompose (u : string) (b : Buffer) (w : World) :
  exists w1, inert w w1 /\
    (onData config u b w = Throw w1
     \/ onData config u b w = Normal w1
     \/ (onData config u b w = Normal (checkStackEmpty u w1)
         /\ state (conn u w1) = Pop)
     \/ (exists p, onData config u b w = Normal (checkStackFull config u p w1)
         /\ state (conn u w1) = Done)).
Proof.
  unfold onData.
  destruct (Obj.get u (gClients (mark (DataHandled u) w))) as [r|];
    [|exists (mark (DataHandled u) w); split; [apply inert_mark | auto]].
  match goal with
  | |- context [if Client.disconnect r then ?a else ?b] =>
      assert (S1 : inert w (if Client.disconnect r then a else b));
      [ destruct (Client.disconnect r);
        [ eapply inert_trans;
          [apply inert_mark | now apply inert_update_conn]
        | apply inert_mark ]
      | generalize dependent (if Client.disconnect r then a else b) ]
  end.
  intros w1 S1. cbv zeta. unfold onDataState.
  destruct (bool_decide (state (conn u w1) = Start)
            && negb (Buffer_and b 0 128 =? 0)).
  - exists (update_conn u (set_state Pop) w1). split.
    + eapply inert_trans; [exact S1 | now apply inert_update_conn].
    + right; right; left. unfold onDataDone.
      rewrite bool_decide_eq_false_2.
      * split; [reflexivity | now rewrite conn_update_conn_eq].
      * rewrite state_checkStackEmpty, conn_update_conn_eq. discriminate.
  - match goal with
    | |- context [onDataDone config u ?x] =>
        assert (S2 : inert w x);
        [ eapply inert_trans; [exact S1|];
          repeat (match goal with
                  | |- inert _ (if ?c then _ else _) => destruct c
                  end); try apply inert_refl;
          apply inert_update_conn; intros c;
          unfold pushContinue, pushStart; cbv zeta;
          repeat (match goal with
                  | |- context [if ?c then _ else _] => destruct c
                  end); reflexivity
        | generalize dependent x ]
    end.
    intros w2 S2. exists w2. split; [exact S2|]. unfold onDataDone.
    destruct (bool_decide (state (conn u w2) = Done)) eqn:Hd.
    + right; right; right. eexists. split; [reflexivity|].
      now apply bool_decide_eq_true_1 in Hd.
    + right; left. reflexivity.
Qed.

End Decompose.

(** ** The effect of each handler *)

Section HandlerEffects.

Variable config : Config.

Lemma onData_effect (u : string) (b : Buffer) (w : World) :
  Effect config w (settle (onData config u b w)).
Proof.
  destruct (onData_decompose config u b w)
    as (w1 & Hi & [->|[->|[[-> _]|(p & -> & _)]]]); cbn [settle];
    apply inert_silent in Hi.
  - eapply Effect_pre; [exact Hi | apply Quiet; reflexivity].
  - now apply Effect_silent.
  - eapply Effect_pre; [exact Hi | apply checkStackEmpty_effect].
  - eapply Effect_pre; [exact Hi | apply checkStackFull_effect].
Qed.

Lemma getConnectionsCallback_effect (u : string) (n t : Z) (w0 w : World) :
  silent w0 w -> conns w0 !! u = None -> listening w0 = true ->
  Effect config w0 (settle (getConnectionsCallback config u n t w)).
Proof.
  intros Hs Hu Hl. unfold getConnectionsCallback.
  destruct (n >? maxConnections config);
    [|cbn [settle]; apply Effect_silent;
      eapply silent_trans; [exact Hs | apply silent_mark]].
  destruct (disconnectOldClient config t w) as [result|];
    [|cbn [settle]; apply Effect_pre with w; [exact Hs|];
      apply Quiet; reflexivity].
  destruct (Result.disconnect result).
  - destruct (Obj.get (Result.uuid result) (gClients w)) as [r|];
      [|cbn [settle]; apply Effect_pre with w; [exact Hs|];
        apply Quiet; reflexivity].
    cbn [settle]. apply Effect_silent.
    eapply silent_trans; [exact Hs|].
    eapply silent_trans; [apply silent_client_end_None|].
    eapply silent_trans; [apply silent_set_gClients | apply silent_mark].
  - cbn [settle]. destruct Hs as (A1 & A2 & A3 & A4 & A5).
    apply (Refused _ _ _ u); auto.
    + cbn. unfold sent at 1. unfold mark. cbn.
      change (omap id (endCalls (conn u
                (update_conn u (set_state Disconnect)
                   (client_end u (Some (Buffer_alloc 1 255)) w))))
              = sent u w0 ++ [[255]]).
      rewrite conn_update_conn_eq. cbn [set_state endCalls].
      change (sent u (client_end u (Some [255]) w) = sent u w0 ++ [[255]]).
      rewrite sent_client_end_eq, A4. reflexivity.
    + intros v Hv.
      change (sent v (update_conn u (set_state Disconnect)
                (client_end u (Some (Buffer_alloc 1 255)) w)) = sent v w0).
      rewrite sent_update_conn by reflexivity.
      rewrite sent_client_end_ne by congruence. apply A4.
Qed.

Lemma silent_connectionListener (u : string) (t : Z) (w : World) :
  conns w !! u = None -> silent w (connectionListener u t w).
Proof.
  intros Hu. unfold connectionListener.
  eapply silent_trans; [apply silent_set_gConnectionsMade|].
  eapply silent_trans; [apply silent_new_conn; exact Hu|].
  eapply silent_trans; [apply silent_set_gClients | apply silent_mark].
Qed.

Lemma silent_onEnd (u : string) (w : World) : silent w (onEnd u w).
Proof.
  unfold onEnd.
  eapply silent_trans; [|apply silent_set_gClients].
  apply (silent_update_conn u (set_exitLoop true)). reflexivity.
Qed.

Lemma runTimer_effect (i : nat) (w : World) :
  Effect config w (runTimer config i w).
Proof.
  unfold runTimer. destruct (timers w !! i) as [[u|u p]|].
  - eapply Effect_pre; [apply silent_set_timers | apply checkStackEmpty_effect].
  - eapply Effect_pre; [apply silent_set_timers | apply checkStackFull_effect].
  - apply Effect_silent, silent_refl.
Qed.

Theorem step_effect (e : Event) (w : World) :
  Effect config w (step config e w).
Proof.
  destruct e as [u t n t'|u b|u|u|u|i|]; cbn [step].
  - destruct (listening w) eqn:Hl; cbn [andb];
      [|apply Effect_silent, silent_refl].
    destruct (bool_decide (conns w !! u = None)) eqn:Hu;
      [|apply Effect_silent, silent_refl].
    apply bool_decide_eq_true_1 in Hu.
    apply getConnectionsCallback_effect; auto.
    now apply silent_connectionListener.
  - destruct (bool_decide (conns w !! u = None));
      [apply Effect_silent, silent_refl | apply onData_effect].
  - destruct (bool_decide (conns w !! u = None));
      apply Effect_silent; [apply silent_refl | apply silent_onEnd].
  - destruct (bool_decide (conns w !! u = None));
      apply Effect_silent; [apply silent_refl | apply silent_onEnd].
  - destruct (bool_decide (conns w !! u = None));
      apply Effect_silent; [apply silent_refl | apply silent_onEnd].
  - apply runTimer_effect.
  - apply Quiet; reflexivity.
Qed.

End HandlerEffects.

(** ** The halt flag and the server are never reopened *)

Lemma flags_kept_refl (w : World) : flags_kept w w.
Proof. repeat split; auto. Qed.

Lemma flags_kept_trans (w1 w2 w3 : World) :
  flags_kept w1 w2 -> flags_kept w2 w3 -> flags_kept w1 w3.
Proof.
  intros (A & B & C) (D & E & F).
  split; [congruence|]. split; [congruence|auto].
Qed.

Lemma flags_kept_mono (w w' : World) : flags_kept w w' -> flags_mono w w'.
Proof.
  intros (A & B & C). split; [congruence|]. split; [congruence|assumption].
Qed.

Lemma flags_mono_shutdown (w0 w : World) :
  flags_kept w0 w -> flags_mono w0 (shutdown w).
Proof. intros (_ & _ & C). split; [reflexivity|]. split; [reflexivity|exact C]. Qed.

Lemma inert_flags_kept (w w' : World) : inert w w' -> flags_kept w w'.
Proof.
  intros (A1 & A2 & _ & _ & _ & _ & _ & A8).
  split; [assumption|]. split; assumption.
Qed.

Lemma silent_flags_kept (w w' : World) : silent w w' -> flags_kept w w'.
Proof.
  intros (A1 & A2 & _ & _ & A5). split; [assumption|]. split; assumption.
Qed.

Lemma flags_kept_client_end (u : string) (d : option Buffer) (w : World) :
  flags_kept w (client_end u d w).
Proof.
  split; [reflexivity|]. split; [reflexivity|].
  intros v. apply conns_update_conn_None.
Qed.

Ltac flags_triv :=
  split; [reflexivity | split; [reflexivity | intros ? ?; assumption]].

Section Flags.

Variable config : Config.

Lemma flags_kept_checkStackEmpty (u : string) (w : World) :
  flags_kept w (checkStackEmpty u w).
Proof.
  destruct (checkStackEmpty_cases u w)
    as [[-> _]|[[-> _]|(rest & payload & _ & _ & _ & ->)]].
  - apply flags_kept_refl.
  - flags_triv.
  - apply (flags_kept_trans _ (set_gLIFO rest w));
      [flags_triv | apply flags_kept_client_end].
Qed.

Lemma flags_kept_checkStackFull (u : string) (p : Buffer) (w : World) :
  flags_kept w (checkStackFull config u p w).
Proof.
  destruct (checkStackFull_cases config u p w)
    as [[-> _]|[[-> _]|(_ & _ & _ & ->)]].
  - apply flags_kept_refl.
  - flags_triv.
  - apply (flags_kept_trans _ (set_gLIFO (gLIFO w ++ [p]) w));
      [flags_triv | apply flags_kept_client_end].
Qed.

Lemma flags_mono_onData (u : string) (b : Buffer) (w : World) :
  flags_mono w (settle (onData config u b w)).
Proof.
  destruct (onData_decompose config u b w)
    as (w1 & Hi & [->|[->|[[-> _]|(p & -> & _)]]]); cbn [settle];
    apply inert_flags_kept in Hi.
  - now apply flags_mono_shutdown.
  - now apply flags_kept_mono.
  - apply flags_kept_mono.
    eapply flags_kept_trans; [exact Hi | apply flags_kept_checkStackEmpty].
  - apply flags_kept_mono.
    eapply flags_kept_trans; [exact Hi | apply flags_kept_checkStackFull].
Qed.

Lemma flags_mono_getConnectionsCallback (u : string) (n t : Z) (w0 w : World) :
  flags_kept w0 w ->
  flags_mono w0 (settle (getConnectionsCallback config u n t w)).
Proof.
  intros H. unfold getConnectionsCallback.
  repeat case_match; cbn [settle];
    try (now apply flags_mono_shutdown); apply flags_kept_mono;
    (eapply flags_kept_trans; [exact H|]);
    (split; [reflexivity | split; [reflexivity|]]);
    intros v Hv;
    cbn [conns mark set_history set_gClients] in Hv;
    unfold client_end in Hv;
    repeat apply conns_update_conn_None in Hv; exact Hv.
Qed.

Lemma flags_mono_runTimer (i : nat) (w : World) :
  flags_mono w (runTimer config i w).
Proof.
  apply flags_kept_mono. unfold runTimer.
  destruct (timers w !! i) as [[u|u p]|].
  - eapply flags_kept_trans; [|apply flags_kept_checkStackEmpty].
    flags_triv.
  - eapply flags_kept_trans; [|apply flags_kept_checkStackFull].
    flags_triv.
  - apply flags_kept_refl.
Qed.

Lemma step_flags_mono (e : Event) (w : World) :
  flags_mono w (step config e w).
Proof.
  assert (R : flags_mono w w) by (apply flags_kept_mono, flags_kept_refl).
  destruct e as [u t n t'|u b|u|u|u|i|]; cbn [step].
  - destruct (listening w) eqn:Hl; cbn [andb]; [|exact R].
    destruct (bool_decide (conns w !! u = None)) eqn:Hu; [|exact R].
    apply bool_decide_eq_true_1 in Hu.
    apply flags_mono_getConnectionsCallback.
    apply silent_flags_kept. now apply silent_connectionListener.
  - destruct (bool_decide (conns w !! u = None));
      [exact R | apply flags_mono_onData].
  - destruct (bool_decide (conns w !! u = None)); [exact R|].
    apply flags_kept_mono, silent_flags_kept, silent_onEnd.
  - destruct (bool_decide (conns w !! u = None)); [exact R|].
    apply flags_kept_mono, silent_flags_kept, silent_onEnd.
  - destruct (bool_decide (conns w !! u = None)); [exact R|].
    apply flags_kept_mono, silent_flags_kept, silent_onEnd.
  - apply flags_mono_runTimer.
  - apply flags_mono_shutdown, flags_kept_refl.
Qed.

Lemma run_app (evs1 evs2 : list Event) (w : World) :
  run config (evs1 ++ evs2) w = run config evs2 (run config evs1 w).
Proof.
  revert w. induction evs1 as [|e evs1 IH]; intros w; cbn [run app].
  - reflexivity.
  - apply IH.
Qed.

Lemma run_flags_mono (evs : list Event) (w : World) :
  flags_mono w (run config evs w).
Proof.
  revert w. induction evs as [|e evs IH]; intros w; cbn [run].
  - apply flags_kept_mono, flags_kept_refl.
  - destruct (step_flags_mono e w) as (A & B & C).
    destruct (IH (step config e w)) as (D & E & F).
    split; [auto|]. split; auto.
Qed.

(** Once the halt flag is up and the server closed, no turn of the event
    loop changes the stack or sends anything. *)
Lemma step_halted (e : Event) (w : World) :
  gKillMe w = true -> listening w = false ->
  gLIFO (step config e w) = gLIFO w /\
  forall v, sent v (step config e w) = sent v w.
Proof.
  intros Hk Hl.
  destruct (step_effect config e w)
    as [H1 H2|u H1 H2 H3 H4 H5|u p H1 H2 H3 H4 H5|u p H1 H2 H3 H4];
    try congruence.
  split; assumption.
Qed.

Lemma run_halted (evs : list Event) (w : World) :
  gKillMe w = true -> listening w = false ->
  gLIFO (run config evs w) = gLIFO w /\
  forall v, sent v (run config evs w) = sent v w.
Proof.
  revert w. induction evs as [|e evs IH]; intros w Hk Hl; cbn [run].
  - split; reflexivity.
  - destruct (step_flags_mono e w) as (A & B & _).
    destruct (step_halted e w Hk Hl) as [C D].
    destruct (IH (step config e w) (A Hk) (B Hl)) as [E F].
    split; [congruence|]. intros v. now rewrite F.
Qed.

(** With the halt flag up, a retry callback that runs does nothing and
    is not armed again. *)
Lemma runTimer_halted (i : nat) (w : World) :
  gKillMe w = true ->
  runTimer config i w = set_timers (delete i (timers w)) w.
Proof.
  intros Hk. unfold runTimer.
  destruct (timers w !! i) as [[u|u p]|] eqn:Ht.
  - unfold checkStackEmpty. cbn [gKillMe set_timers]. now rewrite Hk.
  - unfold checkStackFull. cbn [gKillMe set_timers]. now rewrite Hk.
  - apply lookup_ge_None in Ht.
    rewrite delete_take_drop, take_ge, drop_ge, app_nil_r by lia.
    destruct w; reflexivity.
Qed.

End Flags.

(** ** Running one request *)

Lemma frame_but_refl u w : frame_but u w w.
Proof. repeat split; auto. Qed.

Lemma frame_but_trans u w1 w2 w3 :
  frame_but u w1 w2 -> frame_but u w2 w3 -> frame_but u w1 w3.
Proof.
  intros (A1 & A2 & A3 & A4 & A5) (B1 & B2 & B3 & B4 & B5).
  split; [congruence|]. split; [congruence|]. split; [congruence|].
  split; [congruence|]. intros v Hv. rewrite B5 by assumption. now apply A5.
Qed.

Lemma frame_but_insert u c a w :
  frame_but u w (set_conns (<[u := c]> (conns w)) (mark a w)).
Proof.
  repeat (split; [reflexivity|]). intros v Hv. cbn.
  now rewrite lookup_insert_ne.
Qed.

Lemma registered_frame u v w w' :
  frame_but v w w' -> registered u w -> registered u w'.
Proof. intros (_ & _ & A & _) H. unfold registered. now rewrite A. Qed.

Lemma ready_frame u v w w' :
  frame_but v w w' -> u <> v -> ready u w -> ready u w'.
Proof.
  intros F Hne [Hc Hr]. split; [|eapply registered_frame; eauto].
  destruct F as (_ & _ & _ & _ & A). now rewrite A.
Qed.

Lemma conn_lookup (u : string) (c : Conn) (w : World) :
  conns w !! u = Some c -> conn u w = c.
Proof. intros H. unfold conn. now apply lookup_total_correct. Qed.

Lemma conn_same (v : string) (w w' : World) :
  conns w' !! v = conns w !! v -> conn v w' = conn v w.
Proof. intros H. unfold conn. now rewrite !lookup_total_alt, H. Qed.

Lemma ready_frame_out u us w w' :
  frame_out us w w' -> u ∉ us -> ready u w -> ready u w'.
Proof.
  intros (_ & _ & A & _ & B) Hne [Hc (r & Hr)]. split.
  - now rewrite B.
  - exists r. now rewrite A.
Qed.

Section Requests.

Variable config : Config.

Lemma onData_registered (u : string) (b : Buffer) (w : World) :
  registered u w ->
  onData config u b w
  = Normal (onDataDone config u (onDataState u b (mark (DataHandled u) w))).
Proof.
  intros (r & Hr & Hd). unfold onData. cbn [gClients mark set_history].
  now rewrite Hr, Hd.
Qed.

Lemma onDataState_Push (u : string) (b : Buffer) (w : World) :
  state (conn u w) = Push ->
  onDataState u b w = update_conn u (pushContinue b) w.
Proof. intros H. unfold onDataState. rewrite H. reflexivity. Qed.

Lemma onDataState_Start_push (u : string) (b : Buffer) (w : World) :
  state (conn u w) = Start -> Buffer_and b 0 0x80 = 0 ->
  onDataState u b w = update_conn u (pushStart b) w.
Proof. intros H Hb. unfold onDataState. rewrite H, Hb. reflexivity. Qed.

Lemma onDataState_Start_pop (u : string) (b : Buffer) (w : World) :
  state (conn u w) = Start -> Buffer_and b 0 0x80 <> 0 ->
  onDataState u b w = checkStackEmpty u (update_conn u (set_state Pop) w).
Proof.
  intros H Hb. unfold onDataState. rewrite H.
  apply Z.eqb_neq in Hb. rewrite Hb. reflexivity.
Qed.

Lemma onDataState_other (u : string) (b : Buffer) (w : World) :
  state (conn u w) <> Start -> state (conn u w) <> Push ->
  onDataState u b w = w.
Proof.
  intros H1 H2. unfold onDataState.
  destruct (state (conn u w)); try congruence; reflexivity.
Qed.

Lemma step_push_more (u : string) (L : Z) (acc : list Buffer) (b : Buffer) (w : World) :
  conns w !! u = Some (pushing_conn L acc) -> registered u w ->
  Z.of_nat (length (concat acc)) + Z.of_nat (length b) < L ->
  step config (OnData u b) w
  = set_conns (<[u := pushing_conn L (acc ++ [b])]> (conns w))
      (mark (DataHandled u) w).
Proof.
  intros Hc Hr Hlt.
  cbn [step]. rewrite bool_decide_eq_false_2 by (rewrite Hc; discriminate).
  rewrite onData_registered by assumption. cbn [settle].
  assert (Hcu : conn u (mark (DataHandled u) w) = pushing_conn L acc)
    by (apply conn_lookup; exact Hc).
  rewrite onDataState_Push by (now rewrite Hcu).
  assert (Hp : pushContinue b (pushing_conn L acc) = pushing_conn L (acc ++ [b])).
  { unfold pushContinue, pushing_conn. cbn.
    destruct (Z.geb_spec (Z.of_nat (length (concat acc)) + Z.of_nat (length b)) L).
    lia.
    unfold set_state, set_payloadBytesRead, set_payloadList. cbn. f_equal.
    rewrite concat_app, length_app. cbn. rewrite app_nil_r. lia. }
  unfold onDataDone. rewrite conn_update_conn_eq, Hcu, Hp.
  cbn [state pushing_conn]. 
  rewrite bool_decide_eq_false_2 by discriminate.
  unfold update_conn. now rewrite Hcu, Hp.
Qed.

Lemma step_push_last (u : string) (L : Z) (acc : list Buffer) (b : Buffer) (w : World) :
  conns w !! u = Some (pushing_conn L acc) -> registered u w ->
  L <= Z.of_nat (length (concat acc)) + Z.of_nat (length b) ->
  gKillMe w = false ->
  Z.of_nat (length (gLIFO w)) < maxStackSize config ->
  step config (OnData u b) w
  = set_gLIFO (gLIFO w ++ [concat (acc ++ [b])])
      (set_conns (<[u := done_conn L (acc ++ [b]) [Some [0]]]> (conns w))
        (mark (DataHandled u) w)).
Proof.
  intros Hc Hr Hge Hk Hroom.
  cbn [step]. rewrite bool_decide_eq_false_2 by (rewrite Hc; discriminate).
  rewrite onData_registered by assumption. cbn [settle].
  assert (Hcu : conn u (mark (DataHandled u) w) = pushing_conn L acc)
    by (apply conn_lookup; exact Hc).
  rewrite onDataState_Push by (now rewrite Hcu).
  assert (Hp : pushContinue b (pushing_conn L acc) = done_conn L (acc ++ [b]) []).
  { unfold pushContinue, pushing_conn, done_conn. cbn.
    destruct (Z.geb_spec (Z.of_nat (length (concat acc)) + Z.of_nat (length b)) L);
      [|lia].
    unfold set_state, set_payloadBytesRead, set_payloadList. cbn. f_equal.
    rewrite concat_app, length_app. cbn. rewrite app_nil_r. lia. }
  unfold onDataDone. rewrite conn_update_conn_eq, Hcu, Hp.
  cbn [state done_conn payloadList].
  rewrite bool_decide_eq_true_2 by reflexivity.
  unfold checkStackFull. rewrite conn_update_conn_eq, Hcu, Hp.
  cbn [gKillMe update_conn set_conns mark set_history exitLoop done_conn gLIFO].
  rewrite Hk. cbn [orb].
  destruct (Z.ltb_spec (Z.of_nat (length (gLIFO w))) (maxStackSize config)); [|lia].
  unfold client_end, update_conn, conn. cbn.
  rewrite lookup_total_insert_eq, insert_insert_eq.
  fold (conn u w). rewrite (conn_lookup _ _ _ Hc), Hp. reflexivity.
Qed.


Lemma Buffer_slice_payload (h : Z) (rest : Buffer) (L : Z) :
  Buffer_slice 1 (L + 1) (h :: rest) = take (Z.to_nat L) rest.
Proof. unfold Buffer_slice. replace (L + 1 - 1) with L by lia. reflexivity. Qed.

Lemma pushStart_more (h : Z) (rest : Buffer) :
  Z.of_nat (length rest) < Z.land h 0x7F ->
  pushStart (h :: rest) conn_init = pushing_conn (Z.land h 0x7F) [rest].
Proof.
  intros Hlt. unfold pushStart, conn_init, pushing_conn.
  unfold set_state, set_payloadBytesRead, set_payloadList, set_payloadLength.
  cbn [state payloadBytesRead payloadLength payloadList exitLoop endCalls
       Buffer_and lookup list_lookup app].
  rewrite Buffer_slice_payload. cbn [length].
  destruct (Z.geb_spec (Z.of_nat (S (length rest)) - 1) (Z.land h 127)); [lia|].
  rewrite take_ge by lia. cbn [concat]. rewrite app_nil_r. f_equal. lia.
Qed.

Lemma pushStart_whole (h : Z) (rest : Buffer) :
  Z.land h 0x7F <= Z.of_nat (length rest) ->
  pushStart (h :: rest) conn_init
  = {| state := Done; payloadBytesRead := Z.of_nat (length rest);
       payloadLength := Z.land h 0x7F;
       payloadList := [take (Z.to_nat (Z.land h 0x7F)) rest];
       exitLoop := false; endCalls := [] |}.
Proof.
  intros Hge. unfold pushStart, conn_init.
  unfold set_state, set_payloadBytesRead, set_payloadList, set_payloadLength.
  cbn [state payloadBytesRead payloadLength payloadList exitLoop endCalls
       Buffer_and lookup list_lookup app].
  rewrite Buffer_slice_payload. cbn [length].
  destruct (Z.geb_spec (Z.of_nat (S (length rest)) - 1) (Z.land h 127)); [|lia].
  f_equal. lia.
Qed.

Lemma step_push_start (u : string) (h : Z) (rest : Buffer) (w : World) :
  ready u w -> Z.land h 0x80 = 0 ->
  Z.of_nat (length rest) < Z.land h 0x7F ->
  step config (OnData u (h :: rest)) w
  = set_conns (<[u := pushing_conn (Z.land h 0x7F) [rest]]> (conns w))
      (mark (DataHandled u) w).
Proof.
  intros [Hc Hr] Hh Hlt.
  cbn [step]. rewrite bool_decide_eq_false_2 by (rewrite Hc; discriminate).
  rewrite onData_registered by assumption. cbn [settle].
  assert (Hcu : conn u (mark (DataHandled u) w) = conn_init)
    by (apply conn_lookup; exact Hc).
  rewrite onDataState_Start_push by (now rewrite ?Hcu).
  unfold onDataDone. rewrite conn_update_conn_eq, Hcu, pushStart_more by assumption.
  cbn [state pushing_conn].
  rewrite bool_decide_eq_false_2 by discriminate.
  unfold update_conn. now rewrite Hcu, pushStart_more.
Qed.

Lemma step_push_whole_eq (u : string) (h : Z) (rest : Buffer) (w : World) :
  ready u w -> Z.land h 0x80 = 0 ->
  Z.land h 0x7F <= Z.of_nat (length rest) ->
  gKillMe w = false ->
  Z.of_nat (length (gLIFO w)) < maxStackSize config ->
  step config (OnData u (h :: rest)) w
  = set_gLIFO (gLIFO w ++ [take (Z.to_nat (Z.land h 0x7F)) rest])
      (set_conns (<[u := whole_conn h rest [Some [0]]]> (conns w))
        (mark (DataHandled u) w)).
Proof.
  intros [Hc Hr] Hh Hge Hk Hroom.
  cbn [step]. rewrite bool_decide_eq_false_2 by (rewrite Hc; discriminate).
  rewrite onData_registered by assumption. cbn [settle].
  assert (Hcu : conn u (mark (DataHandled u) w) = conn_init)
    by (apply conn_lookup; exact Hc).
  rewrite onDataState_Start_push by (now rewrite ?Hcu).
  assert (Hp := pushStart_whole h rest Hge). fold (whole_conn h rest []) in Hp.
  unfold onDataDone. rewrite conn_update_conn_eq, Hcu, Hp.
  cbn [state payloadList whole_conn].
  rewrite bool_decide_eq_true_2 by reflexivity.
  unfold checkStackFull. rewrite conn_update_conn_eq, Hcu, Hp.
  cbn [gKillMe update_conn set_conns mark set_history exitLoop gLIFO whole_conn].
  rewrite Hk. cbn [orb].
  destruct (Z.ltb_spec (Z.of_nat (length (gLIFO w))) (maxStackSize config)); [|lia].
  unfold client_end, update_conn, conn. cbn.
  rewrite lookup_total_insert_eq, insert_insert_eq.
  fold (conn u w). rewrite (conn_lookup _ _ _ Hc), Hp, app_nil_r. reflexivity.
Qed.

Lemma step_push_whole (u : string) (h : Z) (rest : Buffer) (w : World) :
  ready u w -> Z.land h 0x80 = 0 ->
  Z.land h 0x7F <= Z.of_nat (length rest) ->
  gKillMe w = false ->
  Z.of_nat (length (gLIFO w)) < maxStackSize config ->
  let w' := step config (OnData u (h :: rest)) w in
  gLIFO w' = gLIFO w ++ [take (Z.to_nat (Z.land h 0x7F)) rest] /\
  endCalls (conn u w') = [Some [0]] /\
  frame_but u w w'.
Proof.
  intros Hrdy Hh Hge Hk Hroom. cbv zeta.
  rewrite step_push_whole_eq by assumption. split; [|split].
  - reflexivity.
  - unfold conn. cbn. now rewrite lookup_total_insert_eq.
  - repeat (split; [reflexivity|]). intros v Hv. cbn.
    now rewrite lookup_insert_ne.
Qed.

Lemma step_push_last' (u : string) (L : Z) (acc : list Buffer) (b : Buffer) (w : World) :
  conns w !! u = Some (pushing_conn L acc) -> registered u w ->
  L <= Z.of_nat (length (concat acc)) + Z.of_nat (length b) ->
  gKillMe w = false ->
  Z.of_nat (length (gLIFO w)) < maxStackSize config ->
  let w' := step config (OnData u b) w in
  gLIFO w' = gLIFO w ++ [concat acc ++ b] /\
  endCalls (conn u w') = [Some [0]] /\
  frame_but u w w'.
Proof.
  intros Hc Hr Hge Hk Hroom. cbv zeta.
  rewrite (step_push_last u L acc b w) by assumption. split; [|split].
  - cbn. rewrite concat_app. cbn. now rewrite app_nil_r.
  - unfold conn. cbn. now rewrite lookup_total_insert_eq.
  - repeat (split; [reflexivity|]). intros v Hv. cbn.
    now rewrite lookup_insert_ne.
Qed.

Lemma run_push_chunks (u : string) (L : Z) (chunks : list Buffer) :
  forall (acc : list Buffer) (w : World),
  conns w !! u = Some (pushing_conn L acc) -> registered u w ->
  chunks <> [] -> Forall (fun b => b <> []) chunks ->
  Z.of_nat (length (concat acc)) + Z.of_nat (length (concat chunks)) = L ->
  gKillMe w = false ->
  Z.of_nat (length (gLIFO w)) < maxStackSize config ->
  let w' := run config (map (OnData u) chunks) w in
  gLIFO w' = gLIFO w ++ [concat acc ++ concat chunks] /\
  endCalls (conn u w') = [Some [0]] /\
  frame_but u w w'.
Proof.
  induction chunks as [|b chunks IH]; intros acc w Hc Hr Hne Hall Hlen Hk Hroom;
    [congruence|].
  apply Forall_cons in Hall as [Hb Hall].
  cbn [concat] in Hlen. rewrite length_app in Hlen.
  cbn [map run concat]. destruct chunks as [|b' chunks].
  - cbn [map run concat]. rewrite app_nil_r. cbn [concat length] in Hlen.
    apply (step_push_last' u L acc b w); auto. lia.
  - assert (Hb' : b' <> []) by (now apply Forall_cons in Hall as [? _]).
    assert (0 < length b')%nat by (destruct b'; [congruence | cbn; lia]).
    assert (Hlt : Z.of_nat (length (concat acc)) + Z.of_nat (length b) < L).
    { cbn [concat] in Hlen. rewrite length_app in Hlen. lia. }
    rewrite (step_push_more u L acc b w) by assumption.
    set (w1 := set_conns _ _).
    assert (F1 : frame_but u w w1) by apply frame_but_insert.
    destruct (IH (acc ++ [b]) w1) as (A & B & C).
    + unfold w1. cbn. now rewrite lookup_insert_eq.
    + eapply registered_frame; eauto.
    + discriminate.
    + assumption.
    + rewrite concat_app, length_app.
      change (concat [b]) with (b ++ []). rewrite app_nil_r. lia.
    + assumption.
    + assumption.
    + cbv zeta. split; [|split].
      * rewrite A. unfold w1. cbn [gLIFO set_conns mark set_history].
        rewrite concat_app. cbn [concat]. rewrite app_nil_r, <- app_assoc.
        reflexivity.
      * exact B.
      * eapply frame_but_trans; eauto.
Qed.


Lemma push_request (u : string) (h : Z) (payload : Buffer) (chunks : list Buffer)
    (w : World) :
  ready u w ->
  Forall (fun b => b <> []) chunks ->
  concat chunks = h :: payload ->
  Z.land h 0x80 = 0 ->
  Z.land h 0x7F = Z.of_nat (length payload) ->
  gKillMe w = false ->
  Z.of_nat (length (gLIFO w)) < maxStackSize config ->
  let w' := run config (map (OnData u) chunks) w in
  gLIFO w' = gLIFO w ++ [payload] /\
  endCalls (conn u w') = [Some [0]] /\
  frame_but u w w'.
Proof.
  intros Hrdy Hall Hcat Hh HL Hk Hroom.
  destruct chunks as [|c1 others]; [discriminate|].
  apply Forall_cons in Hall as [Hc1 Hall].
  destruct c1 as [|h' rest1]; [congruence|].
  cbn [concat app] in Hcat. injection Hcat as -> Hpay.
  cbn [map run]. destruct others as [|c2 others].
  - cbn [concat] in Hpay. rewrite app_nil_r in Hpay. subst rest1.
    cbn [map run].
    destruct (step_push_whole u h payload w) as (A & B & C); auto; [lia|].
    rewrite take_ge in A by lia. auto.
  - assert (Hc2 : c2 <> []) by (now apply Forall_cons in Hall as [? _]).
    assert (0 < length c2)%nat by (destruct c2; [congruence | cbn; lia]).
    assert (Hlen : length payload
                   = (length rest1 + length (concat (c2 :: others)))%nat)
      by (rewrite <- Hpay; apply length_app).
    assert (Hlt : Z.of_nat (length rest1) < Z.land h 0x7F).
    { rewrite HL, Hlen. cbn [concat]. rewrite length_app. lia. }
    rewrite step_push_start by assumption.
    set (w1 := set_conns _ _).
    assert (F1 : frame_but u w w1) by apply frame_but_insert.
    destruct (run_push_chunks u (Z.land h 0x7F) (c2 :: others) [rest1] w1)
      as (A & B & C).
    + unfold w1. cbn. now rewrite lookup_insert_eq.
    + eapply registered_frame; [exact F1 | apply Hrdy].
    + discriminate.
    + assumption.
    + change (concat [rest1]) with (rest1 ++ []). rewrite app_nil_r. lia.
    + assumption.
    + assumption.
    + cbv zeta. split; [|split].
      * rewrite A. change (concat [rest1]) with (rest1 ++ []).
        rewrite app_nil_r, Hpay. reflexivity.
      * exact B.
      * eapply frame_but_trans; eauto.
Qed.

Lemma step_pop_eq (v : string) (b : Buffer) (rest : list Buffer) (p : Buffer)
    (w : World) :
  ready v w -> Buffer_and b 0 0x80 <> 0 ->
  gKillMe w = false -> gLIFO w = rest ++ [p] ->
  step config (OnData v b) w
  = set_gLIFO rest
      (set_conns (<[v := popped_conn p]> (conns w)) (mark (DataHandled v) w)).
Proof.
  intros [Hc Hr] Hb Hk Hl.
  cbn [step]. rewrite bool_decide_eq_false_2 by (rewrite Hc; discriminate).
  rewrite onData_registered by assumption. cbn [settle].
  assert (Hcu : conn v (mark (DataHandled v) w) = conn_init)
    by (apply conn_lookup; exact Hc).
  rewrite onDataState_Start_pop by (now rewrite ?Hcu).
  unfold onDataDone.
  rewrite state_checkStackEmpty, conn_update_conn_eq, Hcu.
  cbn [state set_state conn_init].
  rewrite bool_decide_eq_false_2 by discriminate.
  destruct (checkStackEmpty_cases v
              (update_conn v (set_state Pop) (mark (DataHandled v) w)))
    as [[_ H]|[(_ & _ & _ & H)|(rest' & p' & H1 & _ & _ & ->)]].
  - rewrite conn_update_conn_eq, Hcu in H. cbn in H. rewrite Hk in H. discriminate.
  - cbn in H. rewrite Hl in H. now destruct rest.
  - cbn [gLIFO update_conn set_conns mark set_history] in H1.
    rewrite Hl in H1. apply app_inj_tail in H1 as [-> ->].
    unfold client_end, update_conn, conn. cbn.
    rewrite lookup_total_insert_eq, insert_insert_eq.
    fold (conn v w). rewrite (conn_lookup _ _ _ Hc). reflexivity.
Qed.

Lemma step_pop (v : string) (b : Buffer) (rest : list Buffer) (p : Buffer)
    (w : World) :
  ready v w -> Buffer_and b 0 0x80 <> 0 ->
  gKillMe w = false -> gLIFO w = rest ++ [p] ->
  let w' := step config (OnData v b) w in
  gLIFO w' = rest /\
  endCalls (conn v w') = [Some (popResponse p)] /\
  frame_but v w w'.
Proof.
  intros Hrdy Hb Hk Hl. cbv zeta.
  rewrite (step_pop_eq v b rest p w) by assumption. split; [|split].
  - reflexivity.
  - unfold conn. cbn. now rewrite lookup_total_insert_eq.
  - repeat (split; [reflexivity|]). intros u Hu. cbn.
    now rewrite lookup_insert_ne.
Qed.


Lemma run_pushes (pushers : list (string * Buffer)) :
  forall w : World,
  NoDup (pushers.*1) ->
  Forall (fun up => ready up.1 w /\ (length up.2 <= 127)%nat) pushers ->
  gKillMe w = false ->
  Z.of_nat (length (gLIFO w)) + Z.of_nat (length pushers) <= maxStackSize config ->
  let w' := run config (map (fun up => OnData up.1 (pushRequest up.2)) pushers) w in
  gLIFO w' = gLIFO w ++ pushers.*2 /\
  Forall (fun up => endCalls (conn up.1 w') = [Some [0]]) pushers /\
  frame_out (pushers.*1) w w'.
Proof.
  induction pushers as [|[u p] pushers IH]; intros w Hnd Hall Hk Hroom.
  - cbn. rewrite app_nil_r. repeat split; auto.
  - cbn [fmap list_fmap fst snd map run] in *.
    apply NoDup_cons in Hnd as [Hu Hnd].
    apply Forall_cons in Hall as [[Hrdy Hp] Hall]. cbn [fst snd] in *.
    cbn [length] in Hroom.
    destruct (push_request u (Z.of_nat (length p)) p [pushRequest p] w)
      as (A & B & C).
    + exact Hrdy.
    + apply Forall_cons. split; [discriminate | apply Forall_nil_2].
    + cbn. now rewrite app_nil_r.
    + apply land_0x80_small. lia.
    + apply land_0x7F_small. lia.
    + exact Hk.
    + lia.
    + cbn [map run] in A, B, C.
      set (w1 := step config (OnData u (pushRequest p)) w) in *.
      destruct (IH w1) as (D & E & F).
      * assumption.
      * apply Forall_forall. intros [v q] Hin. cbn [fst snd].
        destruct (proj1 (Forall_forall _ _) Hall _ Hin) as [Hv Hq].
        cbn [fst snd] in Hv, Hq. split; [|assumption].
        eapply ready_frame; [exact C| |exact Hv].
        intros ->. apply Hu. apply list_elem_of_fmap. exists (u, q).
        split; [reflexivity|assumption].
      * destruct C as (C1 & _). congruence.
      * rewrite A, length_app. cbn [length]. lia.
      * cbv zeta. split; [|split].
        -- rewrite D, A, <- app_assoc. reflexivity.
        -- constructor; [|exact E]. cbn [fst].
           destruct F as (_ & _ & _ & _ & F).
           rewrite (conn_same u w1 _ (F u Hu)). exact B.
        -- destruct C as (C1 & C2 & C3 & C4 & C5).
           destruct F as (F1 & F2 & F3 & F4 & F5).
           split; [congruence|]. split; [congruence|]. split; [congruence|].
           split; [congruence|]. intros v Hv.
           apply not_elem_of_cons in Hv as [Hv1 Hv2].
           rewrite F5 by assumption. now apply C5.
Qed.

Lemma run_pops (poppers : list string) :
  forall (w : World) (base ps : list Buffer),
  NoDup poppers ->
  Forall (fun v => ready v w) poppers ->
  gKillMe w = false ->
  gLIFO w = base ++ ps ->
  length ps = length poppers ->
  let w' := run config (map (fun v => OnData v popRequest) poppers) w in
  gLIFO w' = base /\
  map (fun v => endCalls (conn v w')) poppers
  = map (fun p => [Some (popResponse p)]) (rev ps) /\
  frame_out poppers w w'.
Proof.
  induction poppers as [|v poppers IH]; intros w base ps Hnd Hall Hk Hl Hlen.
  - destruct ps; [|discriminate]. rewrite app_nil_r in Hl.
    cbn. repeat split; auto.
  - destruct ps as [|p ps' _] using rev_ind; [discriminate|].
    rewrite length_app in Hlen. cbn [length] in Hlen.
    apply NoDup_cons in Hnd as [Hv Hnd].
    apply Forall_cons in Hall as [Hrdy Hall].
    cbn [map run]. rewrite app_assoc in Hl.
    destruct (step_pop v popRequest (base ++ ps') p w) as (A & B & C).
    + exact Hrdy.
    + discriminate.
    + exact Hk.
    + exact Hl.
    + set (w1 := step config (OnData v popRequest) w) in *.
      destruct (IH w1 base ps') as (D & E & F).
      * exact Hnd.
      * apply Forall_forall. intros x Hx.
        eapply ready_frame; [exact C| |].
        -- intros ->. contradiction.
        -- exact (proj1 (Forall_forall _ _) Hall _ Hx).
      * destruct C as (C1 & _). congruence.
      * exact A.
      * lia.
      * cbv zeta. split; [exact D|]. split.
        -- rewrite rev_unit. cbn [map]. f_equal; [|exact E].
           destruct F as (_ & _ & _ & _ & F).
           rewrite (conn_same v w1 _ (F v Hv)). exact B.
        -- destruct C as (C1 & C2 & C3 & C4 & C5).
           destruct F as (F1 & F2 & F3 & F4 & F5).
           split; [congruence|]. split; [congruence|]. split; [congruence|].
           split; [congruence|]. intros x Hx.
           apply not_elem_of_cons in Hx as [Hx1 Hx2].
           rewrite F5 by assumption. now apply C5.
Qed.
End Requests.

(** ** The eviction candidate *)

Lemma sort_insert_head {A} (compare : A -> A -> Z) (x : A) (l : list A) :
  sort_insert compare x l !! 0%nat
  = match l !! 0%nat with
    | None => Some x
    | Some y => if compare x y <=? 0 then Some x else Some y
    end.
Proof.
  destruct l as [|y r]; cbn; [reflexivity|].
  destruct (compare x y <=? 0); reflexivity.
Qed.

Lemma Array_sort_head {A} (f : A -> Z) (l : list A) :
  Array_sort (fun a b => f a - f b) l !! 0%nat = earliest f l.
Proof.
  induction l as [|x r IH]; [reflexivity|].
  cbn [Array_sort foldr earliest]. fold (Array_sort (fun a b => f a - f b) r).
  rewrite sort_insert_head, IH.
  destruct (earliest f r) as [y|]; [|reflexivity].
  destruct (Z.leb_spec (f x - f y) 0), (Z.leb_spec (f x) (f y));
    (reflexivity || lia).
Qed.

Lemma earliest_elem {A} (f : A -> Z) (l : list A) (x : A) :
  earliest f l = Some x -> x ∈ l.
Proof.
  revert x. induction l as [|a r IH]; intros x H; cbn in H; [discriminate|].
  destruct (earliest f r) as [y|].
  - destruct (f a <=? f y); injection H as <-.
    + apply elem_of_cons; auto.
    + apply elem_of_cons; right. now apply IH.
  - injection H as <-. apply elem_of_cons; auto.
Qed.

Lemma earliest_least {A} (f : A -> Z) (l : list A) (x : A) :
  earliest f l = Some x -> forall y, y ∈ l -> f x <= f y.
Proof.
  revert x. induction l as [|a r IH]; intros x H y Hy; cbn in H; [discriminate|].
  apply elem_of_cons in Hy.
  destruct (earliest f r) as [z|] eqn:Hz.
  - specialize (IH z eq_refl).
    destruct (Z.leb_spec (f a) (f z)); injection H as <-.
    + destruct Hy as [->|Hy]; [lia|]. specialize (IH y Hy). lia.
    + destruct Hy as [->|Hy]; [lia|]. now apply IH.
  - injection H as <-. destruct Hy as [->|Hy]; [lia|].
    destruct r; [inversion Hy | cbn in Hz].
    destruct (earliest f r); [destruct (_ <=? _)|]; discriminate.
Qed.

Lemma earliest_None {A} (f : A -> Z) (l : list A) :
  earliest f l = None -> l = [].
Proof.
  destruct l as [|a r]; [reflexivity|]. cbn.
  destruct (earliest f r); [destruct (_ <=? _)|]; discriminate.
Qed.



Lemma earliestUUID_earliest (w : World) :
  earliestUUID w = earliest (timestampOf w) (Obj.keys (gClients w)).
Proof. apply Array_sort_head. Qed.

(** The candidate holds a record, one with the least timestamp of the
    whole registry. *)
Lemma earliestUUID_least (w : World) (e : string) :
  earliestUUID w = Some e ->
  exists r, Obj.get e (gClients w) = Some r /\
    forall k r', Obj.get k (gClients w) = Some r' ->
      Client.timestamp r <= Client.timestamp r'.
Proof.
  rewrite earliestUUID_earliest. intros H.
  assert (He : is_Some (Obj.get e (gClients w)))
    by (apply Obj_get_keys; eapply earliest_elem; eauto).
  destruct He as [r Hr]. exists r. split; [exact Hr|].
  intros k r' Hk.
  assert (Hin : k ∈ Obj.keys (gClients w)) by (apply Obj_get_keys; eauto).
  pose proof (earliest_least _ _ _ H k Hin) as Hle.
  unfold timestampOf in Hle. now rewrite Hr, Hk in Hle.
Qed.




(** ** The admission callback *)

Lemma Qgt_bool_false (a b : Q) : Qgt_bool a b = false <-> (a <= b)%Q.
Proof.
  unfold Qgt_bool. rewrite negb_false_iff. apply Qle_bool_iff.
Qed.

Lemma Qgt_bool_true (a b : Q) : Qgt_bool a b = true <-> ~ (a <= b)%Q.
Proof.
  rewrite <- Qgt_bool_false. destruct (Qgt_bool a b); split; congruence.
Qed.

Section Admission.
Variable config : Config.

Lemma disconnectOldClient_eq (dateNow : Z) (w : World) (e : string) (r : Client.t) :
  earliestUUID w = Some e -> Obj.get e (gClients w) = Some r ->
  disconnectOldClient config dateNow w
  = Some (if Qgt_bool (elapsedTimeSeconds dateNow r)
                      (staleConnectionPeriodSeconds config)
          then Result.mk true e else Result.mk false "").
Proof.
  intros He Hr. unfold disconnectOldClient. rewrite He, Hr. cbv zeta.
  fold (elapsedTimeSeconds dateNow r).
  destruct (Qgt_bool _ _); reflexivity.
Qed.



Lemma conn_mark (v : string) (a : Action) (w : World) :
  conn v (mark a w) = conn v w.
Proof. reflexivity. Qed.


Lemma conn_connectionListener_ne (u v : string) (now : Z) (w : World) :
  v <> u -> conn v (connectionListener u now w) = conn v w.
Proof.
  intros H. unfold conn, connectionListener. cbn.
  now apply lookup_total_insert_ne.
Qed.

Lemma onDataDone_other (u : string) (w : World) :
  state (conn u w) <> Done -> onDataDone config u w = w.
Proof.
  intros H. unfold onDataDone. now rewrite bool_decide_eq_false_2.
Qed.

Lemma step_data_ignored (u : string) (data : Buffer) (w : World) :
  conns w !! u <> None -> registered u w ->
  state (conn u w) <> Start -> state (conn u w) <> Push ->
  state (conn u w) <> Done ->
  step config (OnData u data) w = mark (DataHandled u) w.
Proof.
  intros Hc Hr H1 H2 H3. cbn [step].
  rewrite bool_decide_eq_false_2 by assumption.
  rewrite onData_registered by assumption. cbn [settle].
  rewrite onDataState_other by assumption.
  now apply onDataDone_other.
Qed.


End Admission.

(** ** What the handler of an accepted connection may do *)

Lemma benign_refl (w : World) : benign w w.
Proof.
  split.
  - exists []. split; [now rewrite app_nil_r | constructor].
  - reflexivity.
  - eauto.
  - auto.
Qed.

Lemma benign_trans (w1 w2 w3 : World) :
  benign w1 w2 -> benign w2 w3 -> benign w1 w3.
Proof.
  intros [(m1 & A1 & A2) B1 C1 D1] [(m2 & E1 & E2) F1 G1 H1]. split.
  - exists (m1 ++ m2). split; [now rewrite E1, A1, app_assoc|].
    apply Forall_app. split; [exact A2|].
    eapply Forall_impl; [exact E2|]. intros a (u & -> & Hu).
    exists u. split; [reflexivity|]. now rewrite <- B1.
  - intros v. now rewrite F1.
  - intros k r Hk. destruct (G1 k r Hk) as (r0 & Hr0 & Hc0).
    destruct (C1 k r0 Hr0) as (r1 & Hr1 & Hc1).
    exists r1. split; [assumption | congruence].
  - intros t Ht. destruct (H1 t Ht) as [Ht2|Ht2].
    + now apply D1.
    + right. now rewrite <- B1.
Qed.

(** *** Elementary moves *)

Lemma benign_mark_data (u : string) (w : World) :
  conns w !! u <> None -> benign w (mark (DataHandled u) w).
Proof.
  intros Hu. split; cbn; eauto.
  exists [DataHandled u]. split; [reflexivity|].
  apply Forall_cons. split; [eauto | apply Forall_nil_2].
Qed.

Ltac benign_trivial_history :=
  exists []; split; [now rewrite app_nil_r | apply Forall_nil_2].

Lemma benign_update_conn (u : string) (f : Conn -> Conn) (w : World) :
  conns w !! u <> None -> benign w (update_conn u f w).
Proof.
  intros Hu. split; cbn; eauto.
  - benign_trivial_history.
  - intros v. rewrite lookup_insert_None. split; [tauto|].
    intros Hv. split; [exact Hv | congruence].
Qed.

Lemma benign_client_end (u : string) (d : option Buffer) (w : World) :
  conns w !! u <> None -> benign w (client_end u d w).
Proof. apply benign_update_conn. Qed.

Lemma benign_setTimeout (t : Timer) (w : World) :
  conns w !! timer_uuid t <> None -> benign w (setTimeout t w).
Proof.
  intros Hu. split; cbn; eauto.
  - benign_trivial_history.
  - intros t' Ht. apply elem_of_app in Ht as [Ht|Ht]; [auto|].
    apply list_elem_of_singleton in Ht as ->. auto.
Qed.

Lemma benign_delete_timer (i : nat) (w : World) :
  benign w (set_timers (delete i (timers w)) w).
Proof.
  split; cbn; eauto.
  - benign_trivial_history.
  - intros t Ht. left. eapply elem_of_sublist; [exact Ht | apply sublist_delete].
Qed.

Lemma benign_set_gLIFO (l : list Buffer) (w : World) :
  benign w (set_gLIFO l w).
Proof. split; cbn; eauto. benign_trivial_history. Qed.

Lemma benign_delete_client (u : string) (w : World) :
  benign w (set_gClients (Obj.delete u (gClients w)) w).
Proof.
  split; cbn; eauto.
  - benign_trivial_history.
  - intros k r. rewrite Obj_get_delete.
    destruct (decide (k = u)); [discriminate | eauto].
Qed.

Lemma benign_shutdown (w : World) : benign w (shutdown w).
Proof. split; cbn; eauto. benign_trivial_history. Qed.

(** *** Handlers *)

Section Benign.

Variable config : Config.

Lemma benign_checkStackEmpty (u : string) (w : World) :
  conns w !! u <> None -> benign w (checkStackEmpty u w).
Proof.
  intros Hu.
  destruct (checkStackEmpty_cases u w)
    as [[-> _]|[[-> _]|(rest & payload & _ & _ & _ & ->)]].
  - apply benign_refl.
  - now apply benign_setTimeout.
  - eapply benign_trans; [apply benign_set_gLIFO|].
    now apply benign_client_end.
Qed.

Lemma benign_checkStackFull (u : string) (p : Buffer) (w : World) :
  conns w !! u <> None -> benign w (checkStackFull config u p w).
Proof.
  intros Hu.
  destruct (checkStackFull_cases config u p w)
    as [[-> _]|[[-> _]|(_ & _ & _ & ->)]].
  - apply benign_refl.
  - now apply benign_setTimeout.
  - eapply benign_trans; [apply benign_set_gLIFO|].
    now apply benign_client_end.
Qed.

Lemma benign_known (u : string) (w w' : World) :
  benign w w' -> conns w !! u <> None -> conns w' !! u <> None.
Proof. intros [_ B _ _] H. now rewrite B. Qed.

Lemma benign_onDataState (u : string) (b : Buffer) (w : World) :
  conns w !! u <> None -> benign w (onDataState u b w).
Proof.
  intros Hu. unfold onDataState.
  repeat match goal with
         | |- benign _ (if ?c then _ else _) => destruct c
         end; try apply benign_refl; try (now apply benign_update_conn).
  cbv zeta.
  assert (B : benign w (update_conn u (set_state Pop) w))
    by (now apply benign_update_conn).
  eapply benign_trans; [exact B|].
  apply benign_checkStackEmpty. eapply benign_known; [exact B | exact Hu].
Qed.

Lemma benign_onDataDone (u : string) (w : World) :
  conns w !! u <> None -> benign w (onDataDone config u w).
Proof.
  intros Hu. unfold onDataDone.
  destruct (bool_decide _); [|apply benign_refl].
  now apply benign_checkStackFull.
Qed.

Lemma benign_onData (u : string) (b : Buffer) (w : World) :
  conns w !! u <> None -> benign w (settle (onData config u b w)).
Proof.
  intros Hu. unfold onData.
  assert (B0 : benign w (mark (DataHandled u) w)) by now apply benign_mark_data.
  destruct (Obj.get u (gClients (mark (DataHandled u) w))) as [r|]; cbn [settle].
  - match goal with
    | |- context [onDataState u b ?x] =>
        assert (B1 : benign w x);
        [ destruct (Client.disconnect r); [|exact B0];
          eapply benign_trans; [exact B0|];
          apply benign_update_conn; exact (benign_known _ _ _ B0 Hu)
        | generalize dependent x ]
    end.
    intros w1 B1. cbv zeta.
    assert (K1 : conns w1 !! u <> None) by (eapply benign_known; eauto).
    assert (B2 : benign w1 (onDataState u b w1))
      by (now apply benign_onDataState).
    assert (K2 : conns (onDataState u b w1) !! u <> None)
      by (eapply benign_known; eauto).
    eapply benign_trans; [exact B1|].
    eapply benign_trans; [exact B2|].
    now apply benign_onDataDone.
  - eapply benign_trans; [exact B0 | apply benign_shutdown].
Qed.

Lemma benign_onEnd (u : string) (w : World) :
  conns w !! u <> None -> benign w (onEnd u w).
Proof.
  intros Hu. unfold onEnd. cbv zeta.
  eapply benign_trans; [apply (benign_update_conn u (set_exitLoop true)), Hu|].
  apply benign_delete_client.
Qed.

Lemma benign_runTimer (i : nat) (w : World) :
  (forall t, t ∈ timers w -> conns w !! timer_uuid t <> None) ->
  benign w (runTimer config i w).
Proof.
  intros Ht. unfold runTimer.
  destruct (timers w !! i) as [t|] eqn:Hi; [|apply benign_refl].
  assert (Hu : conns w !! timer_uuid t <> None)
    by (apply Ht; eapply list_elem_of_lookup_2; eauto).
  cbv zeta. eapply benign_trans; [apply benign_delete_timer|].
  destruct t as [u|u p]; cbn [timer_uuid] in Hu.
  - now apply benign_checkStackEmpty.
  - now apply benign_checkStackFull.
Qed.

End Benign.

Lemma registry_nonempty_earliest (w : World) (k : string) (r : Client.t) :
  Obj.get k (gClients w) = Some r ->
  exists e r', earliestUUID w = Some e /\ Obj.get e (gClients w) = Some r'.
Proof.
  intros Hk. destruct (earliestUUID w) as [e|] eqn:He.
  - destruct (earliestUUID_least w e He) as (r' & Hr' & _). eauto.
  - rewrite earliestUUID_earliest in He. apply earliest_None in He.
    assert (Hin : k ∈ Obj.keys (gClients w)) by (apply Obj_get_keys; eauto).
    rewrite He in Hin. inversion Hin.
Qed.

Lemma benign_mark_client (e : string) (r : Client.t) (w : World) :
  Obj.get e (gClients w) = Some r ->
  benign w (set_gClients (Obj.set e (marked r) (gClients w)) w).
Proof.
  intros He. split; cbn; eauto.
  - benign_trivial_history.
  - intros k r'. rewrite Obj_get_set.
    destruct (decide (k = e)) as [->|]; [|eauto].
    intros [= <-]. eauto.
Qed.

(** ** The capacity of the stack *)

Section Capacity.

Variable config : Config.

Lemma step_within_capacity (e : Event) (w : World) :
  Z.of_nat (length (gLIFO w)) <= maxStackSize config ->
  Z.of_nat (length (gLIFO (step config e w))) <= maxStackSize config.
Proof.
  intros H.
  destruct (step_effect config e w)
    as [H1 H2|u H1 H2 H3 H4 H5|u p H1 H2 H3 H4 H5|u p H1 H2 H3 H4].
  - now rewrite H1.
  - now rewrite H1.
  - rewrite H3, length_app. cbn [length]. lia.
  - rewrite H2, length_app in H. lia.
Qed.

Lemma run_within_capacity (evs : list Event) (w : World) :
  Z.of_nat (length (gLIFO w)) <= maxStackSize config ->
  Z.of_nat (length (gLIFO (run config evs w))) <= maxStackSize config.
Proof.
  revert w. induction evs as [|e evs IH]; intros w H; cbn [run]; auto.
  apply IH, step_within_capacity, H.
Qed.

Lemma step_full_no_pop (e : Event) (w : World) :
  maxStackSize config <= Z.of_nat (length (gLIFO w)) ->
  (length (gLIFO w) <= length (gLIFO (step config e w)))%nat ->
  gLIFO (step config e w) = gLIFO w /\
  forall u, conns w !! u <> None -> sent u (step config e w) = sent u w.
Proof.
  intros Hfull Hnp.
  destruct (step_effect config e w)
    as [H1 H2|u H1 H2 H3 H4 H5|u p H1 H2 H3 H4 H5|u p H1 H2 H3 H4].
  - split; [assumption | auto].
  - split; [assumption|]. intros v Hv. apply H5. congruence.
  - lia.
  - rewrite H2, length_app in Hnp. cbn [length] in Hnp. lia.
Qed.

Lemma run_full_no_pop (evs : list Event) (w : World) :
  maxStackSize config <= Z.of_nat (length (gLIFO w)) ->
  no_pop config evs w ->
  gLIFO (run config evs w) = gLIFO w /\
  forall u, conns w !! u <> None -> sent u (run config evs w) = sent u w.
Proof.
  revert w. induction evs as [|e evs IH]; intros w Hfull Hnp; cbn [run].
  - split; auto.
  - destruct Hnp as [Hnp1 Hnp2].
    destruct (step_full_no_pop e w Hfull Hnp1) as [A B].
    destruct (IH (step config e w)) as [C D]; [now rewrite A | exact Hnp2 |].
    split; [congruence|]. intros u Hu. rewrite D; [now apply B|].
    destruct (step_flags_mono config e w) as (_ & _ & M). intros Hn.
    now apply Hu, M.
Qed.

(** A push request that completes while the stack is full stays pending. *)
Lemma step_push_whole_full (u : string) (h : Z) (rest : Buffer) (w : World) :
  ready u w -> Z.land h 0x80 = 0 ->
  Z.land h 0x7F <= Z.of_nat (length rest) ->
  gKillMe w = false ->
  maxStackSize config <= Z.of_nat (length (gLIFO w)) ->
  step config (OnData u (h :: rest)) w
  = setTimeout (TimerFull u (take (Z.to_nat (Z.land h 0x7F)) rest))
      (set_conns (<[u := whole_conn h rest []]> (conns w))
        (mark (DataHandled u) w)).
Proof.
  intros [Hc Hr] Hh Hge Hk Hfull.
  cbn [step]. rewrite bool_decide_eq_false_2 by (rewrite Hc; discriminate).
  rewrite onData_registered by assumption. cbn [settle].
  assert (Hcu : conn u (mark (DataHandled u) w) = conn_init)
    by (apply conn_lookup; exact Hc).
  rewrite onDataState_Start_push by (now rewrite ?Hcu).
  assert (Hp := pushStart_whole h rest Hge). fold (whole_conn h rest []) in Hp.
  unfold onDataDone. rewrite conn_update_conn_eq, Hcu, Hp.
  cbn [state payloadList whole_conn].
  rewrite bool_decide_eq_true_2 by reflexivity.
  unfold checkStackFull. rewrite conn_update_conn_eq, Hcu, Hp.
  cbn [gKillMe update_conn set_conns mark set_history exitLoop gLIFO whole_conn].
  rewrite Hk. cbn [orb].
  destruct (Z.ltb_spec (Z.of_nat (length (gLIFO w))) (maxStackSize config)); [lia|].
  unfold update_conn. rewrite Hcu, Hp.
  cbn [Buffer_concat concat]. rewrite app_nil_r. reflexivity.
Qed.

End Capacity.

(** * The claims *)

(** Tactics for the side conditions of the examples: a connection is
    [ready], a list of names has no duplicates. *)
Ltac ready_now :=
  split; [vm_compute; reflexivity
         | eexists; split; vm_compute; reflexivity].

Ltac decide_now := apply (bool_decide_unpack _); vm_compute; reflexivity.

(** The stack discipline, on what the handlers receive.  N accepted
    connections each get one push request in one delivery (the header
    byte, equal to the payload length, then the payload), and then N other
    accepted connections each get a pop request.  When the stack has room
    for the N payloads, the stack holds the delivered payloads in push
    order after the pushes, the pop responses are those payloads in the
    reverse order, each behind its length byte, and the stack is back to
    what it was.  By [delivered_ascii] the deliveries are the bytes the
    clients wrote when these are ASCII. *)
Lemma lifo_order_of_deliveries (config : Config) (w : World)
    (pushers : list (string * Buffer)) (poppers : list string) :
  gKillMe w = false ->
  NoDup (pushers.*1 ++ poppers) ->
  Forall (fun up => ready up.1 w /\ (length up.2 <= 127)%nat) pushers ->
  Forall (fun v => ready v w) poppers ->
  length poppers = length pushers ->
  Z.of_nat (length (gLIFO w)) + Z.of_nat (length pushers)
    <= maxStackSize config ->
  let w1 :=
    run config (map (fun up => OnData up.1 (pushRequest up.2)) pushers) w in
  let w2 := run config (map (fun v => OnData v popRequest) poppers) w1 in
  gLIFO w1 = gLIFO w ++ pushers.*2 /\
  map (fun v => sent v w2) poppers
  = map (fun p => [Z.of_nat (length p) :: p]) (rev (pushers.*2)) /\
  gLIFO w2 = gLIFO w.
Proof.
  intros Hk Hnd Hpush Hpop Hlen Hroom w1 w2.
  apply NoDup_app in Hnd as (Hnd1 & Hdisj & Hnd2).
  destruct (run_pushes config pushers w Hnd1 Hpush Hk Hroom) as (A & B & C).
  fold w1 in A, B, C.
  destruct (run_pops config poppers w1 (gLIFO w) (pushers.*2)) as (D & E & F).
  - exact Hnd2.
  - apply Forall_forall. intros v Hv.
    eapply ready_frame_out; [exact C| |].
    + intros Hin. exact (Hdisj v Hin Hv).
    + exact (proj1 (Forall_forall _ _) Hpop v Hv).
  - destruct C as (C1 & _). congruence.
  - exact A.
  - now rewrite length_fmap.
  - fold w2 in D, E, F. split; [exact A|]. split; [|exact D].
    unfold sent.
    rewrite <- (map_map (fun v => endCalls (conn v w2)) (omap id)), E, map_map.
    apply map_ext_in. intros p Hp. cbn. unfold popResponse.
    rewrite land_0x7F_small; [reflexivity|].
    apply in_rev, list_elem_of_In, list_elem_of_fmap in Hp as ([v q] & -> & Hq).
    destruct (proj1 (Forall_forall _ _) Hpush _ Hq) as [_ Hle]. cbn in *. lia.
Qed.

(** C1, on the code.  Four clients, one request each: ["a"] pushes the
    one-byte payload [0xFF], ["b"] pushes [0xFE], then ["c"] and ["d"]
    pop.  The decoder installed by [client.setEncoding(null)] turns each
    payload byte into U+FFFD, [Buffer.from] encodes that as [EF BF BD],
    and the handler keeps the first byte of it: the stack holds [0xEF]
    twice, and both pops are answered [01 EF].  The two pushed payloads
    differ, the two popped payloads are equal, and neither is one that was
    pushed: the popped sequence is not the pushed sequence reversed.
    (On the deliveries the handler receives the order is last in, first
    out: [lifo_order_of_deliveries].) *)
Theorem C1_payloads_that_are_not_UTF8_are_altered :
  let arrivals :=
    [Loop (OnConnection "a" 1000 1 1000); Chunk "a" [1; 0xFF]; Loop (OnEnd "a");
     Loop (OnConnection "b" 1010 1 1010); Chunk "b" [1; 0xFE]; Loop (OnEnd "b");
     Loop (OnConnection "c" 1020 1 1020); Chunk "c" [0x80]; Loop (OnEnd "c");
     Loop (OnConnection "d" 1030 1 1030); Chunk "d" [0x80]; Loop (OnEnd "d")] in
  delivered [1; 0xFF] = Some [1; 0xEF; 0xBF; 0xBD] /\
  delivered [1; 0xFE] = Some [1; 0xEF; 0xBF; 0xBD] /\
  delivered [0x80] = Some [0xEF; 0xBF; 0xBD] /\
  gLIFO <$> serve config_small (take 6 arrivals) world_init
  = Some [[0xEF]; [0xEF]] /\
  sent "a" <$> serve config_small arrivals world_init = Some [[0]] /\
  sent "b" <$> serve config_small arrivals world_init = Some [[0]] /\
  sent "c" <$> serve config_small arrivals world_init = Some [[1; 0xEF]] /\
  sent "d" <$> serve config_small arrivals world_init = Some [[1; 0xEF]] /\
  gLIFO <$> serve config_small arrivals world_init = Some [].
Proof. vm_compute. repeat split; reflexivity. Qed.

(** The framing, on what the handler receives.  A push request is a
    header byte [h] with bit 7 clear and low seven bits L, followed by
    exactly L payload bytes (so 0 <= L <= 127).  However these bytes are
    cut into non-empty deliveries to the handler, one byte at a time
    included, the connection is answered exactly once, with the single
    byte 0x00, the payload is on top of the stack, and a pop request
    delivered to another accepted connection right after is answered with
    the byte L followed by the same L payload bytes.  By [delivered_ascii]
    the deliveries are the bytes the client wrote when these are ASCII. *)
Lemma framing_round_trip_of_deliveries (config : Config) (u v : string) (h : Z)
    (payload : Buffer) (chunks : list Buffer) (popByte : Buffer) (w : World) :
  Z.land h 0x80 = 0 ->
  Z.land h 0x7F = Z.of_nat (length payload) ->
  Forall (fun b => b <> []) chunks ->
  concat chunks = h :: payload ->
  Buffer_and popByte 0 0x80 <> 0 ->
  ready u w -> ready v w -> u <> v ->
  gKillMe w = false ->
  Z.of_nat (length (gLIFO w)) < maxStackSize config ->
  let w1 := run config (map (OnData u) chunks) w in
  let w2 := step config (OnData v popByte) w1 in
  endCalls (conn u w1) = [Some [0]] /\
  gLIFO w1 = gLIFO w ++ [payload] /\
  endCalls (conn v w2) = [Some (Z.of_nat (length payload) :: payload)] /\
  gLIFO w2 = gLIFO w.
Proof.
  intros Hh HL Hall Hcat Hpop Hu Hv Hne Hk Hroom w1 w2.
  destruct (push_request config u h payload chunks w) as (A & B & C);
    try assumption.
  fold w1 in A, B, C.
  destruct (step_pop config v popByte (gLIFO w) payload w1) as (D & E & F).
  - eapply ready_frame; [exact C | exact (not_eq_sym Hne) | exact Hv].
  - exact Hpop.
  - destruct C as (C1 & _). congruence.
  - exact A.
  - fold w2 in D, E, F. repeat split; try assumption.
    rewrite E. unfold popResponse.
    rewrite land_0x7F_small; [reflexivity|].
    pose proof (land_0x7F_range h). lia.
Qed.

(** C3, on the code.  A client writes the push request [02 FF FE]: the
    length 2 and a payload of two bytes that are not valid UTF-8.  The
    decoder installed by [client.setEncoding(null)] turns each payload
    byte into U+FFFD, the handler receives the seven bytes
    [02 EF BF BD EF BF BD], stores [EF BF], and the next client that pops
    is answered [02 EF BF]: not the bytes that were pushed.  When the
    same three bytes arrive one at a time, the second delivery alone
    brings three bytes, the payload stored is [EF BF BD], it is stored a
    second time when the third delivery arrives, [end] is called twice
    with 0x00, and the pop is answered [03 EF BF BD]. *)
Theorem C3_payload_that_is_not_UTF8_is_altered :
  let whole :=
    [Loop (OnConnection "a" 1000 1 1000); Chunk "a" [2; 0xFF; 0xFE];
     Loop (OnEnd "a");
     Loop (OnConnection "b" 1010 1 1010); Chunk "b" [0x80]] in
  let bytewise :=
    [Loop (OnConnection "a" 1000 1 1000); Chunk "a" [2]; Chunk "a" [0xFF];
     Chunk "a" [0xFE]; Loop (OnEnd "a");
     Loop (OnConnection "b" 1010 1 1010); Chunk "b" [0x80]] in
  delivered [2; 0xFF; 0xFE] = Some [2; 0xEF; 0xBF; 0xBD; 0xEF; 0xBF; 0xBD] /\
  gLIFO <$> serve config_two (take 2 whole) world_init = Some [[0xEF; 0xBF]] /\
  sent "a" <$> serve config_two whole world_init = Some [[0]] /\
  sent "b" <$> serve config_two whole world_init = Some [[2; 0xEF; 0xBF]] /\
  gLIFO <$> serve config_two (take 4 bytewise) world_init
  = Some [[0xEF; 0xBF; 0xBD]; [0xEF; 0xBF; 0xBD]] /\
  sent "a" <$> serve config_two bytewise world_init = Some [[0]; [0]] /\
  sent "b" <$> serve config_two bytewise world_init
  = Some [[3; 0xEF; 0xBF; 0xBD]].
Proof. vm_compute. repeat split; reflexivity. Qed.

(** C10 (a pop response never looks like the busy byte).  Whenever
    [checkStackEmpty] sends a response, that response is the payload taken
    from the top of the stack behind a header byte equal to the payload
    length masked with 0x7F; bit 7 of the header is 0, so the header differs
    from the admission-rejection byte 0xFF. *)
Theorem C10_pop_header_is_not_busy_byte (u : string) (w : World)
    (response : Buffer) :
  sent u (checkStackEmpty u w) = sent u w ++ [response] ->
  exists payload header,
    last (gLIFO w) = Some payload /\
    response = header :: payload /\
    header = Z.land (Z.of_nat (length payload)) 0x7F /\
    Z.testbit header 7 = false /\
    header <> 0xFF.
Proof.
  intros H.
  destruct (checkStackEmpty_cases u w)
    as [[E _]|[[E _]|(rest & payload & Hl & _ & _ & E)]]; rewrite E in H.
  - apply (f_equal length) in H. rewrite length_app in H. cbn in H. lia.
  - change (sent u w = sent u w ++ [response]) in H.
    apply (f_equal length) in H. rewrite length_app in H. cbn in H. lia.
  - rewrite sent_client_end_eq in H.
    change (sent u w ++ [popResponse payload] = sent u w ++ [response]) in H.
    apply app_inv_head in H. injection H as <-.
    exists payload, (Z.land (Z.of_nat (length payload)) 0x7F).
    split; [rewrite Hl; apply last_snoc|]. split; [reflexivity|].
    split; [reflexivity|]. split; [apply land_0x7F_bit7|].
    pose proof (land_0x7F_range (Z.of_nat (length payload))). lia.
Qed.

Lemma C10_pop_header_is_not_busy_byte_witness :
  exists payload header,
    last [[65; 66]] = Some payload /\
    [2; 65; 66] = header :: payload /\
    header = Z.land (Z.of_nat (length payload)) 0x7F /\
    Z.testbit header 7 = false /\
    header <> 0xFF.
Proof.
  refine (C10_pop_header_is_not_busy_byte "c"
            (set_gLIFO [[65; 66]] world_four) [2; 65; 66] _).
  vm_compute. reflexivity.
Defined.

(** C9 (shutdown abandonment).  [shutdown] is what the handlers of SIGINT,
    SIGTERM and ['uncaughtException'] run.  From the moment it has raised
    the halt flag, whatever happens next, the stack keeps the content it had
    and no client is sent any byte: in particular a push or pop that was
    waiting on a retry timer never completes and is never answered.  A retry
    callback that runs after the halt does nothing and is not armed again. *)
Theorem C9_halt_abandons_waiters (config : Config) (w : World)
    (evs : list Event) :
  let w' := run config evs (shutdown w) in
  gKillMe w' = true /\
  gLIFO w' = gLIFO w /\
  (forall u, sent u w' = sent u w) /\
  (forall i, runTimer config i w' = set_timers (delete i (timers w')) w') /\
  run config (OnSignal :: evs) w = w'.
Proof.
  intros w'. unfold w'.
  assert (Hk : gKillMe (shutdown w) = true) by reflexivity.
  assert (Hl : listening (shutdown w) = false) by reflexivity.
  destruct (run_halted config evs (shutdown w) Hk Hl) as [A B].
  destruct (run_flags_mono config evs (shutdown w)) as (C & _ & _).
  split; [now apply C|]. split; [exact A|]. split; [exact B|].
  split; [|reflexivity].
  intros i. apply runTimer_halted. now apply C.
Qed.

(** C2 (bounded capacity).  With a capacity [maxStackSize >= 0]:
    - along every run the size of the stack stays within the capacity (from
      the initial empty stack, and from any world within capacity);
    - a push that reaches [checkStackFull] while the stack is at capacity,
      with neither the halt flag nor the connection's [exitLoop] set, only
      arms a retry timer holding the same payload: no exception, no response,
      stack untouched;
    - as long as no turn of the event loop takes a payload off the full
      stack, the stack does not change and no known client is sent anything,
      so the waiting push has not completed;
    - after k = [maxStackSize] completed pushes on an empty stack, the
      request of a (k+1)-th client leaves the stack as it is, sends nothing
      and is pending on a timer with its payload. *)
Theorem C2_bounded_capacity (config : Config) :
  0 <= maxStackSize config ->
  (forall evs,
     Z.of_nat (length (gLIFO (run config evs world_init)))
     <= maxStackSize config) /\
  (forall evs w,
     Z.of_nat (length (gLIFO w)) <= maxStackSize config ->
     Z.of_nat (length (gLIFO (run config evs w))) <= maxStackSize config) /\
  (forall (u : string) (p : Buffer) (w : World),
     gKillMe w = false -> exitLoop (conn u w) = false ->
     Z.of_nat (length (gLIFO w)) = maxStackSize config ->
     checkStackFull config u p w = setTimeout (TimerFull u p) w) /\
  (forall evs w,
     Z.of_nat (length (gLIFO w)) = maxStackSize config ->
     no_pop config evs w ->
     gLIFO (run config evs w) = gLIFO w /\
     forall u, conns w !! u <> None -> sent u (run config evs w) = sent u w) /\
  (forall (pushers : list (string * Buffer)) (u : string) (p : Buffer)
          (w : World),
     gLIFO w = [] -> gKillMe w = false ->
     Z.of_nat (length pushers) = maxStackSize config ->
     NoDup (u :: pushers.*1) ->
     Forall (fun up => ready up.1 w /\ (length up.2 <= 127)%nat) pushers ->
     ready u w -> (length p <= 127)%nat ->
     let w1 :=
       run config (map (fun up => OnData up.1 (pushRequest up.2)) pushers) w in
     let w2 := step config (OnData u (pushRequest p)) w1 in
     gLIFO w1 = pushers.*2 /\
     gLIFO w2 = pushers.*2 /\
     sent u w2 = [] /\
     timers w2 = timers w ++ [TimerFull u p]).
Proof.
  intros Hmax. split; [|split; [|split; [|split]]].
  - intros evs. apply run_within_capacity. cbn. exact Hmax.
  - intros evs w. apply run_within_capacity.
  - intros u p w Hk He Hfull.
    destruct (checkStackFull_cases config u p w)
      as [[_ H]|[[H _]|(_ & _ & H & _)]].
    + rewrite Hk, He in H. discriminate.
    + exact H.
    + lia.
  - intros evs w Hfull. apply run_full_no_pop. lia.
  - intros pushers u p w Hempty Hk Hlen Hnd Hpush Hu Hp w1 w2.
    apply NoDup_cons in Hnd as [Hnotin Hnd].
    destruct (run_pushes config pushers w Hnd Hpush Hk) as (A & B & C).
    { rewrite Hempty. cbn [length]. lia. }
    fold w1 in A, B, C. rewrite Hempty in A. cbn [app] in A.
    assert (Hu1 : ready u w1) by (eapply ready_frame_out; eauto).
    assert (Hk1 : gKillMe w1 = false) by (destruct C as (C1 & _); congruence).
    assert (H128 : 0 <= Z.of_nat (length p) < 128) by lia.
    split; [exact A|]. unfold w2, pushRequest.
    rewrite (step_push_whole_full config u (Z.of_nat (length p)) p w1 Hu1
               (land_0x80_small _ H128));
      [| rewrite land_0x7F_small by lia; lia
       | exact Hk1
       | rewrite A, length_fmap; lia ].
    split; [exact A|]. split.
    + unfold sent, conn. cbn. now rewrite lookup_total_insert_eq.
    + cbn. destruct C as (_ & _ & _ & C4 & _). rewrite C4.
      rewrite land_0x7F_small, Nat2Z.id, firstn_all by lia. reflexivity.
Qed.

Lemma C2_bounded_capacity_witness :
  let w1 :=
    run config_small (map (fun up => OnData up.1 (pushRequest up.2))
                [("a", [65; 66]); ("b", [67; 68])]) world_four in
  let w2 := step config_small (OnData "c" (pushRequest [69])) w1 in
  gLIFO w1 = [[65; 66]; [67; 68]] /\
  gLIFO w2 = [[65; 66]; [67; 68]] /\
  sent "c" w2 = [] /\
  timers w2 = [TimerFull "c" [69]].
Proof.
  refine (proj2 (proj2 (proj2 (proj2 (C2_bounded_capacity config_small _))))
            [("a", [65; 66]); ("b", [67; 68])] "c" [69] world_four _ _ _ _ _ _ _).
  - vm_compute. discriminate.
  - reflexivity.
  - reflexivity.
  - reflexivity.
  - decide_now.
  - repeat (apply Forall_cons; split; [split; [ready_now | cbn; lia]|]).
    apply Forall_nil_2.
  - ready_now.
  - cbn. lia.
Defined.


(** C6, on the code.  The record of the new connection is inserted
    before the callback of [getConnections] runs, and the sort of
    [disconnectOldClient] runs over all keys of [gClients], that of the
    new connection included.  With [maxConnections = 0] and a stale period
    of zero the first connection overflows, is the only record, is its own
    candidate and, one millisecond later, is the one evicted: [end()] is
    called on the socket of the very client the eviction was to make room
    for.  And a connection registered with a timestamp below those of the
    others (the wall clock stepped back) is the candidate although others
    are live. *)
Lemma C6_new_connection_is_own_candidate :
  earliestUUID (connectionListener "a" 1000 world_init) = Some "a" /\
  history (step config_zero (OnConnection "a" 1000 1 1001) world_init)
  = [Registered "a"; Decided "a" (AcceptedEvicting "a")] /\
  endCalls (conn "a" (step config_zero (OnConnection "a" 1000 1 1001) world_init))
  = [None] /\
  earliestUUID
    (connectionListener "c" 4000
       (run config_two [OnConnection "a" 5000 1 5000; OnConnection "b" 6000 2 6000]
          world_init))
  = Some "c".
Proof. vm_compute. repeat split; reflexivity. Qed.

(** C4, on the code.  Bytes in excess in the delivery that carries the
    header are cut off ([step_push_whole]: the payload is the first L bytes).
    Not so in a later delivery.  Declared length 3: the first delivery brings
    the header and one byte, the second brings four bytes; the stack receives
    all five bytes.  And a delivery that arrives after a push has completed
    pushes the same payload a second time. *)
Theorem C4_excess_in_later_delivery_is_stored :
  let w1 := run config_two [OnConnection "a" 1000 1 1000;
                      OnData "a" [3; 65]; OnData "a" [66; 67; 68; 69]]
              world_init in
  let w2 := run config_two [OnConnection "a" 1000 1 1000;
                      OnData "a" [1; 65]; OnData "a" [66]]
              world_init in
  gLIFO w1 = [[65; 66; 67; 68; 69]] /\
  sent "a" w1 = [[0]] /\
  gLIFO w2 = [[65]; [65]].
Proof. vm_compute. repeat split; reflexivity. Qed.

(** A data delivery on an accepted connection whose record is gone (deleted
    by its ['end'] or ['error'] handler) makes the data handler throw, and
    the process goes through [shutdown]. *)
Lemma data_without_record_halts (config : Config) (u : string)
    (data : Buffer) (w : World) :
  conns w !! u <> None -> Obj.get u (gClients w) = None ->
  onData config u data w = Throw (mark (DataHandled u) w) /\
  gKillMe (step config (OnData u data) w) = true /\
  listening (step config (OnData u data) w) = false.
Proof.
  intros Hc Hg.
  assert (E : onData config u data w = Throw (mark (DataHandled u) w)).
  { unfold onData. cbn [gClients mark set_history]. now rewrite Hg. }
  split; [exact E|]. cbn [step].
  rewrite bool_decide_eq_false_2 by assumption. rewrite E.
  split; reflexivity.
Qed.

(** C7, on the code.  Client ["a"] pushes one byte and is answered, then
    sends one more byte: its state is still ['done'], the payload is
    pushed again and [end] is called a second time on its socket.  On the
    platform the README names (Node 10.13.0) this write after end raises
    ['error'] on the socket and leaves it open for reading; the ['error']
    handler removes the record of ["a"].  Meanwhile client ["c"] waits with
    a push on the full stack.  The next data delivery on ["a"] makes the
    data handler throw, the uncaught exception runs [shutdown], the server
    stops listening, and ["c"] is never answered nor its payload stored. *)
Theorem C7_data_after_error_halts_server :
  let evs := [OnConnection "a" 1000 1 1000;
              OnData "a" [1; 65]; OnData "a" [66]; OnError "a";
              OnConnection "c" 1001 2 1001; OnData "c" [1; 70]] in
  let w0 := run config_small (take 3 evs) world_init in
  let w := run config_small evs world_init in
  let w' := step config_small (OnData "a" [67]) w in
  endCalls (conn "a" w0) = [Some [0]; Some [0]] /\
  Obj.get "a" (gClients w) = None /\
  gKillMe w = false /\ listening w = true /\
  gLIFO w = [[65]; [65]] /\ timers w = [TimerFull "c" [70]] /\
  onData config_small "a" [67] w = Throw (mark (DataHandled "a") w) /\
  gKillMe w' = true /\ listening w' = false /\
  (forall more, gLIFO (run config_small more w') = [[65]; [65]] /\
                sent "c" (run config_small more w') = []).
Proof.
  intros evs w0 w w'.
  assert (Hk : gKillMe w' = true) by (vm_compute; reflexivity).
  assert (Hl : listening w' = false) by (vm_compute; reflexivity).
  split. vm_compute. reflexivity.
  split. vm_compute. reflexivity.
  split. vm_compute. reflexivity.
  split. vm_compute. reflexivity.
  split. vm_compute. reflexivity.
  split. vm_compute. reflexivity.
  split. vm_compute. reflexivity.
  split. exact Hk. split. exact Hl.
  intros more. destruct (run_halted config_small more w' Hk Hl) as [A B].
  rewrite A, B. split; vm_compute; reflexivity.
Qed.

(** * Further properties *)

(** ** What stays the same in a handler *)

Lemma steady_refl (w : World) : steady w w.
Proof. repeat split; auto. Qed.

Lemma steady_trans (w1 w2 w3 : World) :
  steady w1 w2 -> steady w2 w3 -> steady w1 w3.
Proof.
  intros (A1 & A2 & A3) (B1 & B2 & B3).
  split; [congruence|]. split; [congruence|].
  intros v. rewrite B3. apply A3.
Qed.

Lemma steady_update_conn (u : string) (f : Conn -> Conn) (w : World) :
  (forall c, exitLoop (f c) = exitLoop c) -> steady w (update_conn u f w).
Proof.
  intros Hf. split; [reflexivity|]. split; [reflexivity|].
  intros v. rewrite conn_update_conn.
  destruct (decide (u = v)) as [->|]; [apply Hf | reflexivity].
Qed.

Lemma steady_client_end (u : string) (d : option Buffer) (w : World) :
  steady w (client_end u d w).
Proof. apply steady_update_conn. reflexivity. Qed.

Lemma exitLoop_pushContinue (b : Buffer) (c : Conn) :
  exitLoop (pushContinue b c) = exitLoop c.
Proof. unfold pushContinue. cbv zeta. destruct (_ >=? _); reflexivity. Qed.

Lemma exitLoop_pushStart (b : Buffer) (c : Conn) :
  exitLoop (pushStart b c) = exitLoop c.
Proof. unfold pushStart. cbv zeta. destruct (_ >=? _); reflexivity. Qed.

Section Steady.

Variable config : Config.

Lemma steady_checkStackEmpty (u : string) (w : World) :
  steady w (checkStackEmpty u w).
Proof.
  destruct (checkStackEmpty_cases u w)
    as [[-> _]|[[-> _]|(rest & payload & _ & _ & _ & ->)]].
  - apply steady_refl.
  - repeat split; auto.
  - apply (steady_trans _ (set_gLIFO rest w));
      [repeat split; auto | apply steady_client_end].
Qed.

Lemma steady_checkStackFull (u : string) (p : Buffer) (w : World) :
  steady w (checkStackFull config u p w).
Proof.
  destruct (checkStackFull_cases config u p w)
    as [[-> _]|[[-> _]|(_ & _ & _ & ->)]].
  - apply steady_refl.
  - repeat split; auto.
  - apply (steady_trans _ (set_gLIFO (gLIFO w ++ [p]) w));
      [repeat split; auto | apply steady_client_end].
Qed.

Lemma steady_onDataState (u : string) (b : Buffer) (w : World) :
  steady w (onDataState u b w).
Proof.
  unfold onDataState.
  repeat match goal with
         | |- steady _ (if ?c then _ else _) => destruct c
         end; try apply steady_refl.
  - cbv zeta.
    eapply steady_trans;
      [apply (steady_update_conn u (set_state Pop)); reflexivity|].
    apply steady_checkStackEmpty.
  - apply steady_update_conn, exitLoop_pushContinue.
  - apply steady_update_conn, exitLoop_pushStart.
Qed.

Lemma steady_onDataDone (u : string) (w : World) :
  steady w (onDataDone config u w).
Proof.
  unfold onDataDone. destruct (bool_decide _); [|apply steady_refl].
  apply steady_checkStackFull.
Qed.

Lemma steady_onData (u : string) (b : Buffer) (w : World) :
  steady w (settle (onData config u b w)).
Proof.
  unfold onData.
  destruct (Obj.get u (gClients (mark (DataHandled u) w))) as [r|];
    cbn [settle]; [|repeat split; auto].
  cbv zeta.
  eapply steady_trans; [|apply steady_onDataDone].
  eapply steady_trans; [|apply steady_onDataState].
  destruct (Client.disconnect r); [|repeat split; auto].
  apply (steady_trans _ (mark (DataHandled u) w)); [repeat split; auto|].
  apply steady_update_conn. reflexivity.
Qed.

Lemma steady_runTimer (i : nat) (w : World) :
  steady w (runTimer config i w).
Proof.
  unfold runTimer. destruct (timers w !! i) as [[u|u p]|];
    [| |apply steady_refl]; cbv zeta.
  - eapply steady_trans; [|apply steady_checkStackEmpty]. repeat split; auto.
  - eapply steady_trans; [|apply steady_checkStackFull]. repeat split; auto.
Qed.

End Steady.

(** ** Admission *)

Lemma elapsed_le_seconds (d s : Z) :
  (inject_Z d / 1000 <= inject_Z s)%Q <-> d <= 1000 * s.
Proof.
  unfold Qle, Qdiv, Qmult, Qinv, inject_Z. cbn. lia.
Qed.

Section Admitting.

Variable config : Config.

(** X1 (disconnectOldClient on an empty registry).  [disconnectOldClient]
    throws, reading [gClients[sorted[0]]] with [sorted[0]] undefined,
    exactly when the registry holds no record; on any other registry it
    returns a result. *)
Theorem disconnectOldClient_throws_iff_empty (dateNow : Z) (w : World) :
  disconnectOldClient config dateNow w = None <-> gClients w = [].
Proof.
  split.
  - intros H. unfold disconnectOldClient in H.
    destruct (earliestUUID w) as [e|] eqn:He.
    + destruct (earliestUUID_least w e He) as (r & Hr & _).
      rewrite Hr in H. cbv zeta in H. destruct (Qgt_bool _ _); discriminate.
    + rewrite earliestUUID_earliest in He. apply earliest_None in He.
      unfold Obj.keys in He. now apply map_eq_nil in He.
  - intros H. unfold disconnectOldClient, earliestUUID, sorted. now rewrite H.
Qed.

(** X2 (the stale period in milliseconds).  When
    [staleConnectionPeriodSeconds] is a whole number of seconds,
    [disconnectOldClient] designates the oldest record for disconnection
    when [Date.now()] is more than 1000 times that number of milliseconds
    after the timestamp of the record; at exactly that distance, and below
    it, the answer is [disconnect: false] with an empty uuid. *)
Theorem stale_boundary_in_milliseconds (seconds dateNow : Z) (w : World)
    (e : string) (r : Client.t) :
  staleConnectionPeriodSeconds config = inject_Z seconds ->
  earliestUUID w = Some e -> Obj.get e (gClients w) = Some r ->
  (1000 * seconds < dateNow - Client.timestamp r ->
   disconnectOldClient config dateNow w = Some (Result.mk true e)) /\
  (dateNow - Client.timestamp r <= 1000 * seconds ->
   disconnectOldClient config dateNow w = Some (Result.mk false "")).
Proof.
  intros Hs He Hr.
  rewrite (disconnectOldClient_eq config dateNow w e r He Hr), Hs.
  unfold elapsedTimeSeconds.
  destruct (Qgt_bool _ _) eqn:Hq.
  - apply Qgt_bool_true in Hq. rewrite elapsed_le_seconds in Hq.
    split; [reflexivity | lia].
  - apply Qgt_bool_false in Hq. rewrite elapsed_le_seconds in Hq.
    split; [lia | reflexivity].
Qed.

Lemma gClients_connectionListener_eq (u : string) (now : Z) (w : World) :
  gClients (connectionListener u now w)
  = Obj.set u (Client.mk now u (gConnectionsMade w + 1) false) (gClients w).
Proof. reflexivity. Qed.

(** The three outcomes of accepting a connection. *)
Lemma accept_outcomes (u : string) (now connections dateNow : Z) (w : World) :
  let w1 := connectionListener u now w in
  let w' := settle (getConnectionsCallback config u connections dateNow w1) in
  w' = mark (Decided u Accepted) w1
  \/ (exists e r,
        Obj.get e (gClients w1) = Some r /\
        w' = mark (Decided u (AcceptedEvicting e))
               (set_gClients (Obj.set e (marked r) (gClients w1))
                  (client_end (Client.client r) None w1)))
  \/ w' = mark (Decided u Rejected)
            (update_conn u (set_state Disconnect)
               (client_end u (Some [0xFF]) w1)).
Proof.
  intros w1 w'. unfold w'.
  assert (Hu1 : exists rec, Obj.get u (gClients w1) = Some rec).
  { unfold w1. rewrite gClients_connectionListener_eq, Obj_get_set.
    destruct (decide (u = u)); [eauto | congruence]. }
  destruct Hu1 as (rec & Hu1).
  unfold getConnectionsCallback.
  destruct (connections >? maxConnections config); [|left; reflexivity].
  destruct (registry_nonempty_earliest w1 u rec Hu1) as (e & r & He & Hr).
  rewrite (disconnectOldClient_eq config dateNow w1 e r He Hr).
  destruct (Qgt_bool _ _); cbn [Result.disconnect Result.uuid].
  - rewrite Hr. right; left. exists e, r. split; [exact Hr | reflexivity].
  - right; right. reflexivity.
Qed.

(** X3 (accepting a connection never fails).  Whatever the count of
    connections and the clock, the acceptance of a connection by a
    listening server does not throw: the halt flag, the server, the stack
    and the pending retries are as before, [gConnectionsMade] is one more,
    and the registry holds, under the new uuid, a record with the time of
    acceptance, the socket of the connection, and the new value of
    [gConnectionsMade] as its counter. *)
Theorem accept_keeps_server_up (u : string) (now connections dateNow : Z)
    (w : World) :
  listening w = true -> conns w !! u = None ->
  let w' := step config (OnConnection u now connections dateNow) w in
  gKillMe w' = gKillMe w /\ listening w' = true /\
  gLIFO w' = gLIFO w /\ timers w' = timers w /\
  gConnectionsMade w' = gConnectionsMade w + 1 /\
  exists r, Obj.get u (gClients w') = Some r /\
            Client.timestamp r = now /\ Client.client r = u /\
            Client.counter r = gConnectionsMade w + 1.
Proof.
  intros Hl Hu w'. unfold w'. cbn [step].
  rewrite Hl, bool_decide_eq_true_2 by assumption. cbn [andb].
  assert (Hu1 : Obj.get u (gClients (connectionListener u now w))
                = Some (Client.mk now u (gConnectionsMade w + 1) false)).
  { rewrite gClients_connectionListener_eq, Obj_get_set.
    destruct (decide (u = u)); congruence. }
  destruct (accept_outcomes u now connections dateNow w)
    as [->|[(e & r & Hr & ->)| ->]].
  - repeat (split; [first [reflexivity | exact Hl]|]). eauto.
  - repeat (split; [first [reflexivity | exact Hl]|]).
    cbn [gClients mark set_history set_gClients]. rewrite Obj_get_set.
    destruct (decide (u = e)) as [->|]; [|eauto].
    rewrite Hu1 in Hr. injection Hr as <-. eexists. split; [reflexivity|].
    repeat split.
  - repeat (split; [first [reflexivity | exact Hl]|]). eauto.
Qed.

End Admitting.

Lemma stale_boundary_in_milliseconds_witness :
  (1000 * 10 < 11001 - 1000 ->
   disconnectOldClient config_two 11001 world_two = Some (Result.mk true "a")) /\
  (11001 - 1000 <= 1000 * 10 ->
   disconnectOldClient config_two 11001 world_two = Some (Result.mk false "")).
Proof.
  apply (stale_boundary_in_milliseconds config_two 10 11001 world_two "a"
           (Client.mk 1000 "a" 1 false)).
  - reflexivity.
  - vm_compute. reflexivity.
  - vm_compute. reflexivity.
Defined.

Lemma accept_keeps_server_up_witness :
  let w' := step config_two (OnConnection "c" 9000 3 9000) world_two in
  gKillMe w' = gKillMe world_two /\ listening w' = true /\
  gLIFO w' = gLIFO world_two /\ timers w' = timers world_two /\
  gConnectionsMade w' = gConnectionsMade world_two + 1 /\
  exists r, Obj.get "c" (gClients w') = Some r /\
            Client.timestamp r = 9000 /\ Client.client r = "c" /\
            Client.counter r = gConnectionsMade world_two + 1.
Proof.
  apply (accept_keeps_server_up config_two "c" 9000 3 9000 world_two).
  - vm_compute. reflexivity.
  - vm_compute. reflexivity.
Defined.

(** ** Requests, turns and waiting requests *)

Lemma ready_same (u : string) (w w' : World) :
  conns w' !! u = conns w !! u -> gClients w' = gClients w ->
  ready u w -> ready u w'.
Proof.
  intros Hc Hg [H1 H2]. split; [congruence|].
  unfold registered. now rewrite Hg.
Qed.

Lemma popResponse_short (p : Buffer) :
  (length p <= 127)%nat -> popResponse p = Z.of_nat (length p) :: p.
Proof. intros H. unfold popResponse. rewrite land_0x7F_small by lia. reflexivity. Qed.

Section Scenarios.

Variable config : Config.

(** *** The retry timers *)

Lemma runTimer_empty_retry (i : nat) (v : string) (w : World) :
  timers w !! i = Some (TimerEmpty v) ->
  gKillMe w = false -> exitLoop (conn v w) = false -> gLIFO w = [] ->
  runTimer config i w = set_timers (delete i (timers w) ++ [TimerEmpty v]) w.
Proof.
  intros Ht Hk He Hl. unfold runTimer. rewrite Ht. cbv zeta.
  unfold checkStackEmpty.
  change (conn v (set_timers (delete i (timers w)) w)) with (conn v w).
  cbn [gKillMe gLIFO set_timers]. rewrite Hk, He, Hl. reflexivity.
Qed.

Lemma runTimer_empty_serve (i : nat) (v : string) (rest : list Buffer)
    (p : Buffer) (w : World) :
  timers w !! i = Some (TimerEmpty v) ->
  gKillMe w = false -> exitLoop (conn v w) = false -> gLIFO w = rest ++ [p] ->
  runTimer config i w
  = client_end v (Some (popResponse p))
      (set_gLIFO rest (set_timers (delete i (timers w)) w)).
Proof.
  intros Ht Hk He Hl. unfold runTimer. rewrite Ht. cbv zeta.
  destruct (checkStackEmpty_cases v (set_timers (delete i (timers w)) w))
    as [[_ H]|[(_ & _ & _ & H)|(rest' & p' & H1 & _ & _ & ->)]].
  - change (conn v (set_timers (delete i (timers w)) w)) with (conn v w) in H.
    cbn [gKillMe set_timers] in H. rewrite Hk, He in H. discriminate.
  - cbn [gLIFO set_timers] in H. rewrite Hl in H. now destruct rest.
  - cbn [gLIFO set_timers] in H1. rewrite Hl in H1.
    apply app_inj_tail in H1 as [-> ->]. reflexivity.
Qed.

Lemma runTimer_full_retry (i : nat) (u : string) (p : Buffer) (w : World) :
  timers w !! i = Some (TimerFull u p) ->
  gKillMe w = false -> exitLoop (conn u w) = false ->
  maxStackSize config <= Z.of_nat (length (gLIFO w)) ->
  runTimer config i w = set_timers (delete i (timers w) ++ [TimerFull u p]) w.
Proof.
  intros Ht Hk He Hl. unfold runTimer. rewrite Ht. cbv zeta.
  unfold checkStackFull.
  change (conn u (set_timers (delete i (timers w)) w)) with (conn u w).
  cbn [gKillMe gLIFO set_timers]. rewrite Hk, He. cbn [orb].
  destruct (Z.ltb_spec (Z.of_nat (length (gLIFO w))) (maxStackSize config));
    [lia | reflexivity].
Qed.

Lemma runTimer_full_serve (i : nat) (u : string) (p : Buffer) (w : World) :
  timers w !! i = Some (TimerFull u p) ->
  gKillMe w = false -> exitLoop (conn u w) = false ->
  Z.of_nat (length (gLIFO w)) < maxStackSize config ->
  runTimer config i w
  = client_end u (Some [0])
      (set_gLIFO (gLIFO w ++ [p]) (set_timers (delete i (timers w)) w)).
Proof.
  intros Ht Hk He Hl. unfold runTimer. rewrite Ht. cbv zeta.
  unfold checkStackFull.
  change (conn u (set_timers (delete i (timers w)) w)) with (conn u w).
  cbn [gKillMe gLIFO set_timers]. rewrite Hk, He. cbn [orb].
  destruct (Z.ltb_spec (Z.of_nat (length (gLIFO w))) (maxStackSize config));
    [reflexivity | lia].
Qed.

(** A retry that finds nothing changed puts the world back as it was. *)
Lemma retry_last_fixpoint (ts : list Timer) (t : Timer) (w : World) :
  timers w = ts ++ [t] ->
  runTimer config (length ts) w = set_timers (delete (length ts) (timers w) ++ [t]) w ->
  step config (OnTimer (length ts)) w = w.
Proof.
  intros Ht H. cbn [step]. rewrite H, Ht, delete_middle, app_nil_r.
  destruct w; cbn in *. now subst.
Qed.

Lemma run_repeat_fixpoint (e : Event) (w : World) (n : nat) :
  step config e w = w -> run config (repeat e n) w = w.
Proof.
  intros H. induction n as [|n IH]; [reflexivity|].
  cbn [repeat run]. now rewrite H.
Qed.

(** A pop request on the empty stack arms a retry and sends nothing. *)
Lemma step_pop_empty_eq (v : string) (b : Buffer) (w : World) :
  ready v w -> Buffer_and b 0 0x80 <> 0 ->
  gKillMe w = false -> gLIFO w = [] ->
  step config (OnData v b) w
  = setTimeout (TimerEmpty v)
      (set_conns (<[v := waiting_conn]> (conns w)) (mark (DataHandled v) w)).
Proof.
  intros [Hc Hr] Hb Hk Hl.
  cbn [step]. rewrite bool_decide_eq_false_2 by (rewrite Hc; discriminate).
  rewrite onData_registered by assumption. cbn [settle].
  assert (Hcu : conn v (mark (DataHandled v) w) = conn_init)
    by (apply conn_lookup; exact Hc).
  rewrite onDataState_Start_pop by (now rewrite ?Hcu).
  unfold onDataDone.
  rewrite state_checkStackEmpty, conn_update_conn_eq, Hcu.
  cbn [state set_state conn_init].
  rewrite bool_decide_eq_false_2 by discriminate.
  destruct (checkStackEmpty_cases v
              (update_conn v (set_state Pop) (mark (DataHandled v) w)))
    as [[_ H]|[(-> & _)|(rest' & p' & H1 & _)]].
  - rewrite conn_update_conn_eq, Hcu in H. cbn in H. rewrite Hk in H. discriminate.
  - unfold update_conn. rewrite Hcu. reflexivity.
  - cbn [gLIFO update_conn set_conns mark set_history] in H1.
    rewrite Hl in H1. now destruct rest'.
Qed.

(** X4 (a pop request is read by bit 7 alone).  On a connection that is
    not in the middle of a push, two deliveries whose first byte has bit 7
    set have the same effect, whatever the other bits of that byte and
    whatever bytes follow it. *)
Theorem pop_request_read_by_bit7_only (u : string) (b1 b2 : Buffer) (w : World) :
  state (conn u w) <> Push ->
  Buffer_and b1 0 0x80 <> 0 -> Buffer_and b2 0 0x80 <> 0 ->
  step config (OnData u b1) w = step config (OnData u b2) w.
Proof.
  intros Hs H1 H2. cbn [step]. destruct (bool_decide _); [reflexivity|].
  f_equal. unfold onData. cbv zeta.
  destruct (Obj.get u (gClients (mark (DataHandled u) w))) as [r|];
    [|reflexivity].
  f_equal. f_equal.
  set (w0 := if Client.disconnect r
             then update_conn u (set_state Disconnect) (mark (DataHandled u) w)
             else mark (DataHandled u) w).
  assert (Hs0 : state (conn u w0) <> Push).
  { unfold w0. destruct (Client.disconnect r).
    - rewrite conn_update_conn_eq. discriminate.
    - exact Hs. }
  unfold onDataState.
  apply Z.eqb_neq in H1, H2. rewrite H1, H2. cbn [negb].
  rewrite (bool_decide_eq_false_2 (state (conn u w0) = Push)) by exact Hs0.
  destruct (bool_decide (state (conn u w0) = Start)); reflexivity.
Qed.

(** X5 (excess bytes in the header delivery).  When the first delivery of
    a push holds at least the [L] bytes its header declares, the payload
    stored is cut at the declared length: the stack receives the first [L]
    bytes after the header, the push is acknowledged with one zero byte,
    and a pop by another connection returns the byte [L] followed by those
    [L] bytes, which leaves the stack as it was. *)
Theorem push_excess_in_header_delivery_dropped (u v : string) (h : Z)
    (rest popByte : Buffer) (w : World) :
  ready u w -> ready v w -> u <> v ->
  Z.land h 0x80 = 0 ->
  Z.land h 0x7F <= Z.of_nat (length rest) ->
  Buffer_and popByte 0 0x80 <> 0 ->
  gKillMe w = false ->
  Z.of_nat (length (gLIFO w)) < maxStackSize config ->
  let w1 := step config (OnData u (h :: rest)) w in
  let w2 := step config (OnData v popByte) w1 in
  gLIFO w1 = gLIFO w ++ [take (Z.to_nat (Z.land h 0x7F)) rest] /\
  sent u w2 = [[0]] /\
  sent v w2 = [Z.land h 0x7F :: take (Z.to_nat (Z.land h 0x7F)) rest] /\
  gLIFO w2 = gLIFO w.
Proof.
  intros Hu Hv Huv Hh Hge Hb Hk Hroom w1 w2.
  destruct (step_push_whole config u h rest w Hu Hh Hge Hk Hroom)
    as (A & B & C).
  fold w1 in A, B, C.
  assert (Hv1 : ready v w1) by (eapply ready_frame; eauto).
  assert (Hk1 : gKillMe w1 = false) by (destruct C as (C1 & _); congruence).
  destruct (step_pop config v popByte (gLIFO w)
              (take (Z.to_nat (Z.land h 0x7F)) rest) w1 Hv1 Hb Hk1 A)
    as (D & E & F).
  fold w2 in D, E, F.
  split; [exact A|]. split; [|split; [|exact D]].
  - unfold sent. destruct F as (_ & _ & _ & _ & F).
    rewrite (conn_same u w1 w2 (F u Huv)), B. reflexivity.
  - unfold sent. rewrite E. cbn. unfold popResponse.
    pose proof (land_0x7F_range h) as Hrange.
    rewrite length_take, Nat2Z.inj_min, Z2Nat.id by lia.
    rewrite Z.min_l by lia. rewrite land_0x7F_small by lia. reflexivity.
Qed.

(** *** A turn and the stack *)


Lemma step_sent_grows (e : Event) (w : World) (v : string) :
  exists m, sent v (step config e w) = sent v w ++ m /\ Forall response_form m.
Proof.
  destruct (step_effect config e w) as [A B|u A _ _ B C|u p _ A B C D|u p _ A B C].
  - exists []. rewrite B, app_nil_r. split; [reflexivity | constructor].
  - destruct (decide (v = u)) as [->|Hne].
    + exists [[0xFF]]. split; [exact B|]. repeat constructor.
    + exists []. rewrite (C v Hne), app_nil_r. split; [reflexivity | constructor].
  - destruct (decide (v = u)) as [->|Hne].
    + exists [[0]]. split; [exact C|].
      constructor; [right; left; reflexivity | constructor].
    + exists []. rewrite (D v Hne), app_nil_r. split; [reflexivity | constructor].
  - destruct (decide (v = u)) as [->|Hne].
    + exists [popResponse p]. split; [exact B|].
      constructor; [right; right; eauto | constructor].
    + exists []. rewrite (C v Hne), app_nil_r. split; [reflexivity | constructor].
Qed.

(** X7 (what the server writes).  Along any run from any state, what a
    connection was sent only grows, and every buffer added is the busy
    byte [0xFF], the acknowledgement [0x00], or a pop response: a payload
    behind the low seven bits of its length. *)
Theorem responses_have_three_forms (evs : list Event) (w : World) (v : string) :
  exists m, sent v (run config evs w) = sent v w ++ m /\ Forall response_form m.
Proof.
  revert w. induction evs as [|e evs IH]; intros w.
  - exists []. cbn. rewrite app_nil_r. split; [reflexivity | constructor].
  - cbn [run]. destruct (IH (step config e w)) as (m2 & H2 & F2).
    destruct (step_sent_grows e w v) as (m1 & H1 & F1).
    exists (m1 ++ m2). rewrite H2, H1, app_assoc.
    split; [reflexivity | now apply Forall_app].
Qed.

(** *** Waiting requests *)

(** X8 (a pop on the empty stack waits for a push).  A pop request on the
    empty stack arms a retry and sends nothing, and the retry can run any
    number of times without changing that.  Once another connection has
    pushed a payload, the next run of the retry sends the popper that
    payload behind its length, and leaves the stack empty and no retry of
    the popper pending. *)
Theorem blocked_pop_is_served_by_later_push (u v : string) (popByte p : Buffer)
    (retries : nat) (w : World) :
  ready u w -> ready v w -> u <> v ->
  Buffer_and popByte 0 0x80 <> 0 -> (length p <= 127)%nat ->
  gKillMe w = false -> gLIFO w = [] -> 0 < maxStackSize config ->
  let retry := OnTimer (length (timers w)) in
  let w1 := run config (OnData v popByte :: repeat retry retries) w in
  let w2 := step config (OnData u (pushRequest p)) w1 in
  let w3 := step config retry w2 in
  (sent v w1 = [] /\ timers w1 = timers w ++ [TimerEmpty v]) /\
  (gLIFO w2 = [p] /\ sent v w2 = []) /\
  (sent v w3 = [Z.of_nat (length p) :: p] /\ sent u w3 = [[0]] /\
   gLIFO w3 = [] /\ timers w3 = timers w).
Proof.
  intros Hu Hv Huv Hb Hp Hk Hl Hmax retry w1 w2 w3.
  set (w0 := step config (OnData v popByte) w).
  assert (E0 : w0 = setTimeout (TimerEmpty v)
                 (set_conns (<[v := waiting_conn]> (conns w))
                    (mark (DataHandled v) w)))
    by (apply step_pop_empty_eq; assumption).
  assert (T0 : timers w0 = timers w ++ [TimerEmpty v]) by (now rewrite E0).
  assert (C0 : conn v w0 = waiting_conn).
  { rewrite E0. unfold conn. cbn. apply lookup_total_insert_eq. }
  assert (K0 : gKillMe w0 = false) by (now rewrite E0).
  assert (L0 : gLIFO w0 = []) by (now rewrite E0).
  assert (R0 : step config retry w0 = w0).
  { apply (retry_last_fixpoint (timers w) (TimerEmpty v)); [exact T0|].
    apply runTimer_empty_retry; [|exact K0|now rewrite C0|exact L0].
    rewrite T0. now apply list_lookup_middle. }
  assert (E1 : w1 = w0).
  { unfold w1. cbn [run]. fold w0. now apply run_repeat_fixpoint. }
  assert (U1 : ready u w1).
  { rewrite E1. apply (ready_same u w); [| |exact Hu].
    - rewrite E0. cbn. now rewrite lookup_insert_ne.
    - now rewrite E0. }
  assert (H2 := step_push_whole_eq config u (Z.of_nat (length p)) p w1 U1).
  rewrite land_0x7F_small in H2 by lia.
  fold (pushRequest p) in H2. fold w2 in H2.
  rewrite Nat2Z.id, firstn_all in H2.
  specialize (H2 (land_0x80_small (Z.of_nat (length p)) ltac:(lia)) ltac:(lia)
                 ltac:(now rewrite E1) ltac:(rewrite E1, L0; cbn; lia)).
  assert (L2 : gLIFO w2 = [] ++ [p]) by (now rewrite H2, E1, L0).
  assert (C2 : conn v w2 = waiting_conn).
  { rewrite <- C0, <- E1. apply conn_same. rewrite H2. cbn.
    now rewrite lookup_insert_ne. }
  assert (T2 : timers w2 = timers w ++ [TimerEmpty v]) by (now rewrite H2, E1).
  assert (H3 : w3 = client_end v (Some (popResponse p))
                 (set_gLIFO [] (set_timers (delete (length (timers w)) (timers w2)) w2))).
  { apply runTimer_empty_serve; [|now rewrite H2, E1|now rewrite C2|exact L2].
    rewrite T2. now apply list_lookup_middle. }
  split; [|split].
  - rewrite E1. split; [|exact T0]. unfold sent. now rewrite C0.
  - split; [exact L2|]. unfold sent. now rewrite C2.
  - split; [|split; [|split]].
    + rewrite H3. unfold sent. rewrite conn_client_end.
      destruct (decide (v = v)); [|congruence].
      change (conn v (set_gLIFO [] (set_timers (delete (length (timers w)) (timers w2)) w2)))
        with (conn v w2).
      rewrite C2. cbn. now rewrite popResponse_short.
    + rewrite H3. rewrite sent_client_end_ne by congruence.
      unfold sent.
      change (conn u (set_gLIFO [] (set_timers (delete (length (timers w)) (timers w2)) w2)))
        with (conn u w2).
      rewrite H2. unfold conn. cbn. now rewrite lookup_total_insert_eq.
    + now rewrite H3.
    + rewrite H3. cbn [timers client_end update_conn set_conns set_gLIFO set_timers]. rewrite T2, delete_middle. apply app_nil_r.
Qed.

(** X9 (a push on the full stack waits for a pop).  A push request that
    completes while the stack holds [maxStackSize] payloads arms a retry,
    is not acknowledged, and the retry can run any number of times without
    changing that.  Once another connection has popped the top payload,
    the next run of the retry puts the waiting payload in its place and
    acknowledges the push. *)
Theorem deferred_push_completes_after_pop (u v : string) (popByte p q : Buffer)
    (rest : list Buffer) (retries : nat) (w : World) :
  ready u w -> ready v w -> u <> v ->
  Buffer_and popByte 0 0x80 <> 0 -> (length p <= 127)%nat ->
  gKillMe w = false -> gLIFO w = rest ++ [q] ->
  Z.of_nat (length (gLIFO w)) = maxStackSize config ->
  let retry := OnTimer (length (timers w)) in
  let w1 := run config (OnData u (pushRequest p) :: repeat retry retries) w in
  let w2 := step config (OnData v popByte) w1 in
  let w3 := step config retry w2 in
  (gLIFO w1 = rest ++ [q] /\ sent u w1 = [] /\
   timers w1 = timers w ++ [TimerFull u p]) /\
  (gLIFO w2 = rest /\ sent v w2 = [popResponse q] /\ sent u w2 = []) /\
  (gLIFO w3 = rest ++ [p] /\ sent u w3 = [[0]] /\ timers w3 = timers w).
Proof.
  intros Hu Hv Huv Hb Hp Hk Hl Hfull retry w1 w2 w3.
  set (w0 := step config (OnData u (pushRequest p)) w).
  assert (E0 := step_push_whole_full config u (Z.of_nat (length p)) p w Hu).
  rewrite land_0x7F_small in E0 by lia.
  fold (pushRequest p) in E0. fold w0 in E0.
  rewrite Nat2Z.id, firstn_all in E0.
  specialize (E0 (land_0x80_small (Z.of_nat (length p)) ltac:(lia)) ltac:(lia) Hk ltac:(lia)).
  assert (T0 : timers w0 = timers w ++ [TimerFull u p]) by (now rewrite E0).
  assert (C0 : conn u w0 = whole_conn (Z.of_nat (length p)) p []).
  { rewrite E0. unfold conn. cbn. apply lookup_total_insert_eq. }
  assert (K0 : gKillMe w0 = false) by (now rewrite E0).
  assert (L0 : gLIFO w0 = rest ++ [q]) by (now rewrite E0).
  assert (R0 : step config retry w0 = w0).
  { apply (retry_last_fixpoint (timers w) (TimerFull u p)); [exact T0|].
    apply runTimer_full_retry; [|exact K0|now rewrite C0|].
    - rewrite T0. now apply list_lookup_middle.
    - rewrite L0, <- Hl. lia. }
  assert (E1 : w1 = w0).
  { unfold w1. cbn [run]. fold w0. now apply run_repeat_fixpoint. }
  assert (V1 : ready v w1).
  { rewrite E1. apply (ready_same v w); [| |exact Hv].
    - rewrite E0. cbn. rewrite lookup_insert_ne; congruence.
    - now rewrite E0. }
  assert (H2 : w2 = set_gLIFO rest
                 (set_conns (<[v := popped_conn q]> (conns w1))
                    (mark (DataHandled v) w1))).
  { apply step_pop_eq; [exact V1|exact Hb|now rewrite E1|now rewrite E1]. }
  assert (C2 : conn u w2 = whole_conn (Z.of_nat (length p)) p []).
  { rewrite <- C0, <- E1. apply conn_same. rewrite H2. cbn.
    rewrite lookup_insert_ne; congruence. }
  assert (T2 : timers w2 = timers w ++ [TimerFull u p]) by (now rewrite H2, E1).
  assert (L2 : gLIFO w2 = rest) by (now rewrite H2).
  assert (H3 : w3 = client_end u (Some [0])
                 (set_gLIFO (gLIFO w2 ++ [p])
                    (set_timers (delete (length (timers w)) (timers w2)) w2))).
  { apply runTimer_full_serve; [|now rewrite H2, E1|now rewrite C2|].
    - rewrite T2. now apply list_lookup_middle.
    - rewrite L2, <- Hfull, Hl, length_app. cbn. lia. }
  split; [|split].
  - rewrite E1. split; [exact L0|]. split; [|exact T0].
    unfold sent. now rewrite C0.
  - split; [exact L2|]. split.
    + rewrite H2. unfold sent, conn. cbn. now rewrite lookup_total_insert_eq.
    + unfold sent. now rewrite C2.
  - split; [|split].
    + rewrite H3. cbn [gLIFO client_end update_conn set_conns set_gLIFO set_timers]. now rewrite L2.
    + rewrite H3. unfold sent. rewrite conn_client_end.
      destruct (decide (u = u)); [|congruence].
      change (conn u (set_gLIFO (gLIFO w2 ++ [p])
                        (set_timers (delete (length (timers w)) (timers w2)) w2)))
        with (conn u w2).
      rewrite C2. reflexivity.
    + rewrite H3. cbn [timers client_end update_conn set_conns set_gLIFO set_timers]. rewrite T2, delete_middle. apply app_nil_r.
Qed.

End Scenarios.

Lemma pop_request_read_by_bit7_only_witness :
  step config_small (OnData "a" [0x80]) world_four
  = step config_small (OnData "a" [0xFF; 1; 2]) world_four.
Proof.
  apply (pop_request_read_by_bit7_only config_small "a" [0x80] [0xFF; 1; 2]
           world_four).
  - vm_compute. discriminate.
  - vm_compute. discriminate.
  - vm_compute. discriminate.
Defined.

Lemma push_excess_in_header_delivery_dropped_witness :
  let w1 := step config_small (OnData "a" [2; 65; 66; 67; 68]) world_four in
  let w2 := step config_small (OnData "b" [0x80]) w1 in
  gLIFO w1 = gLIFO world_four ++ [take (Z.to_nat (Z.land 2 0x7F)) [65; 66; 67; 68]] /\
  sent "a" w2 = [[0]] /\
  sent "b" w2 = [Z.land 2 0x7F :: take (Z.to_nat (Z.land 2 0x7F)) [65; 66; 67; 68]] /\
  gLIFO w2 = gLIFO world_four.
Proof.
  apply (push_excess_in_header_delivery_dropped config_small "a" "b" 2
           [65; 66; 67; 68] [0x80] world_four).
  - ready_now.
  - ready_now.
  - discriminate.
  - reflexivity.
  - vm_compute. discriminate.
  - vm_compute. discriminate.
  - vm_compute. reflexivity.
  - vm_compute. reflexivity.
Defined.

Lemma blocked_pop_is_served_by_later_push_witness :
  let retry := OnTimer (length (timers world_four)) in
  let w1 := run config_small (OnData "b" [0x80] :: repeat retry 3) world_four in
  let w2 := step config_small (OnData "a" (pushRequest [65; 66])) w1 in
  let w3 := step config_small retry w2 in
  (sent "b" w1 = [] /\ timers w1 = timers world_four ++ [TimerEmpty "b"]) /\
  (gLIFO w2 = [[65; 66]] /\ sent "b" w2 = []) /\
  (sent "b" w3 = [Z.of_nat (length [65; 66]) :: [65; 66]] /\ sent "a" w3 = [[0]] /\
   gLIFO w3 = [] /\ timers w3 = timers world_four).
Proof.
  apply (blocked_pop_is_served_by_later_push config_small "a" "b" [0x80]
           [65; 66] 3 world_four).
  - ready_now.
  - ready_now.
  - discriminate.
  - vm_compute. discriminate.
  - cbn. lia.
  - vm_compute. reflexivity.
  - vm_compute. reflexivity.
  - vm_compute. reflexivity.
Defined.

Lemma deferred_push_completes_after_pop_witness :
  let retry := OnTimer (length (timers world_full)) in
  let w1 := run config_small (OnData "c" (pushRequest [69]) :: repeat retry 3)
              world_full in
  let w2 := step config_small (OnData "d" [0x80]) w1 in
  let w3 := step config_small retry w2 in
  (gLIFO w1 = [[65; 66]] ++ [[67; 68]] /\ sent "c" w1 = [] /\
   timers w1 = timers world_full ++ [TimerFull "c" [69]]) /\
  (gLIFO w2 = [[65; 66]] /\ sent "d" w2 = [popResponse [67; 68]] /\
   sent "c" w2 = []) /\
  (gLIFO w3 = [[65; 66]] ++ [[69]] /\ sent "c" w3 = [[0]] /\
   timers w3 = timers world_full).
Proof.
  apply (deferred_push_completes_after_pop config_small "c" "d" [0x80] [69]
           [67; 68] [[65; 66]] 3 world_full).
  - ready_now.
  - ready_now.
  - discriminate.
  - vm_compute. discriminate.
  - cbn. lia.
  - vm_compute. reflexivity.
  - vm_compute. reflexivity.
  - vm_compute. reflexivity.
Defined.

(** ** Connections that left, and a server that closed *)

Lemma size_same_keys (m m' : gmap string Conn) :
  (forall v, m' !! v = None <-> m !! v = None) -> size m' = size m.
Proof.
  intros H. rewrite <- !(size_dom (D := gset string)). f_equal.
  apply set_eq. intros v. rewrite !elem_of_dom, <- !not_eq_None_Some, H.
  reflexivity.
Qed.

Section Ended.

Variable config : Config.

Lemma known_step (e : Event) (w : World) (v : string) :
  conns w !! v <> None -> conns (step config e w) !! v <> None.
Proof.
  intros H Hn. destruct (step_flags_mono config e w) as (_ & _ & M).
  now apply H, M.
Qed.

Lemma exitLoop_accept (u v : string) (now connections dateNow : Z) (w : World) :
  conns w !! u = None -> conns w !! v <> None ->
  exitLoop (conn v (settle (getConnectionsCallback config u connections dateNow
                              (connectionListener u now w))))
  = exitLoop (conn v w) /\
  sent v (settle (getConnectionsCallback config u connections dateNow
                    (connectionListener u now w)))
  = sent v w.
Proof.
  intros Hu Hv.
  assert (Hne : v <> u) by congruence.
  assert (H1 : conn v (connectionListener u now w) = conn v w)
    by (now apply conn_connectionListener_ne).
  destruct (accept_outcomes config u now connections dateNow w)
    as [->|[(e & r & Hr & ->)| ->]].
  - rewrite conn_mark. unfold sent. rewrite conn_mark, H1. auto.
  - unfold sent. rewrite !conn_mark.
    change (conn v (set_gClients _ ?x)) with (conn v x).
    rewrite exitLoop_client_end, H1. split; [reflexivity|].
    fold (sent v (client_end (Client.client r) None (connectionListener u now w))).
    rewrite sent_client_end_None. unfold sent. now rewrite H1.
  - unfold sent. rewrite !conn_mark.
    rewrite conn_update_conn_ne by congruence.
    rewrite exitLoop_client_end, H1. split; [reflexivity|].
    fold (sent v (client_end u (Some [255]) (connectionListener u now w))).
    rewrite sent_client_end_ne by congruence. unfold sent. now rewrite H1.
Qed.

Lemma exitLoop_step (e : Event) (w : World) (v : string) :
  conns w !! v <> None -> exitLoop (conn v w) = true ->
  exitLoop (conn v (step config e w)) = true.
Proof.
  intros Hv He. destruct e as [u now n t|u b|u|u|u|i|]; cbn [step].
  - destruct (listening w); cbn [andb]; [|exact He].
    destruct (bool_decide_reflect (conns w !! u = None)) as [Hu|_]; [|exact He].
    destruct (exitLoop_accept u v now n t w Hu Hv) as (-> & _). exact He.
  - destruct (bool_decide _); [exact He|].
    destruct (steady_onData config u b w) as (_ & _ & ->). exact He.
  - destruct (bool_decide _); [exact He|]. unfold onEnd. cbv zeta.
    change (conn v (set_gClients _ ?x)) with (conn v x).
    rewrite conn_update_conn. destruct (decide (u = v)); [reflexivity|exact He].
  - destruct (bool_decide _); [exact He|]. unfold onTimeout. cbv zeta.
    change (conn v (set_gClients _ ?x)) with (conn v x).
    rewrite conn_update_conn. destruct (decide (u = v)); [reflexivity|exact He].
  - destruct (bool_decide _); [exact He|]. unfold onError. cbv zeta.
    change (conn v (set_gClients _ ?x)) with (conn v x).
    rewrite conn_update_conn. destruct (decide (u = v)); [reflexivity|exact He].
  - destruct (steady_runTimer config i w) as (_ & _ & ->). exact He.
  - exact He.
Qed.

Lemma sent_checkStackEmpty_exited (u v : string) (w : World) :
  exitLoop (conn v w) = true -> sent v (checkStackEmpty u w) = sent v w.
Proof.
  intros He.
  destruct (checkStackEmpty_cases u w)
    as [[-> _]|[[-> _]|(rest & payload & _ & _ & Hx & ->)]];
    [reflexivity | reflexivity |].
  rewrite sent_client_end_ne; [reflexivity|]. intros ->. congruence.
Qed.

Lemma sent_checkStackFull_exited (u v : string) (p : Buffer) (w : World) :
  exitLoop (conn v w) = true -> sent v (checkStackFull config u p w) = sent v w.
Proof.
  intros He.
  destruct (checkStackFull_cases config u p w)
    as [[-> _]|[[-> _]|(_ & Hx & _ & ->)]];
    [reflexivity | reflexivity |].
  rewrite sent_client_end_ne; [reflexivity|]. intros ->. congruence.
Qed.

Lemma sent_runTimer_exited (i : nat) (v : string) (w : World) :
  exitLoop (conn v w) = true -> sent v (runTimer config i w) = sent v w.
Proof.
  intros He. unfold runTimer.
  destruct (timers w !! i) as [[u|u p]|]; [| |reflexivity]; cbv zeta.
  - now rewrite sent_checkStackEmpty_exited.
  - now rewrite sent_checkStackFull_exited.
Qed.

Lemma sent_onData_exited (u v : string) (b : Buffer) (w : World) :
  exitLoop (conn v w) = true -> sent v (settle (onData config u b w)) = sent v w.
Proof.
  intros He.
  destruct (onData_decompose config u b w)
    as (w1 & Hi & [-> |[-> |[[-> _]|(p & -> & _)]]]);
    destruct Hi as (_ & _ & _ & _ & _ & I6 & I7 & _); cbn [settle].
  - unfold sent, shutdown. cbv zeta.
    change (conn v (set_listening _ (set_gKillMe _ ?x))) with (conn v x).
    now rewrite I6.
  - unfold sent. now rewrite I6.
  - rewrite sent_checkStackEmpty_exited by (now rewrite I7).
    unfold sent. now rewrite I6.
  - rewrite sent_checkStackFull_exited by (now rewrite I7).
    unfold sent. now rewrite I6.
Qed.

Lemma sent_step_exited (e : Event) (w : World) (v : string) :
  conns w !! v <> None -> exitLoop (conn v w) = true ->
  sent v (step config e w) = sent v w.
Proof.
  intros Hv He. destruct e as [u now n t|u b|u|u|u|i|]; cbn [step].
  - destruct (listening w); cbn [andb]; [|reflexivity].
    destruct (bool_decide_reflect (conns w !! u = None)) as [Hu|_]; [|reflexivity].
    now destruct (exitLoop_accept u v now n t w Hu Hv) as (_ & ->).
  - destruct (bool_decide _); [reflexivity|]. now apply sent_onData_exited.
  - destruct (bool_decide _); [reflexivity|].
    now destruct (silent_onEnd u w) as (_ & _ & _ & -> & _).
  - destruct (bool_decide _); [reflexivity|].
    now destruct (silent_onEnd u w) as (_ & _ & _ & -> & _).
  - destruct (bool_decide _); [reflexivity|].
    now destruct (silent_onEnd u w) as (_ & _ & _ & -> & _).
  - now apply sent_runTimer_exited.
  - reflexivity.
Qed.

Lemma run_exited (evs : list Event) (w : World) (v : string) :
  conns w !! v <> None -> exitLoop (conn v w) = true ->
  conns (run config evs w) !! v <> None /\
  exitLoop (conn v (run config evs w)) = true /\
  sent v (run config evs w) = sent v w.
Proof.
  revert w. induction evs as [|e evs IH]; intros w Hv He; [auto|].
  cbn [run].
  destruct (IH (step config e w)) as (A & B & C);
    [now apply known_step | now apply exitLoop_step |].
  split; [exact A|]. split; [exact B|].
  rewrite C. now apply sent_step_exited.
Qed.

Lemma closes_exits (u : string) (e : Event) (w : World) :
  conns w !! u <> None -> closes u e ->
  exitLoop (conn u (step config e w)) = true /\
  sent u (step config e w) = sent u w.
Proof.
  intros Hu [-> |[-> | ->]]; cbn [step];
    rewrite bool_decide_eq_false_2 by exact Hu.
  - split; [|now destruct (silent_onEnd u w) as (_ & _ & _ & -> & _)].
    unfold onEnd. cbv zeta.
    change (conn u (set_gClients _ ?x)) with (conn u x).
    now rewrite conn_update_conn_eq.
  - split; [|now destruct (silent_onEnd u w) as (_ & _ & _ & -> & _)].
    unfold onTimeout. cbv zeta.
    change (conn u (set_gClients _ ?x)) with (conn u x).
    now rewrite conn_update_conn_eq.
  - split; [|now destruct (silent_onEnd u w) as (_ & _ & _ & -> & _)].
    unfold onError. cbv zeta.
    change (conn u (set_gClients _ ?x)) with (conn u x).
    now rewrite conn_update_conn_eq.
Qed.

(** X10 (after 'end', 'timeout' or 'error').  Once the ['end'],
    ['timeout'] or ['error'] handler of an accepted connection has run, no
    later event has anything sent to that connection. *)
Theorem ended_client_is_sent_nothing (u : string) (e : Event)
    (evs : list Event) (w : World) :
  conns w !! u <> None -> closes u e ->
  sent u (run config (e :: evs) w) = sent u w.
Proof.
  intros Hu Hc. cbn [run].
  destruct (closes_exits u e w Hu Hc) as [He Hs].
  destruct (run_exited evs (step config e w) u) as (_ & _ & ->);
    [now apply known_step | exact He | exact Hs].
Qed.

(** X11 (the handlers of 'end', 'timeout' and 'error' cancel a pending
    request).  After one of them has run for a connection, and whatever
    happened since, a retry of that connection that comes to run only
    leaves the list of pending retries: the stack and every socket are
    untouched, and the retry is not armed again. *)
Theorem ended_client_pending_request_dropped (u : string) (e : Event)
    (evs : list Event) (i : nat) (t : Timer) (w : World) :
  conns w !! u <> None -> closes u e ->
  let w' := run config (e :: evs) w in
  timers w' !! i = Some t -> timer_uuid t = u ->
  step config (OnTimer i) w' = set_timers (delete i (timers w')) w'.
Proof.
  intros Hu Hc w' Ht Htu. unfold w' in *. cbn [run] in *.
  destruct (closes_exits u e w Hu Hc) as [He _].
  destruct (run_exited evs (step config e w) u) as (_ & Hx & _);
    [now apply known_step | exact He |].
  set (w2 := run config evs (step config e w)) in *.
  cbn [step]. unfold runTimer. rewrite Ht. cbv zeta.
  destruct t as [v|v p]; cbn [timer_uuid] in Htu; subst v.
  - unfold checkStackEmpty.
    change (conn u (set_timers (delete i (timers w2)) w2)) with (conn u w2).
    rewrite Hx, orb_true_r. reflexivity.
  - unfold checkStackFull.
    change (conn u (set_timers (delete i (timers w2)) w2)) with (conn u w2).
    rewrite Hx, orb_true_r. reflexivity.
Qed.

(** ** A closed server *)

Lemma get_delete_Some (u k : string) (r : Client.t) (g : Obj.t Client.t) :
  Obj.get k (Obj.delete u g) = Some r -> Obj.get k g = Some r.
Proof. rewrite Obj_get_delete. destruct (decide (k = u)); [discriminate|auto]. Qed.

Lemma step_closed (e : Event) (w : World) :
  listening w = false ->
  listening (step config e w) = false /\
  gConnectionsMade (step config e w) = gConnectionsMade w /\
  forall k r, Obj.get k (gClients (step config e w)) = Some r ->
              Obj.get k (gClients w) = Some r.
Proof.
  intros Hl.
  split; [now apply (step_flags_mono config e w)|].
  destruct e as [u now n t|u b|u|u|u|i|]; cbn [step].
  - rewrite Hl. cbn [andb]. auto.
  - destruct (bool_decide _); [auto|].
    destruct (steady_onData config u b w) as (-> & -> & _). auto.
  - destruct (bool_decide _); [auto|]. split; [reflexivity|].
    intros k r. apply get_delete_Some.
  - destruct (bool_decide _); [auto|]. split; [reflexivity|].
    intros k r. apply get_delete_Some.
  - destruct (bool_decide _); [auto|]. split; [reflexivity|].
    intros k r. apply get_delete_Some.
  - destruct (steady_runTimer config i w) as (-> & -> & _). auto.
  - auto.
Qed.

(** X12 (a closed server).  Once the server has stopped listening, no run
    makes it listen again, [gConnectionsMade] keeps its value, and every
    record found in the registry later was there before, unchanged. *)
Theorem closed_server_accepts_nobody (evs : list Event) (w : World) :
  listening w = false ->
  let w' := run config evs w in
  listening w' = false /\
  gConnectionsMade w' = gConnectionsMade w /\
  forall k r, Obj.get k (gClients w') = Some r ->
              Obj.get k (gClients w) = Some r.
Proof.
  revert w. induction evs as [|e evs IH]; intros w Hl; [cbn; auto|].
  cbn [run]. destruct (step_closed e w Hl) as (A & B & C).
  destruct (IH (step config e w) A) as (D & E & F).
  split; [exact D|]. split; [congruence|]. intros k r Hk. now apply C, F.
Qed.

(** ** Connections scheduled for termination *)

Lemma step_data_marked (u : string) (data : Buffer) (r : Client.t) (w : World) :
  conns w !! u <> None ->
  Obj.get u (gClients w) = Some r -> Client.disconnect r = true ->
  step config (OnData u data) w
  = update_conn u (set_state Disconnect) (mark (DataHandled u) w).
Proof.
  intros Hu Hr Hd. cbn [step]. rewrite bool_decide_eq_false_2 by exact Hu.
  unfold onData. cbv zeta.
  change (gClients (mark (DataHandled u) w)) with (gClients w).
  rewrite Hr, Hd. cbn [settle].
  set (w0 := update_conn u (set_state Disconnect) (mark (DataHandled u) w)).
  assert (Hs : state (conn u w0) = Disconnect)
    by (unfold w0; now rewrite conn_update_conn_eq).
  rewrite onDataState_other by (rewrite Hs; discriminate).
  apply onDataDone_other. rewrite Hs. discriminate.
Qed.

(** X13 (data of a connection scheduled for termination).  When the
    record of a connection has [disconnect] set, any number of deliveries
    on that connection leave the halt flag, the server, the stack, the
    pending retries, the registry, what every connection was sent and the
    closure variables of all other connections unchanged; after the first
    delivery the connection is in state ['disconnect']. *)
Theorem marked_connection_is_mute (u : string) (r : Client.t)
    (deliveries : list Buffer) (w : World) :
  conns w !! u <> None ->
  Obj.get u (gClients w) = Some r -> Client.disconnect r = true ->
  let w' := run config (map (OnData u) deliveries) w in
  gKillMe w' = gKillMe w /\ listening w' = listening w /\
  gLIFO w' = gLIFO w /\ timers w' = timers w /\ gClients w' = gClients w /\
  (forall v, sent v w' = sent v w) /\
  (forall v, v <> u -> conn v w' = conn v w) /\
  (deliveries <> [] -> state (conn u w') = Disconnect).
Proof.
  revert w. induction deliveries as [|d ds IH]; intros w Hu Hr Hd.
  - cbn. do 7 (split; [reflexivity|]). intros H. now destruct H.
  - cbn [map run]. rewrite (step_data_marked u d r w Hu Hr Hd).
    set (w1 := update_conn u (set_state Disconnect) (mark (DataHandled u) w)).
    assert (Hu1 : conns w1 !! u <> None)
      by (unfold w1; cbn; rewrite lookup_insert_eq; discriminate).
    destruct (IH w1 Hu1 Hr Hd) as (A & B & C & D & E & F & G & H).
    split; [exact A|]. split; [exact B|]. split; [exact C|].
    split; [exact D|]. split; [exact E|]. split; [|split].
    + intros v. rewrite F. unfold w1. now rewrite sent_update_conn.
    + intros v Hv. rewrite (G v Hv). unfold w1.
      now rewrite conn_update_conn_ne.
    + intros _. destruct ds as [|d' ds'].
      * cbn. unfold w1. now rewrite conn_update_conn_eq.
      * apply H. discriminate.
Qed.

End Ended.

Lemma ended_client_is_sent_nothing_witness :
  sent "a" (run config_small [OnEnd "a"; OnData "b" [0x80]; OnTimer 0] world_four)
  = sent "a" world_four.
Proof.
  apply (ended_client_is_sent_nothing config_small "a" (OnEnd "a")
           [OnData "b" [0x80]; OnTimer 0] world_four).
  - vm_compute. discriminate.
  - left. reflexivity.
Defined.

Lemma ended_client_pending_request_dropped_witness :
  let w' := run config_small [OnTimeout "c"; OnData "d" [0x80]] world_waiting in
  step config_small (OnTimer 0) w' = set_timers (delete 0%nat (timers w')) w'.
Proof.
  apply (ended_client_pending_request_dropped config_small "c" (OnTimeout "c")
           [OnData "d" [0x80]] 0 (TimerFull "c" [69]) world_waiting).
  - vm_compute. discriminate.
  - right. left. reflexivity.
  - vm_compute. reflexivity.
  - reflexivity.
Defined.

Lemma closed_server_accepts_nobody_witness :
  let w' := run config_small [OnConnection "e" 2000 5 2000; OnEnd "a"]
              (shutdown world_four) in
  listening w' = false /\
  gConnectionsMade w' = gConnectionsMade (shutdown world_four) /\
  forall k r, Obj.get k (gClients w') = Some r ->
              Obj.get k (gClients (shutdown world_four)) = Some r.
Proof.
  apply (closed_server_accepts_nobody config_small
           [OnConnection "e" 2000 5 2000; OnEnd "a"] (shutdown world_four)).
  reflexivity.
Defined.

Lemma marked_connection_is_mute_witness :
  let w' := run config_two (map (OnData "a") [[1; 65]; [0x80]]) world_evicted in
  gKillMe w' = gKillMe world_evicted /\ listening w' = listening world_evicted /\
  gLIFO w' = gLIFO world_evicted /\ timers w' = timers world_evicted /\
  gClients w' = gClients world_evicted /\
  (forall v, sent v w' = sent v world_evicted) /\
  (forall v, v <> "a" -> conn v w' = conn v world_evicted) /\
  ([[1; 65]; [0x80]] <> [] -> state (conn "a" w') = Disconnect).
Proof.
  apply (marked_connection_is_mute config_two "a"
           (marked (Client.mk 1000 "a" 1 false)) [[1; 65]; [0x80]] world_evicted).
  - vm_compute. discriminate.
  - vm_compute. reflexivity.
  - reflexivity.
Defined.

(** ** The registry and the count of connections *)

(** [registry_ok] survives any change that adds no connection and no
    record, and keeps the socket and the counter of the records left. *)
Lemma registry_ok_shrink (w w' : World) :
  registry_ok w ->
  gConnectionsMade w' = gConnectionsMade w ->
  (forall k r, Obj.get k (gClients w') = Some r ->
     exists r0, Obj.get k (gClients w) = Some r0 /\
                Client.client r0 = Client.client r /\
                Client.counter r0 = Client.counter r) ->
  (forall v, conns w' !! v = None <-> conns w !! v = None) ->
  (forall t, t ∈ timers w' -> t ∈ timers w \/ conns w !! timer_uuid t <> None) ->
  registry_ok w'.
Proof.
  intros [N K C D T S] Hm Hg Hc Ht. split.
  - intros k r Hk. destruct (Hg k r Hk) as (r0 & H0 & <- & _). now apply N.
  - intros k r Hk. destruct (Hg k r Hk) as (r0 & H0 & _). rewrite Hc.
    now apply (K k r0).
  - intros k r Hk. destruct (Hg k r Hk) as (r0 & H0 & _ & <-). rewrite Hm.
    now apply (C k).
  - intros k k' r r' Hk Hk' Heq.
    destruct (Hg k r Hk) as (r0 & H0 & _ & E0).
    destruct (Hg k' r' Hk') as (r0' & H0' & _ & E0').
    apply (D k k' r0 r0' H0 H0'). congruence.
  - intros t Hin. rewrite Hc. destruct (Ht t Hin) as [H|H]; [now apply T|exact H].
  - rewrite Hm, S. f_equal. symmetry. now apply size_same_keys.
Qed.

Lemma registry_ok_benign (w w' : World) :
  registry_ok w -> benign w w' ->
  gConnectionsMade w' = gConnectionsMade w -> gClients w' = gClients w ->
  registry_ok w'.
Proof.
  intros H [_ B _ T] Hm Hg. apply (registry_ok_shrink w); auto.
  intros k r Hk. rewrite Hg in Hk. eauto.
Qed.

Lemma registry_ok_mark (a : Action) (w : World) :
  registry_ok w -> registry_ok (mark a w).
Proof. intros [N K C D T S]. split; assumption. Qed.

Lemma registry_ok_connectionListener (u : string) (now : Z) (w : World) :
  registry_ok w -> conns w !! u = None ->
  registry_ok (connectionListener u now w).
Proof.
  intros [N K C D T S] Hu.
  assert (Hget : forall k r,
            Obj.get k (gClients (connectionListener u now w)) = Some r ->
            (k = u /\ r = Client.mk now u (gConnectionsMade w + 1) false)
            \/ (k <> u /\ Obj.get k (gClients w) = Some r)).
  { intros k r. rewrite gClients_connectionListener_eq, Obj_get_set.
    destruct (decide (k = u)); [left | right]; split; congruence. }
  assert (Hc : conns (connectionListener u now w) = <[u := conn_init]> (conns w))
    by reflexivity.
  assert (Hm : gConnectionsMade (connectionListener u now w)
               = gConnectionsMade w + 1) by reflexivity.
  split.
  - intros k r Hk. destruct (Hget k r Hk) as [[-> ->]|[_ H]];
      [reflexivity | now apply N].
  - intros k r Hk. rewrite Hc. destruct (Hget k r Hk) as [[-> _]|[Hne H]].
    + rewrite lookup_insert_eq. discriminate.
    + rewrite lookup_insert_ne by congruence. now apply (K k r).
  - intros k r Hk. rewrite Hm. destruct (Hget k r Hk) as [[_ ->]|[_ H]].
    + cbn. lia.
    + pose proof (C k r H). lia.
  - intros k k' r r' Hk Hk' Heq.
    destruct (Hget k r Hk) as [[-> ->]|[_ H]];
      destruct (Hget k' r' Hk') as [[-> ->]|[_ H']].
    + reflexivity.
    + pose proof (C k' r' H'). cbn in Heq. lia.
    + pose proof (C k r H). cbn in Heq. lia.
    + now apply (D k k' r r').
  - intros t Hin. rewrite Hc.
    change (timers (connectionListener u now w)) with (timers w) in Hin.
    destruct (decide (timer_uuid t = u)) as [->|Hne].
    + rewrite lookup_insert_eq. discriminate.
    + rewrite lookup_insert_ne by congruence. now apply T.
  - rewrite Hm, Hc, map_size_insert_None, S by exact Hu. lia.
Qed.

Section Registry.

Variable config : Config.

Lemma registry_ok_accept (u : string) (now connections dateNow : Z) (w : World) :
  registry_ok w -> conns w !! u = None ->
  registry_ok (settle (getConnectionsCallback config u connections dateNow
                         (connectionListener u now w))).
Proof.
  intros H Hu.
  pose proof (registry_ok_connectionListener u now w H Hu) as H1.
  assert (Hu1 : conns (connectionListener u now w) !! u <> None).
  { change (conns (connectionListener u now w)) with (<[u := conn_init]> (conns w)).
    rewrite lookup_insert_eq. discriminate. }
  destruct (accept_outcomes config u now connections dateNow w)
    as [->|[(e & r & Hr & ->)| ->]]; apply registry_ok_mark.
  - exact H1.
  - set (w1 := connectionListener u now w) in *.
    assert (He : conns w1 !! Client.client r <> None).
    { rewrite (records_named w1 H1 e r Hr). now apply (records_known w1 H1 e r). }
    pose proof (benign_client_end (Client.client r) None w1 He) as [_ B _ T].
    apply (registry_ok_shrink w1); [exact H1 | reflexivity | | exact B | exact T].
    intros k r'. cbn [gClients set_gClients].
    change (gClients (client_end (Client.client r) None w1)) with (gClients w1).
    rewrite Obj_get_set. destruct (decide (k = e)) as [->|_]; [|eauto].
    intros [= <-]. exists r. auto.
  - set (w1 := connectionListener u now w) in *.
    apply (registry_ok_benign w1); [exact H1 | | reflexivity | reflexivity].
    apply (benign_trans _ (client_end u (Some [255]) w1)).
    + now apply benign_client_end.
    + apply benign_update_conn.
      apply (benign_known u w1); [now apply benign_client_end | exact Hu1].
Qed.

Lemma registry_ok_close (u : string) (w : World) :
  registry_ok w -> conns w !! u <> None -> registry_ok (onEnd u w).
Proof.
  intros H Hu. pose proof (benign_onEnd u w Hu) as [_ B _ T].
  apply (registry_ok_shrink w); [exact H | reflexivity | | exact B | exact T].
  intros k r Hk. apply get_delete_Some in Hk. eauto.
Qed.

Lemma registry_ok_step (e : Event) (w : World) :
  registry_ok w -> registry_ok (step config e w).
Proof.
  intros H. destruct e as [u now n t|u b|u|u|u|i|]; cbn [step].
  - destruct (listening w); cbn [andb]; [|exact H].
    destruct (bool_decide_reflect (conns w !! u = None)) as [Hu|_]; [|exact H].
    now apply registry_ok_accept.
  - destruct (bool_decide_reflect (conns w !! u = None)) as [_|Hu]; [exact H|].
    destruct (steady_onData config u b w) as (A & B & _).
    apply (registry_ok_benign w); [exact H | now apply benign_onData | exact A | exact B].
  - destruct (bool_decide_reflect (conns w !! u = None)) as [_|Hu]; [exact H|].
    now apply registry_ok_close.
  - destruct (bool_decide_reflect (conns w !! u = None)) as [_|Hu]; [exact H|].
    now apply (registry_ok_close u w).
  - destruct (bool_decide_reflect (conns w !! u = None)) as [_|Hu]; [exact H|].
    now apply (registry_ok_close u w).
  - destruct (steady_runTimer config i w) as (A & B & _).
    apply (registry_ok_benign w); [exact H | | exact A | exact B].
    apply benign_runTimer. now apply (retries_known w).
  - apply (registry_ok_benign w); [exact H | apply benign_shutdown | reflexivity | reflexivity].
Qed.

Lemma registry_ok_run (evs : list Event) (w : World) :
  registry_ok w -> registry_ok (run config evs w).
Proof.
  revert w. induction evs as [|e evs IH]; intros w H; [exact H|].
  cbn [run]. now apply IH, registry_ok_step.
Qed.

Lemma registry_ok_init : registry_ok world_init.
Proof.
  split; cbn; try discriminate; [|reflexivity].
  intros t H. now apply elem_of_nil in H.
Qed.

(** X15 (the records of the registry).  In every state the server
    reaches, a record of the registry holds the socket of the connection
    whose uuid is its key, that connection was accepted, the counter of
    the record lies between 1 and [gConnectionsMade], and no two records
    have the same counter. *)
Theorem registry_records_well_formed (evs : list Event) :
  let w := run config evs world_init in
  (forall k r, Obj.get k (gClients w) = Some r ->
     Client.client r = k /\ conns w !! k <> None /\
     1 <= Client.counter r <= gConnectionsMade w) /\
  (forall k k' r r',
     Obj.get k (gClients w) = Some r -> Obj.get k' (gClients w) = Some r' ->
     Client.counter r = Client.counter r' -> k = k').
Proof.
  intros w.
  assert (H : registry_ok w) by apply registry_ok_run, registry_ok_init.
  split.
  - intros k r Hk. split; [now apply (records_named w H)|].
    split; [now apply (records_known w H k r) | now apply (records_counted w H k)].
  - apply (records_distinct w H).
Qed.

End Registry.

(** ** Ignored data, and the diagnostic report *)

Section Reports.

Variable config : Config.

(** X14 (data after a pop request).  On a registered connection in state
    ['pop'], that is one whose pop request is pending or was answered,
    any number of deliveries change nothing in the state of the process:
    the run only leaves its marks in the history. *)
Theorem waiting_popper_data_ignored (u : string) (deliveries : list Buffer)
    (w : World) :
  conns w !! u <> None -> registered u w -> state (conn u w) = Pop ->
  run config (map (OnData u) deliveries) w
  = set_history (history w ++ map (fun _ => DataHandled u) deliveries) w.
Proof.
  revert w. induction deliveries as [|d ds IH]; intros w Hu Hr Hs.
  - cbn. rewrite app_nil_r. now destruct w.
  - cbn [map run].
    rewrite (step_data_ignored config u d w Hu Hr) by (rewrite Hs; discriminate).
    rewrite IH by assumption.
    unfold mark, set_history. cbn. now rewrite <- app_assoc.
Qed.

(** X16 (what the diagnostic server reports).  With a non-negative
    [maxStackSize], in every state the server reaches the report shows a
    [LIFOStackSize] between 0 and [maxStackSize], a [gConnectionsMade]
    equal to the number of connections accepted so far, and the count of
    connections it was given. *)
Theorem diagnostic_report (evs : list Event) (connections : Z) :
  0 <= maxStackSize config ->
  let w := run config evs world_init in
  let d := diagnosticInformation connections w in
  0 <= Diagnostic.LIFOStackSize d <= maxStackSize config /\
  Diagnostic.gConnectionsMade d = Z.of_nat (size (conns w)) /\
  Diagnostic.appServerConnections d = connections.
Proof.
  intros Hmax w d. split; [|split; [|reflexivity]].
  - unfold d, diagnosticInformation. cbn [Diagnostic.LIFOStackSize].
    split; [lia|]. apply run_within_capacity. cbn. lia.
  - apply connections_counted, registry_ok_run, registry_ok_init.
Qed.

End Reports.

Lemma waiting_popper_data_ignored_witness :
  let w := step config_small (OnData "a" [0x80]) world_four in
  run config_small (map (OnData "a") [[1; 65]; [0x80]]) w
  = set_history (history w ++ map (fun _ => DataHandled "a") [[1; 65]; [0x80]]) w.
Proof.
  apply (waiting_popper_data_ignored config_small "a" [[1; 65]; [0x80]]
           (step config_small (OnData "a" [0x80]) world_four)).
  - vm_compute. discriminate.
  - eexists. split; vm_compute; reflexivity.
  - vm_compute. reflexivity.
Defined.

Lemma diagnostic_report_witness :
  let w := run config_small
             [OnConnection "a" 1000 1 1000; OnConnection "b" 1001 2 1001;
              OnConnection "c" 1002 3 1002; OnConnection "d" 1003 4 1003;
              OnData "a" [1; 65]] world_init in
  let d := diagnosticInformation 4 w in
  0 <= Diagnostic.LIFOStackSize d <= maxStackSize config_small /\
  Diagnostic.gConnectionsMade d = Z.of_nat (size (conns w)) /\
  Diagnostic.appServerConnections d = 4.
Proof.
  apply (diagnostic_report config_small
           [OnConnection "a" 1000 1 1000; OnConnection "b" 1001 2 1001;
            OnConnection "c" 1002 3 1002; OnConnection "d" 1003 4 1003;
            OnData "a" [1; 65]] 4).
  vm_compute. discriminate.
Defined.

(** ** The pending retries *)

Lemma retry_ok_same (w w' : World) (t : Timer) :
  same_requests w w' -> retry_ok w t -> retry_ok w' t.
Proof.
  intros H. destruct t as [u|u p]; cbn [retry_ok];
    destruct (H u) as [Hs Hp]; rewrite ?Hs, ?Hp; auto.
Qed.

Lemma retries_ok_same (w w' : World) :
  same_requests w w' -> (forall t, t ∈ timers w' -> t ∈ timers w) ->
  retries_ok w -> retries_ok w'.
Proof. intros H Ht Hw t Hin. apply (retry_ok_same w); auto. Qed.

Lemma same_requests_update_conn (u : string) (f : Conn -> Conn) (w : World) :
  (forall c, state (f c) = state c) ->
  (forall c, payloadList (f c) = payloadList c) ->
  same_requests w (update_conn u f w).
Proof.
  intros Hs Hp v. rewrite conn_update_conn.
  destruct (decide (u = v)) as [->|]; auto.
Qed.

Lemma same_requests_client_end (u : string) (d : option Buffer) (w : World) :
  same_requests w (client_end u d w).
Proof. apply same_requests_update_conn; reflexivity. Qed.

Lemma retries_ok_setTimeout (t : Timer) (w : World) :
  retries_ok w -> retry_ok w t -> retries_ok (setTimeout t w).
Proof.
  intros Hw Ht t' Hin. cbn [timers setTimeout set_timers] in Hin.
  apply elem_of_app in Hin as [Hin|Hin].
  - now apply Hw.
  - apply list_elem_of_singleton in Hin as ->. exact Ht.
Qed.

(** A connection still in state ['start'] or ['push'] has no retry
    pending. *)
Lemma no_retry_of (u : string) (w : World) :
  retries_ok w -> state (conn u w) = Start \/ state (conn u w) = Push ->
  forall t, t ∈ timers w -> timer_uuid t <> u.
Proof.
  intros Hw Hs t Hin <-. specialize (Hw t Hin).
  destruct t as [v|v p]; cbn [retry_ok timer_uuid] in *;
    destruct Hs as [Hs|Hs]; rewrite Hs in Hw;
    [destruct Hw|destruct Hw|destruct Hw as [[|] _]|destruct Hw as [[|] _]];
    discriminate.
Qed.

Lemma retries_ok_update_other (u : string) (f : Conn -> Conn) (w : World) :
  retries_ok w -> (forall t, t ∈ timers w -> timer_uuid t <> u) ->
  retries_ok (update_conn u f w).
Proof.
  intros Hw Hn t Hin. change (timers (update_conn u f w)) with (timers w) in Hin.
  specialize (Hn t Hin). specialize (Hw t Hin).
  destruct t as [v|v p]; cbn [retry_ok timer_uuid] in *;
    rewrite conn_update_conn_ne by congruence; exact Hw.
Qed.

Lemma retries_ok_disconnect (u : string) (w : World) :
  retries_ok w -> retries_ok (update_conn u (set_state Disconnect) w).
Proof.
  intros Hw t Hin.
  change (timers (update_conn u (set_state Disconnect) w)) with (timers w) in Hin.
  specialize (Hw t Hin).
  destruct t as [v|v p]; cbn [retry_ok] in *; rewrite conn_update_conn;
    destruct (decide (u = v)) as [->|]; auto.
  split; [now right | apply Hw].
Qed.

Section Retries.

Variable config : Config.

Lemma retries_ok_checkStackEmpty (u : string) (w : World) :
  retries_ok w -> retry_ok w (TimerEmpty u) -> retries_ok (checkStackEmpty u w).
Proof.
  intros Hw Ht.
  destruct (checkStackEmpty_cases u w)
    as [[-> _]|[[-> _]|(rest & payload & _ & _ & _ & ->)]].
  - exact Hw.
  - now apply retries_ok_setTimeout.
  - apply (retries_ok_same w); [|auto|exact Hw].
    intros v. apply (same_requests_client_end u _ (set_gLIFO rest w)).
Qed.

Lemma retries_ok_checkStackFull (u : string) (p : Buffer) (w : World) :
  retries_ok w -> retry_ok w (TimerFull u p) ->
  retries_ok (checkStackFull config u p w).
Proof.
  intros Hw Ht.
  destruct (checkStackFull_cases config u p w)
    as [[-> _]|[[-> _]|(_ & _ & _ & ->)]].
  - exact Hw.
  - now apply retries_ok_setTimeout.
  - apply (retries_ok_same w); [|auto|exact Hw].
    intros v. apply (same_requests_client_end u _ (set_gLIFO (gLIFO w ++ [p]) w)).
Qed.

Lemma retries_ok_runTimer (i : nat) (w : World) :
  retries_ok w -> retries_ok (runTimer config i w).
Proof.
  intros Hw. unfold runTimer.
  destruct (timers w !! i) as [t|] eqn:Hi; [|exact Hw].
  assert (Ht : retry_ok w t) by (apply Hw; eapply list_elem_of_lookup_2; eauto).
  assert (Hd : retries_ok (set_timers (delete i (timers w)) w)).
  { apply (retries_ok_same w); [intros v; auto| |exact Hw].
    intros t' Hin. eapply elem_of_sublist; [exact Hin | apply sublist_delete]. }
  cbv zeta. destruct t as [u|u p].
  - apply retries_ok_checkStackEmpty; [exact Hd | exact Ht].
  - apply retries_ok_checkStackFull; [exact Hd | exact Ht].
Qed.

Lemma retries_ok_onDataState (u : string) (b : Buffer) (w : World) :
  retries_ok w -> retries_ok (onDataState u b w).
Proof.
  intros Hw. unfold onDataState.
  destruct (bool_decide_reflect (state (conn u w) = Start)) as [Hs|Hs];
    cbn [andb].
  - destruct (negb (Buffer_and b 0 128 =? 0)).
    + cbv zeta. apply retries_ok_checkStackEmpty.
      * apply retries_ok_update_other; [exact Hw|].
        apply no_retry_of; auto.
      * cbn [retry_ok]. left. now rewrite conn_update_conn_eq.
    + rewrite bool_decide_eq_false_2 by (rewrite Hs; discriminate).
      apply retries_ok_update_other; [exact Hw|]. apply no_retry_of; auto.
  - destruct (bool_decide_reflect (state (conn u w) = Push)) as [Hp|Hp].
    + apply retries_ok_update_other; [exact Hw|]. apply no_retry_of; auto.
    + destruct (bool_decide _); exact Hw.
Qed.

Lemma retries_ok_onDataDone (u : string) (w : World) :
  retries_ok w -> retries_ok (onDataDone config u w).
Proof.
  intros Hw. unfold onDataDone.
  destruct (bool_decide_reflect (state (conn u w) = Done)) as [Hs|Hs];
    [|exact Hw].
  cbv zeta. apply retries_ok_checkStackFull; [exact Hw|].
  cbn [retry_ok]. auto.
Qed.

Lemma retries_ok_mark (a : Action) (w : World) :
  retries_ok w -> retries_ok (mark a w).
Proof. intros Hw t Hin. now apply Hw. Qed.

Lemma retries_ok_shutdown (w : World) :
  retries_ok w -> retries_ok (shutdown w).
Proof. intros Hw t Hin. now apply Hw. Qed.

Lemma retries_ok_onData (u : string) (b : Buffer) (w : World) :
  retries_ok w -> retries_ok (settle (onData config u b w)).
Proof.
  intros Hw. unfold onData. cbv zeta.
  destruct (Obj.get u (gClients (mark (DataHandled u) w))) as [r|];
    cbn [settle]; [|now apply retries_ok_shutdown, retries_ok_mark].
  apply retries_ok_onDataDone, retries_ok_onDataState.
  destruct (Client.disconnect r).
  - now apply retries_ok_disconnect, retries_ok_mark.
  - now apply retries_ok_mark.
Qed.

Lemma retries_ok_close (u : string) (w : World) :
  retries_ok w -> retries_ok (onEnd u w).
Proof.
  intros Hw. unfold onEnd. cbv zeta.
  apply (retries_ok_same w); [|auto|exact Hw].
  intros v.
  change (conn v (set_gClients _ ?x)) with (conn v x).
  apply same_requests_update_conn; reflexivity.
Qed.

Lemma retries_ok_accept (u : string) (now connections dateNow : Z) (w : World) :
  retries_ok w -> (forall t, t ∈ timers w -> timer_uuid t <> u) ->
  retries_ok (settle (getConnectionsCallback config u connections dateNow
                        (connectionListener u now w))).
Proof.
  intros Hw Hn.
  assert (H1 : retries_ok (connectionListener u now w)).
  { intros t Hin. change (timers (connectionListener u now w)) with (timers w) in Hin.
    specialize (Hn t Hin). specialize (Hw t Hin).
    destruct t as [v|v p]; cbn [retry_ok timer_uuid] in *;
      rewrite conn_connectionListener_ne by congruence; exact Hw. }
  destruct (accept_outcomes config u now connections dateNow w)
    as [->|[(e & r & Hr & ->)| ->]]; apply retries_ok_mark.
  - exact H1.
  - apply (retries_ok_same (connectionListener u now w)); [|auto|exact H1].
    intros v. change (conn v (set_gClients _ ?x)) with (conn v x).
    apply same_requests_client_end.
  - apply retries_ok_disconnect.
    apply (retries_ok_same (connectionListener u now w)); [|auto|exact H1].
    apply same_requests_client_end.
Qed.

Lemma retries_ok_step (e : Event) (w : World) :
  registry_ok w -> retries_ok w -> retries_ok (step config e w).
Proof.
  intros Hr Hw. destruct e as [u now n t|u b|u|u|u|i|]; cbn [step].
  - destruct (listening w); cbn [andb]; [|exact Hw].
    destruct (bool_decide_reflect (conns w !! u = None)) as [Hu|_]; [|exact Hw].
    apply retries_ok_accept; [exact Hw|].
    intros t' Hin Heq. apply (retries_known w Hr t' Hin). now rewrite Heq.
  - destruct (bool_decide _); [exact Hw|]. now apply retries_ok_onData.
  - destruct (bool_decide _); [exact Hw|]. now apply retries_ok_close.
  - destruct (bool_decide _); [exact Hw|]. now apply (retries_ok_close u w).
  - destruct (bool_decide _); [exact Hw|]. now apply (retries_ok_close u w).
  - now apply retries_ok_runTimer.
  - now apply retries_ok_shutdown.
Qed.

Lemma retries_ok_run (evs : list Event) (w : World) :
  registry_ok w -> retries_ok w -> retries_ok (run config evs w).
Proof.
  revert w. induction evs as [|e evs IH]; intros w Hr Hw; [exact Hw|].
  cbn [run]. apply IH; [now apply registry_ok_step | now apply retries_ok_step].
Qed.

(** X17 (pending retries and the requests they serve).  In every state
    the server reaches, a pending [checkStackEmpty] belongs to an accepted
    connection in state ['pop'], and a pending [checkStackFull] to an
    accepted connection in state ['done'] whose payload is the
    concatenation of the chunks that connection collected; or the
    connection was scheduled for termination since and is in state
    ['disconnect']. *)
Theorem pending_retries_match_requests (evs : list Event) (t : Timer) :
  let w := run config evs world_init in
  t ∈ timers w ->
  conns w !! timer_uuid t <> None /\
  match t with
  | TimerEmpty u =>
      state (conn u w) = Pop \/ state (conn u w) = Disconnect
  | TimerFull u combinedPayload =>
      (state (conn u w) = Done \/ state (conn u w) = Disconnect) /\
      combinedPayload = Buffer_concat (payloadList (conn u w))
  end.
Proof.
  intros w Hin. split.
  - apply (retries_known w); [|exact Hin].
    apply registry_ok_run, registry_ok_init.
  - apply (retries_ok_run evs world_init); [apply registry_ok_init| |exact Hin].
    intros t' Hin'. now apply elem_of_nil in Hin'.
Qed.

End Retries.

Lemma pending_retries_match_requests_witness :
  let w := run config_small
             [OnConnection "a" 1000 1 1000; OnData "a" [0x80]] world_init in
  conns w !! timer_uuid (TimerEmpty "a") <> None /\
  (state (conn "a" w) = Pop \/ state (conn "a" w) = Disconnect).
Proof.
  apply (pending_retries_match_requests config_small
           [OnConnection "a" 1000 1 1000; OnData "a" [0x80]] (TimerEmpty "a")).
  vm_compute. apply list_elem_of_here.
Defined.
